(** * SamsaraDemoApp: the screens' controllers, embedded and checked against
      the specification

    The application is a set of React Native screens.  Each screen is a
    function component: some state cells ([useState]), handlers that update
    them, and a render function of the cells.  The embedding keeps that
    shape:

    - the state cells of a screen are a record;
    - a handler is a function on that record; an [async] handler is cut at
      its [await]s: what is left to run after an [await] is a value of an
      inductive type of pending tasks, and the settling of the awaited
      promise is an event of a step function;
    - a handler reads the cells as the constants of the render that made
      it; where that matters the handler takes them as arguments, and the
      press of a button runs the handler of the latest render;
    - what the screen asks of its collaborators (network requests, camera
      commands, alerts, storage writes) is appended to traces in the state;
    - JavaScript values, numbers (IEEE 754 binary64) and their conversions
      to text are modelled in the first two modules.

    Source files: [src/unnamed/part_004] (pulse screen, upload through
    expo-file-system), [src/screens/PulseScanScreen.js] (pulse screen, upload
    through fetch), [src/unnamed/part_005] (two more pulse screens),
    [src/screens/AyurvedaBotScreen.js], [src/screens/BarcodeScannerNative.js]
    and [src/unnamed/part_002] (food scanner). *)

From Stdlib Require Import ZArith QArith Qround Qabs Qpower Ascii String DecimalString.
From stdpp Require Import gmap strings list.

Open Scope Z_scope.

(** ** JavaScript numbers *)

(** A Number is NaN, an infinity or a finite binary64 value, kept here as the
    rational it denotes.  The two zeros are one value: the screens never
    divide by a computed zero of unknown sign, [String], [toFixed] and the
    truth test do not tell them apart, and sums start from [+0]. *)
Module JSNumber.

Inductive number :=
  | NaN
  | Inf (neg : bool)
  | Fin (q : Q).

Definition pow2 (e : Z) : Q := Qpower (2 # 1) e.
Definition pow10 (e : Z) : Q := Qpower (10 # 1) e.

Definition Qlt_bool (a b : Q) : bool := negb (Qle_bool b a).

(** [floor_log2 a] is the [e] with [2^e <= a < 2^(e+1)], for [a > 0]. *)
Definition floor_log2 (a : Q) : Z :=
  let e0 := Z.log2 (Qnum a) - Z.log2 (Z.pos (Qden a)) in
  if Qle_bool (pow2 e0) a then e0 else e0 - 1.

Definition round_half_even (t : Q) : Z :=
  let f := Qfloor t in
  match Qcompare (t - inject_Z f)%Q (1 # 2) with
  | Lt => f
  | Gt => f + 1
  | Eq => if Z.even f then f else f + 1
  end.

(** Round a real to the nearest binary64, ties to even: 53 bits of
    significand, least exponent -1074, and anything that rounds to 2^1024 or
    more is an infinity. *)
Definition round64 (q : Q) : number :=
  if Qeq_bool q 0 then Fin 0
  else
    let a := Qabs q in
    let p := Z.max (floor_log2 a - 52) (-1074) in
    let v := (inject_Z (round_half_even (a / pow2 p)) * pow2 p)%Q in
    if Qle_bool (pow2 1024) v then Inf (Qlt_bool q 0)
    else Fin (Qred (if Qlt_bool q 0 then (- v)%Q else v)).

Definition of_Z (z : Z) : number := round64 (inject_Z z).

Definition add (x y : number) : number :=
  match x, y with
  | NaN, _ | _, NaN => NaN
  | Inf a, Inf b => if Bool.eqb a b then Inf a else NaN
  | Inf a, Fin _ | Fin _, Inf a => Inf a
  | Fin a, Fin b => round64 (a + b)%Q
  end.

Definition mul (x y : number) : number :=
  match x, y with
  | NaN, _ | _, NaN => NaN
  | Inf a, Inf b => Inf (xorb a b)
  | Inf a, Fin q | Fin q, Inf a =>
      if Qeq_bool q 0 then NaN else Inf (xorb a (Qlt_bool q 0))
  | Fin a, Fin b => round64 (a * b)%Q
  end.

(** Division; a zero divisor is [+0]. *)
Definition div (x y : number) : number :=
  match x, y with
  | NaN, _ | _, NaN => NaN
  | Inf _, Inf _ => NaN
  | Inf a, Fin q => Inf (xorb a (Qlt_bool q 0))
  | Fin _, Inf _ => Fin 0
  | Fin a, Fin b =>
      if Qeq_bool b 0
      then (if Qeq_bool a 0 then NaN else Inf (Qlt_bool a 0))
      else round64 (a / b)%Q
  end.

Definition isNaN (x : number) : bool :=
  match x with NaN => true | _ => false end.

Definition is_zero (x : number) : bool :=
  match x with Fin q => Qeq_bool q 0 | _ => false end.

Definition isFinite (x : number) : bool :=
  match x with Fin _ => true | _ => false end.

(** [x > y] of JavaScript: false as soon as one side is NaN. *)
Definition gt (x y : number) : bool :=
  match x, y with
  | NaN, _ | _, NaN => false
  | Inf a, Inf b => negb a && b
  | Inf a, Fin _ => negb a
  | Fin _, Inf b => b
  | Fin a, Fin b => Qlt_bool b a
  end.

(** *** Decimal text *)

Definition digits (n : Z) : string := NilZero.string_of_uint (N.to_uint (Z.to_N n)).

Fixpoint zeros (n : nat) : string :=
  match n with O => EmptyString | S n' => String "0"%char (zeros n') end.

Fixpoint strip_zeros_rev (l : list ascii) : list ascii :=
  match l with
  | "0"%char :: l' => strip_zeros_rev l'
  | _ => l
  end.

(** Drop the zeros at the end of a digit string. *)
Definition strip_trailing_zeros (s : string) : string :=
  string_of_list_ascii (rev (strip_zeros_rev (rev (list_ascii_of_string s)))).

Fixpoint adjust10 (fuel : nat) (a : Q) (n : Z) : Z :=
  match fuel with
  | O => n
  | S fuel' =>
      if Qle_bool (pow10 n) a then adjust10 fuel' a (n + 1)
      else if Qlt_bool a (pow10 (n - 1)) then adjust10 fuel' a (n - 1)
      else n
  end.

(** [decimal_exponent a] is the [n] with [10^(n-1) <= a < 10^n], for
    [a > 0]: an estimate from the binary exponent, then corrected. *)
Definition decimal_exponent (a : Q) : Z :=
  adjust10 8 a ((floor_log2 a * 30103) / 100000 + 1).

Definition round_trips (a : Q) (c : Z) (scale : Q) : bool :=
  match round64 (inject_Z c * scale)%Q with
  | Fin v => Qeq_bool v a
  | _ => false
  end.

(** The candidates with [k] digits closest to [a] from below and from above;
    the one that reads back as [a], the closer one when both do, the even one
    when they are as close. *)
Definition candidate (a : Q) (nx : Z) (k : Z) : option Z :=
  let scale := pow10 (nx - k) in
  let lo := Qfloor (a / scale)%Q in
  let hi := lo + 1 in
  match round_trips a lo scale, round_trips a hi scale with
  | false, false => None
  | true, false => Some lo
  | false, true => Some hi
  | true, true =>
      match Qcompare (a - inject_Z lo * scale)%Q (inject_Z hi * scale - a)%Q with
      | Lt => Some lo
      | Gt => Some hi
      | Eq => Some (if Z.even lo then lo else hi)
      end
  end.

Fixpoint shortest (fuel : nat) (a : Q) (nx : Z) (k : Z) : Z * Z :=
  match fuel with
  | O => (Qfloor (a / pow10 (nx - k))%Q, k)
  | S fuel' =>
      match candidate a nx k with
      | Some c => (c, k)
      | None => shortest fuel' a nx (k + 1)
      end
  end.

(** The digits [s] and the exponent [n] of Number::toString: [a] is the
    binary64 nearest to [0.s * 10^n], with as few digits as possible. *)
Definition shortest_decimal (a : Q) : string * Z :=
  let nx := decimal_exponent a in
  let '(c, k) := shortest 17 a nx 1 in
  let d := digits c in
  (strip_trailing_zeros d, nx - k + Z.of_nat (String.length d)).

Definition substring_from (i : nat) (s : string) : string :=
  String.substring i (String.length s - i)%nat s.

(** Number::toString, radix 10. *)
Definition toString (x : number) : string :=
  match x with
  | NaN => "NaN"
  | Inf false => "Infinity"
  | Inf true => "-Infinity"
  | Fin q =>
      if Qeq_bool q 0 then "0"
      else
        let sign := if Qlt_bool q 0 then "-" else "" in
        let '(s, n) := shortest_decimal (Qabs q) in
        let k := Z.of_nat (String.length s) in
        sign +:+
        (if (-5 <=? n) && (n <=? 21) then
           if k <=? n then s +:+ zeros (Z.to_nat (n - k))
           else if 0 <? n then
             String.substring 0 (Z.to_nat n) s +:+ "." +:+ substring_from (Z.to_nat n) s
           else "0." +:+ zeros (Z.to_nat (- n)) +:+ s
         else
           let e := n - 1 in
           let exp := (if e <? 0 then "-" else "+") +:+ digits (Z.abs e) in
           if k =? 1 then s +:+ "e" +:+ exp
           else String.substring 0 1 s +:+ "." +:+ substring_from 1 s +:+ "e" +:+ exp)
  end.

(** Round to the nearest integer, the larger one on a tie. *)
Definition round_half_up (t : Q) : Z := Qfloor (t + (1 # 2))%Q.

(** Number.prototype.toFixed with [f] fraction digits. *)
Definition toFixed (f : nat) (x : number) : string :=
  match x with
  | Fin q =>
      let a := Qabs q in
      let sign := if Qlt_bool q 0 then "-" else "" in
      if Qle_bool (pow10 21) a then toString x
      else
        let m := digits (round_half_up (a * pow10 (Z.of_nat f))%Q) in
        let m := zeros (S f - String.length m)%nat +:+ m in
        let k := String.length m in
        sign +:+
        (match f with
         | O => m
         | _ => String.substring 0 (k - f)%nat m +:+ "." +:+ substring_from (k - f)%nat m
         end)
  | _ => toString x
  end.

(** *** Reading a number *)

Definition digit_of (c : ascii) : option Z :=
  let n := Z.of_N (N_of_ascii c) in
  if (48 <=? n) && (n <=? 57) then Some (n - 48) else None.

(** The digits at the front of a string: their value, how many, the rest. *)
Fixpoint take_digits (s : string) (acc : Z) (cnt : nat) : Z * nat * string :=
  match s with
  | String c s' =>
      match digit_of c with
      | Some d => take_digits s' (10 * acc + d) (S cnt)
      | None => (acc, cnt, s)
      end
  | EmptyString => (acc, cnt, s)
  end.

(** [parseFloat] on text made of digits, dots and signs: the longest prefix
    [sign? digits (. digits?)?] or [sign? . digits] is read and rounded;
    without such a prefix the result is NaN.  (White space in front, an
    exponent part and the word Infinity, which parseFloat reads as well, are
    not: the one caller strips every character they need.) *)
Definition parseFloat (s : string) : number :=
  let '(neg, s1) :=
    match s with
    | String "-"%char r => (true, r)
    | String "+"%char r => (false, r)
    | _ => (false, s)
    end in
  let '(i, ni, s2) := take_digits s1 0 O in
  let signed (q : Q) := round64 (if neg then (- q)%Q else q) in
  match s2 with
  | String "."%char s3 =>
      let '(f, nf, _) := take_digits s3 0 O in
      match ni, nf with
      | O, O => NaN
      | _, _ => signed (inject_Z (i * 10 ^ Z.of_nat nf + f) / inject_Z (10 ^ Z.of_nat nf))%Q
      end
  | _ =>
      match ni with
      | O => NaN
      | _ => signed (inject_Z i)
      end
  end.

End JSNumber.

(** ** JavaScript values *)

(** The values the screens handle: what [JSON.parse] returns, plus
    [undefined] for a property that is not there. *)
Module JSValue.
Import JSNumber.

#[local] Set Warnings "-register-all".

Inductive value :=
  | VUndefined
  | VNull
  | VBool (b : bool)
  | VNum (x : number)
  | VStr (s : string)
  | VArr (items : list value)
  | VObj (fields : list (string * value)).

Definition str_truthy (s : string) : bool :=
  match s with EmptyString => false | _ => true end.

(** ToBoolean: what [if (v)], [!v], [a || b] and [a && b] test. *)
Definition truthy (v : value) : bool :=
  match v with
  | VUndefined | VNull => false
  | VBool b => b
  | VNum x => negb (isNaN x || is_zero x)
  | VStr s => str_truthy s
  | VArr _ | VObj _ => true
  end.

(** [a || b] *)
Definition or_else (a b : value) : value := if truthy a then a else b.

Fixpoint assoc (k : string) (fields : list (string * value)) : option value :=
  match fields with
  | [] => None
  | (k', v) :: rest => if String.eqb k k' then Some v else assoc k rest
  end.

(** The fields of an object without the field [k]. *)
Fixpoint remove_field (k : string) (fields : list (string * value)) : list (string * value) :=
  match fields with
  | [] => []
  | (k', v) :: rest =>
      if String.eqb k k' then remove_field k rest else (k', v) :: remove_field k rest
  end.

(** [v.k], for the property names the screens read ([bpm], [detail],
    [message], [reply], [carbs], ...), none of which is a built-in property of
    a string, a number or an array.  [None] is the TypeError of reading a
    property of [null] or [undefined]. *)
Definition get (v : value) (k : string) : option value :=
  match v with
  | VUndefined | VNull => None
  | VObj fields => Some (default VUndefined (assoc k fields))
  | _ => Some VUndefined
  end.

(** The message of that TypeError; the text is the engine's (Hermes). *)
Definition type_error_message (v : value) (k : string) : string :=
  "Cannot read property '" +:+ k +:+ "' of " +:+
  (match v with VNull => "null" | _ => "undefined" end).

(** ToString: [String(v)], a template literal, [new Error(v).message]. *)
Fixpoint to_string (v : value) : string :=
  match v with
  | VUndefined => "undefined"
  | VNull => "null"
  | VBool true => "true"
  | VBool false => "false"
  | VNum x => toString x
  | VStr s => s
  | VArr items =>
      (fix join (l : list value) : string :=
         match l with
         | [] => ""
         | x :: r =>
             (match x with VUndefined | VNull => "" | _ => to_string x end) +:+
             (match r with [] => "" | _ => "," +:+ join r end)
         end) items
  | VObj _ => "[object Object]"
  end.

(** Whether ToString of a value returns.  On what [JSON.parse] gives it
    throws a TypeError exactly for an object with an own field [toString]
    (the field is no function, and then neither it nor [valueOf] gives a
    primitive) and for an array that holds such a value; on those
    [to_string] is not the text of anything. *)
Fixpoint stringable (v : value) : bool :=
  match v with
  | VArr items =>
      (fix all (l : list value) : bool :=
         match l with
         | [] => true
         | x :: r => stringable x && all r
         end) items
  | VObj fields =>
      match assoc "toString" fields with
      | Some _ => false
      | None => true
      end
  | _ => true
  end.

(** The message of that TypeError; the text is the engine's (Hermes). *)
Definition to_primitive_error : string := "Cannot determine default value of object".

(** The [message] of [new Error(v)]: none for [undefined], else the text of
    [v]; when ToString throws, the TypeError is thrown in place of the
    error, and the message is its message. *)
Definition error_message (v : value) : string :=
  match v with
  | VUndefined => ""
  | _ => if stringable v then to_string v else to_primitive_error
  end.

(** A value as a child of a [Text] element: numbers and strings are shown,
    booleans, [null] and [undefined] are skipped, arrays are shown item by
    item, and an object makes the render throw ([None]). *)
Fixpoint render_child (v : value) : option string :=
  match v with
  | VUndefined | VNull | VBool _ => Some ""
  | VNum x => Some (toString x)
  | VStr s => Some s
  | VArr items =>
      (fix each (l : list value) : option string :=
         match l with
         | [] => Some ""
         | x :: r =>
             match render_child x, each r with
             | Some a, Some b => Some (a +:+ b)
             | _, _ => None
             end
         end) items
  | VObj _ => None
  end.

(** A text is kept as the bytes of its UTF-8 form (a lone surrogate as the
    three bytes of its code point), while JavaScript counts in UTF-16 units.
    [lead c] is, for the first byte of a character, the number of its bytes
    and of its units; a byte that starts no character counts as one of
    each. *)
Definition lead (c : ascii) : nat * nat :=
  let n := N_of_ascii c in
  if (n <? 192)%N then (1, 1)%nat
  else if (n <? 224)%N then (2, 1)%nat
  else if (n <? 240)%N then (3, 1)%nat
  else (4, 2)%nat.

(** The units of a text of which the first [skip] bytes belong to a
    character already counted. *)
Fixpoint units_from (skip : nat) (s : string) : nat :=
  match s with
  | EmptyString => O
  | String c s' =>
      match skip with
      | S k => units_from k s'
      | O => (snd (lead c) + units_from (fst (lead c) - 1) s')%nat
      end
  end.

(** [s.length] *)
Definition units (s : string) : nat := units_from 0 s.

(** The first unit of a character of four bytes, [b0] and the three at the
    front of [rest]: the high surrogate, as the three bytes of its code
    point. *)
Definition high_surrogate (b0 : ascii) (rest : string) : string :=
  match rest with
  | String b1 (String b2 (String b3 _)) =>
      let n (c : ascii) := Z.of_N (N_of_ascii c) in
      let cp := (n b0 mod 8) * 262144 + (n b1 mod 64) * 4096 + (n b2 mod 64) * 64
                + n b3 mod 64 in
      let hi := 55296 + (cp - 65536) / 1024 in
      let byte (z : Z) := ascii_of_N (Z.to_N z) in
      String (byte 237) (String (byte (128 + (hi / 64) mod 64))
        (String (byte (128 + hi mod 64)) EmptyString))
  | _ => EmptyString
  end.

(** The first [n] units of a text of which the first [skip] bytes belong to
    a character already taken. *)
Fixpoint take_units_from (n skip : nat) (s : string) : string :=
  match s with
  | EmptyString => EmptyString
  | String c s' =>
      match skip with
      | S k => String c (take_units_from n k s')
      | O =>
          if (snd (lead c) <=? n)%nat
          then String c (take_units_from (n - snd (lead c)) (fst (lead c) - 1) s')
          else match n with
               | O => EmptyString
               | S _ => high_surrogate c s'
               end
      end
  end.

(** [s.substring(0, n)] *)
Definition take_units (n : nat) (s : string) : string := take_units_from n 0 s.

(** [hay.includes(needle)] *)
Fixpoint includes (needle hay : string) : bool :=
  String.prefix needle hay ||
  match hay with
  | EmptyString => false
  | String _ hay' => includes needle hay'
  end.

Definition num (z : Z) : value := VNum (of_Z z).

End JSValue.

(** ** What a screen asks of its collaborators *)

(** One multipart upload, as the code states it.  [req_mime] and [req_name]
    are the type and file name given for the part, [req_abort_after] the
    delay in milliseconds after which the screen itself aborts the call;
    [None] where the code gives none. *)
Record request := {
  req_url : string;
  req_method : string;
  req_field : string;
  req_file : string;
  req_name : option string;
  req_mime : option string;
  req_abort_after : option Z;
}.

(** The options of one [recordAsync] call. *)
Record record_options := {
  opt_maxDuration : option Z;
  opt_mute : bool;
  opt_quality : string;
}.

Inductive camera_cmd :=
  | RecordAsync (o : record_options)
  | StopRecording.

(** What an awaited promise settles with: a value, or an error of which the
    handlers read the [message] ([None] when it has none). *)
Inductive settled (A : Type) :=
  | Resolved (a : A)
  | Rejected (message : option string).
Arguments Resolved {A} a.
Arguments Rejected {A} message.

(** The key under which the history of heart rates is kept in AsyncStorage. *)
Definition HISTORY_KEY : string := "heartRateHistory".

(** ** The pulse screen that uploads through expo-file-system
    ([src/unnamed/part_004]) *)
Module PulseScanUpload.
Import JSNumber JSValue.

Definition API_URL : string := "https://hrmppgbackend.onrender.com/analyze_ppg_video".

(** The state cells of the component.  [bpm] is [null] or the [bpm] of a
    response, [error] is [null] ([None]) or a message. *)
Record state := {
  isRecording : bool;
  isProcessing : bool;
  bpm : value;
  error : option string;
  uploadProgress : string;
  showCamera : bool;
}.

(** The state at mount. *)
Definition initial : state :=
  {| isRecording := false; isProcessing := false; bpm := VNull; error := None;
     uploadProgress := ""; showCamera := true |}.

Definition setIsRecording (b : bool) (s : state) : state :=
  {| isRecording := b; isProcessing := isProcessing s; bpm := bpm s;
     error := error s; uploadProgress := uploadProgress s; showCamera := showCamera s |}.
Definition setIsProcessing (b : bool) (s : state) : state :=
  {| isRecording := isRecording s; isProcessing := b; bpm := bpm s;
     error := error s; uploadProgress := uploadProgress s; showCamera := showCamera s |}.
Definition setBpm (v : value) (s : state) : state :=
  {| isRecording := isRecording s; isProcessing := isProcessing s; bpm := v;
     error := error s; uploadProgress := uploadProgress s; showCamera := showCamera s |}.
Definition setError (e : option string) (s : state) : state :=
  {| isRecording := isRecording s; isProcessing := isProcessing s; bpm := bpm s;
     error := e; uploadProgress := uploadProgress s; showCamera := showCamera s |}.
Definition setUploadProgress (p : string) (s : state) : state :=
  {| isRecording := isRecording s; isProcessing := isProcessing s; bpm := bpm s;
     error := error s; uploadProgress := p; showCamera := showCamera s |}.
Definition setShowCamera (b : bool) (s : state) : state :=
  {| isRecording := isRecording s; isProcessing := isProcessing s; bpm := bpm s;
     error := error s; uploadProgress := uploadProgress s; showCamera := b |}.

(** Where a call of [startMeasurement] is suspended: at [recordAsync], or
    inside [uploadVideoAndGetBpm] at [getInfoAsync] or at [uploadAsync]. *)
Inductive task :=
  | AwaitRecord
  | AwaitFileInfo (uri : string)
  | AwaitUpload (uri : string).

(** The screen and its surroundings: the state cells, the suspended calls,
    and, in the order they were made, the alerts shown, the uploads started
    and the commands given to the camera; [storage] is the device's
    AsyncStorage, key to text. *)
Record world := {
  ui : state;
  pending : list task;
  alerts : list (string * string);
  uploads : list request;
  camera : list camera_cmd;
  storage : gmap string string;
}.

Definition mount (st : gmap string string) : world :=
  {| ui := initial; pending := []; alerts := []; uploads := []; camera := [];
     storage := st |}.

Definition with_ui (f : state -> state) (w : world) : world :=
  {| ui := f (ui w); pending := pending w; alerts := alerts w;
     uploads := uploads w; camera := camera w; storage := storage w |}.
Definition with_pending (p : list task) (w : world) : world :=
  {| ui := ui w; pending := p; alerts := alerts w;
     uploads := uploads w; camera := camera w; storage := storage w |}.
Definition alert (title msg : string) (w : world) : world :=
  {| ui := ui w; pending := pending w; alerts := alerts w ++ [(title, msg)];
     uploads := uploads w; camera := camera w; storage := storage w |}.
Definition send (r : request) (w : world) : world :=
  {| ui := ui w; pending := pending w; alerts := alerts w;
     uploads := uploads w ++ [r]; camera := camera w; storage := storage w |}.
Definition command (c : camera_cmd) (w : world) : world :=
  {| ui := ui w; pending := pending w; alerts := alerts w;
     uploads := uploads w; camera := camera w ++ [c]; storage := storage w |}.

(** [cameraRef.current] is set while the [CameraView] is mounted, that is
    while [showCamera] holds (the handlers can only run in the render branch
    taken once the permission is granted). *)
Definition cameraRef (s : state) : bool := showCamera s.

Record file_info := { exists_ : bool; size : Z }.

(** The result of [uploadAsync]: status, body, and what [JSON.parse] makes
    of the body ([None] when it throws). *)
Record upload_result := { status : Z; body : string; parsed : option value }.

(** The call [FileSystem.uploadAsync(API_URL, uri, {...})]. *)
Definition upload_request (uri : string) : request :=
  {| req_url := API_URL; req_method := "POST"; req_field := "file";
     req_file := uri; req_name := None; req_mime := None;
     req_abort_after := None |}.

(** [fileInfo.size / 1024 / 1024] *)
Definition fileSizeMB (i : file_info) : number :=
  div (div (of_Z (size i)) (of_Z 1024)) (of_Z 1024).

(** The [catch] of [uploadVideoAndGetBpm]. *)
Definition upload_catch (message : option string) (w : world) : world :=
  let msg := match message with
             | Some m => if str_truthy m then m else "Something went wrong"
             | None => "Something went wrong"
             end in
  alert "Error" msg
    (with_ui (fun s => setIsProcessing false (setUploadProgress "" (setError (Some msg) s))) w).

(** [uploadVideoAndGetBpm], up to [await FileSystem.getInfoAsync(uri)]. *)
Definition upload_begin (w : world) : world :=
  with_ui (fun s => setBpm VNull (setError None s)) w.

(** [uploadVideoAndGetBpm], from the file information to
    [await FileSystem.uploadAsync]; [true] when the upload was started. *)
Definition upload_on_info (uri : string) (r : settled file_info) (w : world) : world * bool :=
  match r with
  | Rejected m => (upload_catch m w, false)
  | Resolved i =>
      if negb (exists_ i) then (upload_catch (Some "Video file not found") w, false)
      else
        let mb := fileSizeMB i in
        let text :=
          if gt mb (of_Z 50)
          then "Uploading large file (" +:+ toFixed 0 mb +:+ "MB)... This may take a while"
          else "Uploading video..." in
        (send (upload_request uri) (with_ui (setUploadProgress text) w), true)
  end.

(** The [uploadProgressCallback]. *)
Definition upload_progress (sent expected : Z) (w : world) : world :=
  let percent := toFixed 0 (mul (div (of_Z sent) (of_Z expected)) (of_Z 100)) in
  with_ui (setUploadProgress ("Uploading... " +:+ percent +:+ "%")) w.

(** [data.detail || data.message || `Server error: ${status}`], then the
    message of what [throw new Error(msg)] throws. *)
Definition server_error_message (data : value) (st : Z) : option string :=
  match get data "detail", get data "message" with
  | Some d, Some m =>
      Some (error_message
              (or_else (or_else d m) (VStr ("Server error: " +:+ toString (of_Z st)))))
  | _, _ => None
  end.

(** [uploadVideoAndGetBpm], from the result of the upload to its end. *)
Definition upload_on_result (r : settled upload_result) (w : world) : world :=
  match r with
  | Rejected m => upload_catch m w
  | Resolved res =>
      let w := with_ui (setUploadProgress "Analyzing heart rate...") w in
      match parsed res with
      | None =>
          upload_catch
            (Some ("Server returned invalid response: " +:+ take_units 100 (body res))) w
      | Some data =>
          if negb (status res =? 200) then
            match server_error_message data (status res) with
            | Some msg => upload_catch (Some msg) w
            | None => upload_catch (Some (type_error_message data "detail")) w
            end
          else
            match get data "bpm" with
            | None => upload_catch (Some (type_error_message data "bpm")) w
            | Some b =>
                if truthy b then
                  let w := with_ui (fun s => setIsProcessing false
                             (setUploadProgress "" (setBpm b s))) w in
                  if stringable b
                  then alert "Success!" ("Your heart rate is " +:+ to_string b +:+ " BPM") w
                  else upload_catch (Some to_primitive_error) w
                else upload_catch (Some "No BPM data in response") w
            end
      end
  end.

(** The [catch] and the [finally] of [startMeasurement]. *)
Definition record_catch (message : option string) (w : world) : world :=
  match message with
  | Some m =>
      if str_truthy m && negb (String.eqb m "Aborted")
         && negb (includes "stopRecording" m)
         && negb (includes "Recording already stopped" m)
      then alert "Error" m
             (with_ui (fun s => setShowCamera true (setIsProcessing false (setError (Some m) s))) w)
      else w
  | None => w
  end.

Definition record_finally (w : world) : world := with_ui (setIsRecording false) w.

Definition record_options_ : record_options :=
  {| opt_maxDuration := None; opt_mute := true; opt_quality := "480p" |}.

(** [startMeasurement] up to [await cameraRef.current.recordAsync], as made
    by a render in which [isRecording] was [recording_then]: the ref is read
    when the handler runs, [isRecording] is the constant of that render. *)
Definition startMeasurement_made (recording_then : bool) (w : world) : world :=
  if negb (cameraRef (ui w)) then alert "Error" "Camera not ready yet" w
  else if recording_then then w
  else
    let w := with_ui (fun s => setShowCamera true (setUploadProgress ""
               (setBpm VNull (setError None (setIsRecording true s))))) w in
    with_pending (pending w ++ [AwaitRecord]) (command (RecordAsync record_options_) w).

(** The [startMeasurement] of the latest render, which is the one that the
    Start button of the screen holds. *)
Definition startMeasurement (w : world) : world :=
  startMeasurement_made (isRecording (ui w)) w.

(** [stopMeasurement], of the latest render as well. *)
Definition stopMeasurement (w : world) : world :=
  if negb (cameraRef (ui w)) then w
  else if negb (isRecording (ui w)) then w
  else command StopRecording w.

Definition resetForNewMeasurement (w : world) : world :=
  with_ui (fun s => setShowCamera true (setIsProcessing false
             (setUploadProgress "" (setError None (setBpm VNull s))))) w.

(** [startMeasurement], from the settling of [recordAsync] to the first
    [await] inside [uploadVideoAndGetBpm], or to its end.  The video is given
    by its [uri]; [None] stands for no video or a video without one. *)
Definition record_settled (r : settled (option string)) (w : world) : world * option task :=
  match r with
  | Rejected m => (record_finally (record_catch m w), None)
  | Resolved v =>
      match v with
      | Some uri =>
          if str_truthy uri then
            let w := with_ui (fun s => setUploadProgress "Processing video..."
                       (setIsProcessing true (setShowCamera false s))) w in
            (upload_begin w, Some (AwaitFileInfo uri))
          else (record_finally (record_catch (Some "No video captured") w), None)
      | None => (record_finally (record_catch (Some "No video captured") w), None)
      end
  end.

(** *** What is on screen *)

Definition is_null (v : value) : bool :=
  match v with VNull => true | _ => false end.

Definition opt_truthy (e : option string) : bool :=
  match e with Some m => str_truthy m | None => false end.

(** The card in the lower part of the screen: the recording indicator with
    the Stop button, the progress text, the result with the Measure Again
    button, or the Start button. *)
Inductive card :=
  | CardRecording
  | CardProcessing (text : string) (wait_hint : bool)
  | CardResult (text : option string)
  | CardStart.

(** [torch] is the [enableTorch] of the mounted [CameraView]; an unmounted
    camera has no torch on.  [error_text] comes with the Try Again button. *)
Record view := {
  camera_mounted : bool;
  torch : bool;
  card_ : card;
  error_text : option string;
}.

Definition render (s : state) : view :=
  {| camera_mounted := showCamera s;
     torch := showCamera s && isRecording s;
     card_ :=
       if isRecording s then CardRecording
       else if isProcessing s
       then CardProcessing (uploadProgress s) (includes "Uploading" (uploadProgress s))
       else if negb (is_null (bpm s))
       then CardResult (option_map (fun t => t +:+ " BPM") (render_child (bpm s)))
       else CardStart;
     error_text :=
       if opt_truthy (error s) && negb (isRecording s) && negb (isProcessing s)
       then option_map (fun m => "Error: " +:+ m) (error s)
       else None |}.

(** Measure Again or Try Again is on screen. *)
Definition reset_offered (s : state) : bool :=
  match card_ (render s), error_text (render s) with
  | CardResult _, _ => true
  | _, Some _ => true
  | _, None => false
  end.

(** *** The screen as a transition system *)

(** The buttons, and the settling of what the [i]-th suspended call waits
    for.  A button is pressed only while it is on screen, and its handler is
    the one of the latest render. *)
Inductive event :=
  | PressStart
  | PressStop
  | PressReset
  | RecordSettles (i : nat) (r : settled (option string))
  | FileInfoSettles (i : nat) (r : settled file_info)
  | UploadProgresses (i : nat) (sent expected : Z)
  | UploadSettles (i : nat) (r : settled upload_result).

(** The [i]-th suspended call goes on to wait for [t], or ends. *)
Definition continue_ (i : nat) (t : option task) (l : list task) : list task :=
  match t with
  | Some t => <[i := t]> l
  | None => delete i l
  end.

(** [None]: the event cannot happen in this state. *)
Definition step (w : world) (e : event) : option world :=
  match e with
  | PressStart =>
      match card_ (render (ui w)) with
      | CardStart => Some (startMeasurement w)
      | _ => None
      end
  | PressStop =>
      match card_ (render (ui w)) with
      | CardRecording => Some (stopMeasurement w)
      | _ => None
      end
  | PressReset =>
      if reset_offered (ui w) then Some (resetForNewMeasurement w) else None
  | RecordSettles i r =>
      match pending w !! i with
      | Some AwaitRecord =>
          let '(w', t) := record_settled r w in
          Some (with_pending (continue_ i t (pending w)) w')
      | _ => None
      end
  | FileInfoSettles i r =>
      match pending w !! i with
      | Some (AwaitFileInfo uri) =>
          let '(w', started) := upload_on_info uri r w in
          if started
          then Some (with_pending (continue_ i (Some (AwaitUpload uri)) (pending w)) w')
          else Some (with_pending (continue_ i None (pending w)) (record_finally w'))
      | _ => None
      end
  | UploadProgresses i sent expected =>
      match pending w !! i with
      | Some (AwaitUpload _) => Some (upload_progress sent expected w)
      | _ => None
      end
  | UploadSettles i r =>
      match pending w !! i with
      | Some (AwaitUpload _) =>
          Some (with_pending (continue_ i None (pending w))
                  (record_finally (upload_on_result r w)))
      | _ => None
      end
  end.

Fixpoint run (w : world) (es : list event) : option world :=
  match es with
  | [] => Some w
  | e :: es' =>
      match step w e with
      | Some w' => run w' es'
      | None => None
      end
  end.

Inductive reachable (st : gmap string string) : world -> Prop :=
  | reach_mount : reachable st (mount st)
  | reach_step w e w' : reachable st w -> step w e = Some w' -> reachable st w'.

(** *** The session of the specification, read off the state *)

Definition is_record (t : task) : bool :=
  match t with AwaitRecord => true | _ => false end.
Definition is_upload (t : task) : bool :=
  match t with AwaitUpload _ => true | _ => false end.

(** A capture session is in [Recording] while a [recordAsync] is awaited. *)
Definition recording (w : world) : bool := existsb is_record (pending w).

Definition in_flight (w : world) : nat := length (filter (fun t => is_upload t = true) (pending w)).

(** A state in which nothing is awaited. *)
Definition terminal (w : world) : Prop := pending w = [].

(** What holds between the state cells and the suspended call, in every
    reachable state: nothing is awaited and nothing is marked in progress; or
    the recording is awaited, with the camera shown; or the file information
    or the upload is awaited, with the camera hidden and no result yet. *)
Definition invariant (w : world) : Prop :=
  match pending w with
  | [] => isRecording (ui w) = false /\ isProcessing (ui w) = false
  | [AwaitRecord] =>
      isRecording (ui w) = true /\ showCamera (ui w) = true /\ isProcessing (ui w) = false
  | [AwaitFileInfo _] | [AwaitUpload _] =>
      isRecording (ui w) = true /\ showCamera (ui w) = false /\ bpm (ui w) = VNull
  | _ => False
  end.

(** While a call is suspended, no result and no error are held:
    [startMeasurement] and [uploadVideoAndGetBpm] clear both before they
    await anything. *)
Definition clean_while_awaiting (w : world) : Prop :=
  match pending w with
  | [] => True
  | _ => error (ui w) = None /\ bpm (ui w) = VNull
  end.

End PulseScanUpload.

(** ** The pulse screen that uploads through fetch
    ([src/screens/PulseScanScreen.js]) *)
Module PulseScanScreen.
Import JSNumber JSValue.

Definition API_URL : string := "https://hrmppgbackend.onrender.com/analyze_ppg_video".
Definition MEASUREMENT_DURATION_SECONDS : Z := 8.

(** [bpm] is [null], or whatever [data.bpm] was: [undefined] when the
    response has no such field. *)
Record state := {
  isRecording : bool;
  bpm : value;
  error : option string;
}.

Definition initial : state :=
  {| isRecording := false; bpm := VNull; error := None |}.

Definition setIsRecording (b : bool) (s : state) : state :=
  {| isRecording := b; bpm := bpm s; error := error s |}.
Definition setBpm (v : value) (s : state) : state :=
  {| isRecording := isRecording s; bpm := v; error := error s |}.
Definition setError (e : option string) (s : state) : state :=
  {| isRecording := isRecording s; bpm := bpm s; error := e |}.

(** Where a call of [startMeasurement] is suspended: at [recordAsync], or
    inside [uploadVideoAndGetBpm] at [fetch] or at [res.json()] (of a
    response whose [ok] is kept). *)
Inductive task :=
  | AwaitRecord
  | AwaitFetch
  | AwaitJson (ok : bool).

Record world := {
  ui : state;
  pending : list task;
  alerts : list (string * string);
  uploads : list request;
  camera : list camera_cmd;
  storage : gmap string string;
}.

Definition mount (st : gmap string string) : world :=
  {| ui := initial; pending := []; alerts := []; uploads := []; camera := [];
     storage := st |}.

Definition with_ui (f : state -> state) (w : world) : world :=
  {| ui := f (ui w); pending := pending w; alerts := alerts w;
     uploads := uploads w; camera := camera w; storage := storage w |}.
Definition with_pending (p : list task) (w : world) : world :=
  {| ui := ui w; pending := p; alerts := alerts w;
     uploads := uploads w; camera := camera w; storage := storage w |}.
Definition alert (title msg : string) (w : world) : world :=
  {| ui := ui w; pending := pending w; alerts := alerts w ++ [(title, msg)];
     uploads := uploads w; camera := camera w; storage := storage w |}.
Definition send (r : request) (w : world) : world :=
  {| ui := ui w; pending := pending w; alerts := alerts w;
     uploads := uploads w ++ [r]; camera := camera w; storage := storage w |}.
Definition command (c : camera_cmd) (w : world) : world :=
  {| ui := ui w; pending := pending w; alerts := alerts w;
     uploads := uploads w; camera := camera w ++ [c]; storage := storage w |}.

(** [uri.split("/").pop()]: what follows the last slash. *)
Fixpoint last_segment (s acc : string) : string :=
  match s with
  | EmptyString => acc
  | String c s' =>
      if Ascii.eqb c "/"%char then last_segment s' EmptyString
      else last_segment s' (acc +:+ String c EmptyString)
  end.

Definition fileName (uri : string) : string :=
  let n := last_segment uri EmptyString in
  if str_truthy n then n else "ppg_video.mp4".

(** The [fetch] of [uploadVideoAndGetBpm]: one part, appended to the form
    under the name [file]. *)
Definition upload_request (uri : string) : request :=
  {| req_url := API_URL; req_method := "POST"; req_field := "file";
     req_file := uri; req_name := Some (fileName uri); req_mime := Some "video/mp4";
     req_abort_after := None |}.

(** The [catch] of [uploadVideoAndGetBpm]. *)
Definition upload_catch (message : option string) (w : world) : world :=
  let msg := match message with
             | Some m => if str_truthy m then m else "Something went wrong"
             | None => "Something went wrong"
             end in
  alert "Error" msg (with_ui (setError (Some msg)) w).

(** [uploadVideoAndGetBpm], up to [await fetch]. *)
Definition upload_begin (uri : string) (w : world) : world :=
  send (upload_request uri) (with_ui (fun s => setBpm VNull (setError None s)) w).

(** [uploadVideoAndGetBpm], from the parsed body to its end. *)
Definition upload_on_json (ok : bool) (r : settled value) (w : world) : world :=
  match r with
  | Rejected m => upload_catch m w
  | Resolved data =>
      if negb ok then
        match get data "detail" with
        | Some d =>
            upload_catch
              (Some (error_message (or_else d (VStr "Server error while analyzing video")))) w
        | None => upload_catch (Some (type_error_message data "detail")) w
        end
      else
        match get data "bpm" with
        | Some b => with_ui (setBpm b) w
        | None => upload_catch (Some (type_error_message data "bpm")) w
        end
  end.

(** The [catch] and the [finally] of [startMeasurement]. *)
Definition record_catch (message : option string) (w : world) : world :=
  match message with
  | Some m =>
      if includes "Another recording in progress" m
      then alert "Camera Busy" "Please try again." w
      else if str_truthy m && negb (String.eqb m "Aborted")
      then alert "Error" m w
      else w
  | None => w
  end.

Definition record_finally (w : world) : world := with_ui (setIsRecording false) w.

Definition record_options_ : record_options :=
  {| opt_maxDuration := Some MEASUREMENT_DURATION_SECONDS; opt_mute := true;
     opt_quality := "480p" |}.

(** The [CameraView] is mounted in every render of the screen proper, so
    [cameraRef.current] is set whenever a handler runs. *)
Definition cameraRef (s : state) : bool := true.

(** [startMeasurement], up to [await cameraRef.current.recordAsync]. *)
Definition startMeasurement (w : world) : world :=
  if negb (cameraRef (ui w)) then alert "Error" "Camera not ready yet" w
  else
    let w := with_ui (fun s => setBpm VNull (setError None (setIsRecording true s))) w in
    with_pending (pending w ++ [AwaitRecord]) (command (RecordAsync record_options_) w).

(** [startMeasurement], from the settling of [recordAsync] on. *)
Definition record_settled (r : settled (option string)) (w : world) : world * option task :=
  match r with
  | Rejected m => (record_finally (record_catch m w), None)
  | Resolved (Some uri) =>
      if str_truthy uri then (upload_begin uri w, Some AwaitFetch)
      else (record_finally (record_catch (Some "No video captured") w), None)
  | Resolved None => (record_finally (record_catch (Some "No video captured") w), None)
  end.

(** *** What is on screen *)

Definition is_null (v : value) : bool :=
  match v with VNull => true | _ => false end.

Definition opt_truthy (e : option string) : bool :=
  match e with Some m => str_truthy m | None => false end.

(** The camera preview is always there, its [enableTorch] is the constant
    [true]; below it the Start button or the measuring indicator, then the
    result and the error when there are any. *)
Record view := {
  torch : bool;
  start_button : bool;
  result_text : option (option string);
  error_text : option string;
}.

Definition render (s : state) : view :=
  {| torch := true;
     start_button := negb (isRecording s);
     result_text :=
       if negb (is_null (bpm s)) && negb (isRecording s)
       then Some (option_map (fun t => t +:+ " BPM") (render_child (bpm s)))
       else None;
     error_text :=
       if opt_truthy (error s) && negb (isRecording s)
       then option_map (fun m => "Error: " +:+ m) (error s)
       else None |}.

(** *** The screen as a transition system *)

Inductive event :=
  | PressStart
  | RecordSettles (i : nat) (r : settled (option string))
  | FetchSettles (i : nat) (r : settled bool)
  | JsonSettles (i : nat) (r : settled value).

Definition continue_ (i : nat) (t : option task) (l : list task) : list task :=
  match t with
  | Some t => <[i := t]> l
  | None => delete i l
  end.

(** The Start button is the only way to [startMeasurement], which has no
    guard of its own against a recording in progress. *)
Definition step (w : world) (e : event) : option world :=
  match e with
  | PressStart =>
      if start_button (render (ui w)) then Some (startMeasurement w) else None
  | RecordSettles i r =>
      match pending w !! i with
      | Some AwaitRecord =>
          let '(w', t) := record_settled r w in
          Some (with_pending (continue_ i t (pending w)) w')
      | _ => None
      end
  | FetchSettles i r =>
      match pending w !! i with
      | Some AwaitFetch =>
          match r with
          | Resolved ok => Some (with_pending (continue_ i (Some (AwaitJson ok)) (pending w)) w)
          | Rejected m =>
              Some (with_pending (continue_ i None (pending w))
                      (record_finally (upload_catch m w)))
          end
      | _ => None
      end
  | JsonSettles i r =>
      match pending w !! i with
      | Some (AwaitJson ok) =>
          Some (with_pending (continue_ i None (pending w))
                  (record_finally (upload_on_json ok r w)))
      | _ => None
      end
  end.

Fixpoint run (w : world) (es : list event) : option world :=
  match es with
  | [] => Some w
  | e :: es' =>
      match step w e with
      | Some w' => run w' es'
      | None => None
      end
  end.

Definition is_record (t : task) : bool :=
  match t with AwaitRecord => true | _ => false end.

Definition recording (w : world) : bool := existsb is_record (pending w).

Inductive reachable (st : gmap string string) : world -> Prop :=
  | reach_mount : reachable st (mount st)
  | reach_step w e w' : reachable st w -> step w e = Some w' -> reachable st w'.

(** What holds in every reachable state: nothing is awaited and nothing is
    marked as recording; or one call is suspended and [isRecording] holds,
    with no error and no result held. *)
Definition invariant (w : world) : Prop :=
  match pending w with
  | [] => isRecording (ui w) = false
  | [_] => isRecording (ui w) = true /\ error (ui w) = None /\ bpm (ui w) = VNull
  | _ => False
  end.

End PulseScanScreen.

(** ** The pulse screen that samples the camera itself
    ([src/unnamed/part_005], component [PulseScreen]) *)
Module PulseScreen.
Import JSNumber.

(** The state cells, the two refs, and around them the torch mode last set
    on the camera, whether the sampling interval is armed, and what is kept
    under [HISTORY_KEY] ([None]: nothing yet).  The history maps a date to
    the rates measured on it, oldest first.  [captured] is the history
    object of the render that made the handlers of the scan started last:
    the interval callback of that scan calls the [saveBpm] of that render,
    whatever the history has become since. *)
Record world := {
  scanning : bool;
  bpm : option number;
  history : gmap string (list number);
  redValues : list number;
  torch : bool;
  interval : bool;
  stored : option (gmap string (list number));
  captured : gmap string (list number);
}.

Definition mount (st : option (gmap string (list number))) : world :=
  {| scanning := false; bpm := None; history := ∅; redValues := [];
     torch := false; interval := false; stored := st; captured := ∅ |}.


(** [saveBpm] as the interval callback calls it.  [history] is the object
    held by the render that made the handler, [captured]; the copy
    [{ ...history }] shares its lists with that object.  For a date that
    the object has, the push lands in the shared list, so it is seen
    through [captured] as well; for a new date the copy gets a list of its
    own and [captured] stays without the date (a list is always truthy).
    The copy becomes the state and is written to storage; [write_ok] tells
    whether [AsyncStorage.setItem] goes through. *)
Definition saveBpm (today : string) (newBpm : number) (write_ok : bool) (w : world) : world :=
  let updatedHistory :=
    <[today := default [] (captured w !! today) ++ [newBpm]]> (captured w) in
  {| scanning := scanning w; bpm := bpm w; history := updatedHistory;
     redValues := redValues w; torch := torch w; interval := interval w;
     stored := if write_ok then Some updatedHistory else stored w;
     captured := match captured w !! today with
                 | Some _ => updatedHistory
                 | None => captured w
                 end |}.

(** The latest entry of a date, as [getGraphData] reads it. *)
Definition latest (h : gmap string (list number)) (day : string) : option number :=
  match h !! day with
  | Some l => last l
  | None => None
  end.

Definition floor (x : number) : number :=
  match x with
  | Fin q => Fin (inject_Z (Qfloor q))
  | _ => x
  end.

(** The loop of [calculateBpm]: [prev] and [cur] are [values[i-1]] and
    [values[i]]. *)
Fixpoint count_peaks (prev cur : number) (rest : list number) : Z :=
  match rest with
  | [] => 0
  | next :: rest' =>
      (if gt cur prev && gt cur next && gt cur (of_Z 200) then 1 else 0)
      + count_peaks cur next rest'
  end.

Definition calculateBpm (values : list number) : number :=
  let peaks :=
    match values with
    | prev :: cur :: rest => count_peaks prev cur rest
    | _ => 0
    end in
  let durationInSec := of_Z 20 in
  let b := floor (mul (div (of_Z peaks) durationInSec) (of_Z 60)) in
  if gt (of_Z 30) b || gt b (of_Z 180) then of_Z 70 else b.

(** [startPPGScan] as made by a render whose history object was [h]; the
    [Camera] element is in every render, so [cameraRef.current] is set. *)
Definition startPPGScan_made (h : gmap string (list number)) (w : world) : world :=
  {| scanning := true; bpm := bpm w; history := history w; redValues := [];
     torch := true; interval := true; stored := stored w; captured := h |}.

(** The [startPPGScan] of the latest render. *)
Definition startPPGScan (w : world) : world := startPPGScan_made (history w) w.

(** One run of the callback of the interval armed last, the picture taken:
    [elapsed] is [Date.now() - startTime.current], [avgRed] the sample. *)
Definition tick (elapsed : Z) (avgRed : number) (today : string) (write_ok : bool)
    (w : world) : world :=
  let values := redValues w ++ [avgRed] in
  let w1 := {| scanning := scanning w; bpm := bpm w; history := history w;
               redValues := values; torch := torch w; interval := interval w;
               stored := stored w; captured := captured w |} in
  if 20000 <? elapsed then
    let calculatedBpm := calculateBpm values in
    let w2 := {| scanning := scanning w1; bpm := Some calculatedBpm; history := history w1;
                 redValues := values; torch := false; interval := false;
                 stored := stored w1; captured := captured w1 |} in
    let w3 := saveBpm today calculatedBpm write_ok w2 in
    {| scanning := false; bpm := bpm w3; history := history w3; redValues := redValues w3;
       torch := torch w3; interval := interval w3; stored := stored w3;
       captured := captured w3 |}
  else w1.

(** The interval callback run once for each pair of the time elapsed and
    the sample taken then, in order. *)
Fixpoint ticks (samples : list (Z * number)) (today : string) (write_ok : bool)
    (w : world) : world :=
  match samples with
  | [] => w
  | (elapsed, s) :: rest => ticks rest today write_ok (tick elapsed s today write_ok w)
  end.

End PulseScreen.

(** ** The pulse screen with a timed recording
    ([src/unnamed/part_005], component [PulseScanScreen]) *)
Module PulseScanTimed.
Import JSValue.

Definition RECORD_DURATION : Z := 8.

Record state := {
  isRecording : bool;
  isUploading : bool;
  bpm : value;
  error : option string;
}.

Definition initial : state :=
  {| isRecording := false; isUploading := false; bpm := VNull; error := None |}.

Definition setBpm (v : value) (s : state) : state :=
  {| isRecording := isRecording s; isUploading := isUploading s; bpm := v; error := error s |}.
Definition setError (e : option string) (s : state) : state :=
  {| isRecording := isRecording s; isUploading := isUploading s; bpm := bpm s; error := e |}.

(** The [onPress] of Measure Again. *)
Definition measureAgain (s : state) : state := setError None (setBpm VNull s).

(** The [enableTorch] of the [CameraView], which is in every render. *)
Definition torch (s : state) : bool := isRecording s.

(** Measure Again is on screen with the result only. *)
Definition measure_again_offered (s : state) : bool :=
  negb (isRecording s) && negb (isUploading s)
  && negb (match bpm s with VNull => true | _ => false end).

Definition API_URL : string := "https://hrmppgbackend.onrender.com/analyze_ppg_video".

Definition setIsRecording (b : bool) (s : state) : state :=
  {| isRecording := b; isUploading := isUploading s; bpm := bpm s; error := error s |}.
Definition setIsUploading (b : bool) (s : state) : state :=
  {| isRecording := isRecording s; isUploading := b; bpm := bpm s; error := error s |}.

(** What [useCameraPermissions] and [requestPermission] answer. *)
Record permission_response := {
  p_granted : bool;
  canAskAgain : bool;
}.

(** Where a call of [handleStartScan] is suspended: at [requestPermission],
    at [recordAsync], or inside [uploadVideo] at [fetch] or at
    [response.json()] (of a response whose [ok] is kept). *)
Inductive task :=
  | AwaitPermission
  | AwaitRecord
  | AwaitFetch
  | AwaitJson (ok : bool).

(** [permission] is the hook's value, [None] while it is [null]; [asking]
    counts the [requestPermission] calls of the Grant Permission button that
    have not settled. *)
Record world := {
  ui : state;
  permission : option permission_response;
  asking : nat;
  pending : list task;
  alerts : list (string * string);
  uploads : list request;
  camera : list camera_cmd;
}.

Definition mount (p : option permission_response) : world :=
  {| ui := initial; permission := p; asking := 0; pending := []; alerts := [];
     uploads := []; camera := [] |}.

(** [permission && permission.granted] *)
Definition granted (w : world) : bool :=
  match permission w with
  | Some p => p_granted p
  | None => false
  end.

Definition with_ui (f : state -> state) (w : world) : world :=
  {| ui := f (ui w); permission := permission w; asking := asking w;
     pending := pending w; alerts := alerts w; uploads := uploads w;
     camera := camera w |}.
Definition with_pending (p : list task) (w : world) : world :=
  {| ui := ui w; permission := permission w; asking := asking w; pending := p;
     alerts := alerts w; uploads := uploads w; camera := camera w |}.
Definition with_permission (p : option permission_response) (n : nat) (w : world) : world :=
  {| ui := ui w; permission := p; asking := n; pending := pending w;
     alerts := alerts w; uploads := uploads w; camera := camera w |}.
Definition alert (title msg : string) (w : world) : world :=
  {| ui := ui w; permission := permission w; asking := asking w;
     pending := pending w; alerts := alerts w ++ [(title, msg)];
     uploads := uploads w; camera := camera w |}.

(** The [fetch] of [uploadVideo]. *)
Definition upload_request (uri : string) : request :=
  {| req_url := API_URL; req_method := "POST"; req_field := "file";
     req_file := uri; req_name := Some "ppg_clip.mp4"; req_mime := Some "video/mp4";
     req_abort_after := None |}.

(** The argument of [recordAsync]. *)
Definition scan_options : record_options :=
  {| opt_maxDuration := Some RECORD_DURATION; opt_mute := true; opt_quality := "480p" |}.

(** [e.message || fallback] *)
Definition message_or (m : option string) (fallback : string) : string :=
  match m with
  | Some t => if str_truthy t then t else fallback
  | None => fallback
  end.

(** The [catch] of [uploadVideo]. *)
Definition upload_catch (m : option string) (w : world) : world :=
  let msg := message_or m "Failed to analyze video" in
  alert "Error" msg (with_ui (fun s => setError (Some msg) (setIsUploading false s)) w).

(** The [catch] of [handleStartScan]. *)
Definition scan_catch (m : option string) (w : world) : world :=
  let msg := message_or m "Recording failed" in
  alert "Error" msg
    (with_ui (fun s => setError (Some msg) (setIsUploading false (setIsRecording false s))) w).

(** [handleStartScan] from the test of [cameraRef.current] to
    [await recordAsync].  [mounted] says whether the ref holds a camera: the
    [CameraView] is in every render of the screen proper and in no render of
    the permission views. *)
Definition start_recording (mounted : bool) (w : world) : world * option task :=
  if negb mounted
  then (alert "Camera not ready" "Please wait a moment and try again." w, None)
  else
    let w := with_ui (fun s => setIsRecording true (setBpm VNull (setError None s))) w in
    ({| ui := ui w; permission := permission w; asking := asking w;
        pending := pending w; alerts := alerts w; uploads := uploads w;
        camera := camera w ++ [RecordAsync scan_options] |},
     Some AwaitRecord).

(** [handleStartScan], up to its first [await]. *)
Definition handleStartScan (w : world) : world :=
  if negb (granted w) then with_pending (pending w ++ [AwaitPermission]) w
  else
    let '(w', t) := start_recording (granted w) w in
    match t with
    | Some t => with_pending (pending w' ++ [t]) w'
    | None => w'
    end.

(** [handleStartScan], from the answer to [requestPermission] on; the hook
    takes the answer as its new value, and the ref is still that of the
    render before it. *)
Definition permission_settled (p : permission_response) (w : world) : world * option task :=
  let mounted := granted w in
  let w := with_permission (Some p) (asking w) w in
  if negb (p_granted p)
  then (alert "Permission required" "Camera permission is needed to measure your pulse." w,
        None)
  else start_recording mounted w.

(** [handleStartScan], from the settling of [recordAsync] to the [await
    fetch] of [uploadVideo], or to its end. *)
Definition record_settled (r : settled (option string)) (w : world) : world * option task :=
  match r with
  | Rejected m => (scan_catch m w, None)
  | Resolved v =>
      let w := with_ui (setIsRecording false) w in
      match v with
      | Some uri =>
          if str_truthy uri then
            let w := with_ui (setIsUploading true) w in
            ({| ui := ui w; permission := permission w; asking := asking w;
                pending := pending w; alerts := alerts w;
                uploads := uploads w ++ [upload_request uri]; camera := camera w |},
             Some AwaitFetch)
          else (scan_catch (Some "No video captured.") w, None)
      | None => (scan_catch (Some "No video captured.") w, None)
      end
  end.

(** [uploadVideo], from the parsed body to its end. *)
Definition upload_on_json (ok : bool) (r : settled value) (w : world) : world :=
  match r with
  | Rejected m => upload_catch m w
  | Resolved data =>
      if negb ok then
        match get data "detail" with
        | Some d =>
            upload_catch
              (Some (error_message (or_else d (VStr "Unable to calculate heart rate")))) w
        | None => upload_catch (Some (type_error_message data "detail")) w
        end
      else
        match get data "bpm" with
        | Some b =>
            let w := with_ui (fun s => setIsUploading false (setBpm b s)) w in
            if stringable b
            then alert "Measurement complete"
                   ("Your heart rate is " +:+ to_string b +:+ " BPM") w
            else upload_catch (Some to_primitive_error) w
        | None => upload_catch (Some (type_error_message data "bpm")) w
        end
  end.

(** The Grant Permission button is on screen. *)
Definition grant_offered (w : world) : bool :=
  match permission w with
  | Some p => negb (p_granted p) && canAskAgain p
  | None => false
  end.

(** The Start button is on screen. *)
Definition start_offered (w : world) : bool :=
  granted w && negb (isRecording (ui w)) && negb (isUploading (ui w))
  && (match bpm (ui w) with VNull => true | _ => false end).

(** The result card with its Measure Again button is on screen. *)
Definition result_offered (w : world) : bool :=
  granted w && measure_again_offered (ui w).

(** The text of the rate in the result card, [{bpm} BPM], when the card is
    on screen: [Some None] when the rate is a value React throws on. *)
Definition result_text (w : world) : option (option string) :=
  if result_offered w
  then Some (option_map (fun t => t +:+ " BPM") (render_child (bpm (ui w))))
  else None.

(** The error line, when it is on screen. *)
Definition error_shown (w : world) : option string :=
  match error (ui w) with
  | Some m =>
      if granted w && str_truthy m && negb (isRecording (ui w)) && negb (isUploading (ui w))
      then Some m else None
  | None => None
  end.

(** The [enableTorch] that the camera gets: there is a [CameraView] in the
    screen proper only. *)
Definition torch_lit (w : world) : bool := granted w && torch (ui w).

Inductive event :=
  | PermissionLoaded (p : permission_response)
  | PressGrant
  | GrantSettles (r : settled permission_response)
  | PressStart
  | PressMeasureAgain
  | PermissionSettles (i : nat) (r : settled permission_response)
  | RecordSettles (i : nat) (r : settled (option string))
  | FetchSettles (i : nat) (r : settled bool)
  | JsonSettles (i : nat) (r : settled value).

Definition continue_ (i : nat) (t : option task) (l : list task) : list task :=
  match t with
  | Some t => <[i := t]> l
  | None => delete i l
  end.

(** The buttons are pressed only while on screen.  A rejected
    [requestPermission] is caught nowhere: the handler ends there. *)
Definition step (w : world) (e : event) : option world :=
  match e with
  | PermissionLoaded p =>
      match permission w with
      | None => Some (with_permission (Some p) (asking w) w)
      | Some _ => None
      end
  | PressGrant =>
      if grant_offered w then Some (with_permission (permission w) (S (asking w)) w)
      else None
  | GrantSettles r =>
      match asking w with
      | O => None
      | S n =>
          match r with
          | Resolved p => Some (with_permission (Some p) n w)
          | Rejected _ => Some (with_permission (permission w) n w)
          end
      end
  | PressStart => if start_offered w then Some (handleStartScan w) else None
  | PressMeasureAgain =>
      if result_offered w then Some (with_ui measureAgain w) else None
  | PermissionSettles i r =>
      match pending w !! i with
      | Some AwaitPermission =>
          match r with
          | Resolved p =>
              let '(w', t) := permission_settled p w in
              Some (with_pending (continue_ i t (pending w)) w')
          | Rejected _ => Some (with_pending (continue_ i None (pending w)) w)
          end
      | _ => None
      end
  | RecordSettles i r =>
      match pending w !! i with
      | Some AwaitRecord =>
          let '(w', t) := record_settled r w in
          Some (with_pending (continue_ i t (pending w)) w')
      | _ => None
      end
  | FetchSettles i r =>
      match pending w !! i with
      | Some AwaitFetch =>
          match r with
          | Resolved ok => Some (with_pending (continue_ i (Some (AwaitJson ok)) (pending w)) w)
          | Rejected m => Some (with_pending (continue_ i None (pending w)) (upload_catch m w))
          end
      | _ => None
      end
  | JsonSettles i r =>
      match pending w !! i with
      | Some (AwaitJson ok) =>
          Some (with_pending (continue_ i None (pending w)) (upload_on_json ok r w))
      | _ => None
      end
  end.

Fixpoint run (w : world) (es : list event) : option world :=
  match es with
  | [] => Some w
  | e :: es' =>
      match step w e with
      | Some w' => run w' es'
      | None => None
      end
  end.

Inductive reachable (p : option permission_response) : world -> Prop :=
  | reach_mount : reachable p (mount p)
  | reach_step w e w' : reachable p w -> step w e = Some w' -> reachable p w'.

Definition recording (w : world) : bool :=
  existsb (fun t => match t with AwaitRecord => true | _ => false end) (pending w).

(** The state cells, by what the one call of [handleStartScan] waits for. *)
Definition cells_follow (w : world) : Prop :=
  match pending w with
  | [] => isRecording (ui w) = false /\ isUploading (ui w) = false
  | [AwaitRecord] =>
      isRecording (ui w) = true /\ isUploading (ui w) = false
      /\ bpm (ui w) = VNull /\ error (ui w) = None
  | [AwaitFetch] | [AwaitJson _] =>
      isRecording (ui w) = false /\ isUploading (ui w) = true
      /\ bpm (ui w) = VNull /\ error (ui w) = None
  | _ => False
  end.

(** An error text in its cell is not empty and was the last alert; the
    one value that can be held beside it is one that has no text. *)
Definition error_is_alerted (w : world) : Prop :=
  match error (ui w) with
  | Some m =>
      str_truthy m = true /\ last (alerts w) = Some ("Error", m) /\
      (bpm (ui w) = VNull \/ stringable (bpm (ui w)) = false)
  | None => True
  end.

(** The alerts of [uploadVideo] and of the [catch] of [handleStartScan]. *)
Definition outcome_alert (a : string * string) : bool :=
  String.eqb (fst a) "Error" || String.eqb (fst a) "Measurement complete".

(** What holds in every reachable state. *)
Definition invariant (w : world) : Prop :=
  cells_follow w /\ error_is_alerted w /\
  Forall (fun c => c = RecordAsync scan_options) (camera w) /\
  forallb outcome_alert (alerts w) = true.

End PulseScanTimed.

(** ** The chat screen ([src/screens/AyurvedaBotScreen.js]) *)
Module AyurvedaBotScreen.
Import JSValue.

Definition API_URL : string := "https://ayurveda-bot-backend.onrender.com/chat".

Record message := { role : string; content : value }.

Record state := {
  input : string;
  messages : list message;
  loading : bool;
}.

Definition initial : state := {| input := ""; messages := []; loading := false |}.

(** The [fetch] of [sendMessage]: the messages sent, and the delay after
    which the timer armed for the call aborts it. *)
Record chat_request := {
  chat_url : string;
  chat_method : string;
  chat_messages : list message;
  chat_abort_after : option Z;
}.

(** Where a call of [sendMessage] is suspended: at [fetch], the timer with
    identifier [timer] armed for it, or at [response.json()]. *)
Inductive task :=
  | AwaitFetch (timer : nat)
  | AwaitJson.

(** [timers] holds the time at which each [setTimeout] of the screen is due,
    [None] once it has fired or was cleared; [now] is in milliseconds. *)
Record world := {
  ui : state;
  pending : list task;
  calls : list chat_request;
  timers : list (option Z);
  now : Z;
}.

Definition mount : world :=
  {| ui := initial; pending := []; calls := []; timers := []; now := 0 |}.

Definition with_ui (f : state -> state) (w : world) : world :=
  {| ui := f (ui w); pending := pending w; calls := calls w; timers := timers w; now := now w |}.
Definition with_pending (p : list task) (w : world) : world :=
  {| ui := ui w; pending := p; calls := calls w; timers := timers w; now := now w |}.
Definition with_timers (t : list (option Z)) (w : world) : world :=
  {| ui := ui w; pending := pending w; calls := calls w; timers := t; now := now w |}.

Definition setInput (i : string) (s : state) : state :=
  {| input := i; messages := messages s; loading := loading s |}.
Definition setMessages (f : list message -> list message) (s : state) : state :=
  {| input := input s; messages := f (messages s); loading := loading s |}.
Definition setLoading (b : bool) (s : state) : state :=
  {| input := input s; messages := messages s; loading := b |}.

(** One white space or line terminator of JavaScript at the front of a text
    given by its bytes (UTF-8): what is left behind it. *)
Definition skip_space (l : list Z) : option (list Z) :=
  match l with
  | c :: r =>
      if (c =? 9) || (c =? 10) || (c =? 11) || (c =? 12) || (c =? 13) || (c =? 32)
      then Some r
      else
        match l with
        | 194 :: 160 :: r2 => Some r2
        | 225 :: 154 :: 128 :: r3 => Some r3
        | 226 :: 128 :: c3 :: r3 =>
            if ((128 <=? c3) && (c3 <=? 138)) || (c3 =? 168) || (c3 =? 169) || (c3 =? 175)
            then Some r3 else None
        | 226 :: 129 :: 159 :: r3 => Some r3
        | 227 :: 128 :: 128 :: r3 => Some r3
        | 239 :: 187 :: 191 :: r3 => Some r3
        | _ => None
        end
  | [] => None
  end.

Fixpoint all_space (fuel : nat) (l : list Z) : bool :=
  match l with
  | [] => true
  | _ =>
      match fuel, skip_space l with
      | S fuel', Some r => all_space fuel' r
      | _, _ => false
      end
  end.

(** [!input.trim()] *)
Definition blank (s : string) : bool :=
  let l := map (fun c => Z.of_N (N_of_ascii c)) (list_ascii_of_string s) in
  all_space (length l) l.

Definition TIMEOUT_MS : Z := 50000.

Definition FAILED : string := "⚠️ Failed to connect to the bot.".
Definition NO_REPLY : string := "⚠️ No reply from server.".

Definition assistant (c : value) : message := {| role := "assistant"; content := c |}.

(** The [catch] and the [finally] of [sendMessage]. *)
Definition send_catch (w : world) : world :=
  with_ui (setMessages (fun prev => prev ++ [assistant (VStr FAILED)])) w.

Definition send_finally (w : world) : world := with_ui (setLoading false) w.

(** [sendMessage], up to [await fetch]. *)
Definition sendMessage (w : world) : world :=
  if blank (input (ui w)) || loading (ui w) then w
  else
    let userMessage := {| role := "user"; content := VStr (input (ui w)) |} in
    let updatedMessages := messages (ui w) ++ [userMessage] in
    let w := with_ui (fun s => setLoading true (setInput ""
               (setMessages (fun _ => updatedMessages) s))) w in
    let timeoutId := length (timers w) in
    {| ui := ui w;
       pending := pending w ++ [AwaitFetch timeoutId];
       calls := calls w ++ [{| chat_url := API_URL; chat_method := "POST";
                               chat_messages := updatedMessages;
                               chat_abort_after := Some TIMEOUT_MS |}];
       timers := timers w ++ [Some (now w + TIMEOUT_MS)];
       now := now w |}.

Definition clearTimeout (id : nat) (w : world) : world :=
  with_timers (<[id := None]> (timers w)) w.

(** [sendMessage], from the parsed body to its end. *)
Definition send_on_json (r : settled value) (w : world) : world :=
  match r with
  | Rejected _ => send_catch w
  | Resolved data =>
      match get data "reply" with
      | None => send_catch w
      | Some reply =>
          if truthy reply
          then with_ui (setMessages (fun prev => prev ++ [assistant reply])) w
          else with_ui (setMessages (fun prev => prev ++ [assistant (VStr NO_REPLY)])) w
      end
  end.

Definition waits_on (id : nat) (t : task) : bool :=
  match t with AwaitFetch id' => Nat.eqb id id' | AwaitJson => false end.

(** The call whose [fetch] carries the signal of timer [id], if it is still
    waiting for it. *)
Fixpoint find_call (id : nat) (l : list task) (i : nat) : option nat :=
  match l with
  | [] => None
  | t :: l' => if waits_on id t then Some i else find_call id l' (S i)
  end.

Inductive event :=
  | Type_ (text : string)
  | Send
  | Elapse (ms : Z)
  | TimerFires (id : nat)
  | FetchSettles (i : nat) (r : settled (bool * Z))
  | JsonSettles (i : nat) (r : settled value).

(** The Send button is disabled while [loading], and its handler is the
    [sendMessage] of the latest render.  A timer fires once it is due and is
    spent; its callback aborts the [fetch] it was armed for, which then
    rejects. *)
Definition step (w : world) (e : event) : option world :=
  match e with
  | Type_ text => Some (with_ui (setInput text) w)
  | Send => if loading (ui w) then None else Some (sendMessage w)
  | Elapse ms =>
      if 0 <=? ms
      then Some {| ui := ui w; pending := pending w; calls := calls w;
                   timers := timers w; now := now w + ms |}
      else None
  | TimerFires id =>
      match timers w !! id with
      | Some (Some due) =>
          if due <=? now w then
            let w := clearTimeout id w in
            match find_call id (pending w) O with
            | Some i => Some (with_pending (delete i (pending w)) (send_finally (send_catch w)))
            | None => Some w
            end
          else None
      | _ => None
      end
  | FetchSettles i r =>
      match pending w !! i with
      | Some (AwaitFetch id) =>
          match r with
          | Rejected _ => Some (with_pending (delete i (pending w)) (send_finally (send_catch w)))
          | Resolved (ok, _) =>
              let w := clearTimeout id w in
              if ok then Some (with_pending (<[i := AwaitJson]> (pending w)) w)
              else Some (with_pending (delete i (pending w)) (send_finally (send_catch w)))
          end
      | _ => None
      end
  | JsonSettles i r =>
      match pending w !! i with
      | Some AwaitJson =>
          Some (with_pending (delete i (pending w)) (send_finally (send_on_json r w)))
      | _ => None
      end
  end.

Fixpoint run (w : world) (es : list event) : option world :=
  match es with
  | [] => Some w
  | e :: es' =>
      match step w e with
      | Some w' => run w' es'
      | None => None
      end
  end.

Inductive reachable : world -> Prop :=
  | reach_mount : reachable mount
  | reach_step w e w' : reachable w -> step w e = Some w' -> reachable w'.

(** What holds in every reachable state: nothing is awaited and the screen
    is not loading; or one call is awaited and the screen is loading, and
    while it is the [fetch] that is awaited its timer is armed and due no
    later than [TIMEOUT_MS] from now.  Every call made carries that delay. *)
Definition invariant (w : world) : Prop :=
  match pending w with
  | [] => loading (ui w) = false
  | [AwaitFetch id] =>
      loading (ui w) = true /\
      exists due, timers w !! id = Some (Some due) /\ due <= now w + TIMEOUT_MS
  | [AwaitJson] => loading (ui w) = true
  | _ => False
  end /\
  Forall (fun c => chat_abort_after c = Some TIMEOUT_MS) (calls w).

End AyurvedaBotScreen.

(** ** The barcode screen ([src/screens/BarcodeScannerNative.js]) *)
Module BarcodeScannerNative.
Import JSValue.

Definition STORAGE_KEY : string := "SAVED_BARCODES".

(** One saved scan, the [out] of [uploadImage]. *)
Record scan := {
  method : string;
  field : string;
  status : Z;
  body : value;
  when : string;
}.

(** The [savedFoods] cell and what is kept under [STORAGE_KEY]. *)
Record world := {
  savedFoods : list scan;
  stored : option (list scan);
}.

(** [saveResult]; [write_ok] tells whether [AsyncStorage.setItem] goes
    through (its failure is caught and logged). *)
Definition saveResult (item : scan) (write_ok : bool) (w : world) : world :=
  let newArr := take 50 (item :: savedFoods w) in
  {| savedFoods := newArr;
     stored := if write_ok then Some newArr else stored w |}.

(** [saveResult] for each scan of a list in turn, every one in the render
    that follows the one before. *)
Fixpoint save_all (items : list scan) (write_ok : bool) (w : world) : world :=
  match items with
  | [] => w
  | item :: rest => save_all rest write_ok (saveResult item write_ok w)
  end.

Definition BACKEND_URL : string := "https://models.samsarawellness.in/barcode/".

(** The picked image, normalised: its [uri], and its [fileName] and [type]
    when it has them ([None] for [undefined]). *)
Record image := {
  uri : string;
  fileName : option string;
  type : option string;
}.

(** The file object appended to the form. *)
Record file := {
  file_uri : string;
  file_name : string;
  file_type : string;
}.

(** [s.replace(needle, "")]: the first occurrence of [needle] taken out. *)
Fixpoint remove_first (needle s : string) : string :=
  if String.prefix needle s
  then String.substring (String.length needle) (String.length s - String.length needle) s
  else match s with
       | EmptyString => EmptyString
       | String c s' => String c (remove_first needle s')
       end.

(** What follows the last [sep] of a text; [None] when there is none. *)
Fixpoint after_last (sep : ascii) (s : string) (acc : option string) : option string :=
  match s with
  | EmptyString => acc
  | String c s' =>
      if Ascii.eqb c sep then after_last sep s' (Some EmptyString)
      else after_last sep s' (option_map (fun a => a +:+ String c EmptyString) acc)
  end.

(** [\w]: a letter, a digit or the underscore. *)
Definition word_char (c : ascii) : bool :=
  let n := Z.of_N (N_of_ascii c) in
  ((48 <=? n) && (n <=? 57)) || ((65 <=? n) && (n <=? 90))
  || ((97 <=? n) && (n <=? 122)) || (n =? 95).

Fixpoint all_word (s : string) : bool :=
  match s with
  | EmptyString => true
  | String c s' => word_char c && all_word s'
  end.

Definition lower (c : ascii) : ascii :=
  let n := N_of_ascii c in
  if ((65 <=? n) && (n <=? 90))%N then ascii_of_N (n + 32) else c.

Fixpoint toLowerCase (s : string) : string :=
  match s with
  | EmptyString => EmptyString
  | String c s' => String (lower c) (toLowerCase s')
  end.

(** The group of [/\.(\w+)$/.exec(name)], in lower case, or jpg: the match
    can only start at the last dot, as what follows must have none. *)
Definition extension (name : string) : string :=
  match after_last "."%char name None with
  | Some e => if str_truthy e && all_word e then toLowerCase e else "jpg"
  | None => "jpg"
  end.

(** What follows the last slash: [uri.split("/").pop()]. *)
Definition last_part (s : string) : string :=
  default s (after_last "/"%char s None).

(** [buildFileForUpload]; [android] is [Platform.OS === "android"] and
    [now] is [Date.now()]. *)
Definition buildFileForUpload (android : bool) (now : Z) (normalized : option image)
  : option file :=
  match normalized with
  | None => None
  | Some img =>
      if negb (str_truthy (uri img)) then None
      else
        let rawUri := uri img in
        let u := if android then rawUri else remove_first "file://" rawUri in
        let name :=
          match fileName img with
          | Some n => if str_truthy n then Some n else None
          | None => None
          end in
        let name :=
          match name with
          | Some n => n
          | None =>
              let seg := if str_truthy u then last_part u else u in
              if str_truthy seg then seg
              else "photo_" +:+ JSNumber.toString (JSNumber.of_Z now) +:+ ".jpg"
          end in
        let ext := extension name in
        let mime :=
          match type img with
          | Some t => if str_truthy t then Some t else None
          | None => None
          end in
        let mime :=
          match mime with
          | Some t => t
          | None => if String.eqb ext "png" then "image/png" else "image/jpeg"
          end in
        Some {| file_uri := u; file_name := name; file_type := mime |}
  end.

(** The cells of the screen, its saved scans, and the alerts shown and the
    requests made, in order. *)
Record screen := {
  picked : option image;
  loading : bool;
  serverResult : option scan;
  saved : world;
  alerts : list (string * string);
  requests : list request;
}.

(** How the [fetch] with a given field name goes: it rejects (with an error
    that may have a message), or it resolves with a status that is [ok], a
    body that parses or not and the text then read in its place, or with a
    status that is not [ok] and the text of the body. *)
Inductive attempt :=
  | NetworkError (message : option string)
  | Ok (code : Z) (json : option value) (rawText : string)
  | NotOk (code : Z) (txt : string).

Definition upload_request (field_ : string) (f : file) : request :=
  {| req_url := BACKEND_URL; req_method := "POST"; req_field := field_;
     req_file := file_uri f; req_name := Some (file_name f);
     req_mime := Some (file_type f); req_abort_after := None |}.

(** The loop of [uploadImage] over the field names left to try, then its
    [throw], [catch] and [finally]; [lastError] is [None] for [null], else the
    message of the error, if it has one. *)
Fixpoint try_fields (fields : list string) (f : file) (when_ : string)
    (answer : string -> attempt) (write_ok : bool)
    (lastError : option (option string)) (w : screen) : screen :=
  match fields with
  | [] =>
      let message :=
        match lastError with
        | Some m => m
        | None => Some "Upload failed"
        end in
      let text :=
        match message with
        | Some m => if str_truthy m then m else "Unknown error"
        | None => "Unknown error"
        end in
      {| picked := picked w; loading := false; serverResult := serverResult w;
         saved := saved w; alerts := alerts w ++ [("Upload failed", text)];
         requests := requests w |}
  | field_ :: rest =>
      let w := {| picked := picked w; loading := loading w; serverResult := serverResult w;
                  saved := saved w; alerts := alerts w;
                  requests := requests w ++ [upload_request field_ f] |} in
      match answer field_ with
      | NetworkError m => try_fields rest f when_ answer write_ok (Some m) w
      | Ok code json rawText =>
          let parsed :=
            match json with
            | Some v => v
            | None => VObj [("rawText", VStr rawText)]
            end in
          let out := {| method := "upload"; field := field_; status := code;
                        body := parsed; when := when_ |} in
          {| picked := picked w; loading := false; serverResult := Some out;
             saved := saveResult out write_ok (saved w); alerts := alerts w;
             requests := requests w |}
      | NotOk code txt =>
          try_fields rest f when_ answer write_ok
            (Some (Some ("status " +:+ JSNumber.toString (JSNumber.of_Z code) +:+ ": " +:+ txt))) w
      end
  end.

Definition uploadImage (android : bool) (now : Z) (when_ : string)
    (answer : string -> attempt) (write_ok : bool) (w : screen) : screen :=
  let no_image :=
    {| picked := picked w; loading := loading w; serverResult := serverResult w;
       saved := saved w;
       alerts := alerts w ++ [("No image selected",
                               "Tap 'Choose Image' to pick or take a barcode photo.")];
       requests := requests w |} in
  match picked w with
  | None => no_image
  | Some img =>
      if negb (str_truthy (uri img)) then no_image
      else
        match buildFileForUpload android now (Some img) with
        | None =>
            {| picked := picked w; loading := loading w; serverResult := serverResult w;
               saved := saved w;
               alerts := alerts w ++ [("Invalid image",
                                       "Could not build upload file from selected image.")];
               requests := requests w |}
        | Some f =>
            try_fields ["file"; "image"] f when_ answer write_ok None
              {| picked := picked w; loading := true; serverResult := None;
                 saved := saved w; alerts := alerts w; requests := requests w |}
        end
  end.

(** [clearSelection] *)
Definition clearSelection (w : screen) : screen :=
  {| picked := None; loading := loading w; serverResult := None;
     saved := saved w; alerts := alerts w; requests := requests w |}.

End BarcodeScannerNative.

(** ** The food scanner ([src/unnamed/part_002]) *)
Module FoodScannerScreen.
Import JSNumber JSValue.

(** The characters that [/[^\d.-]/g] leaves in place. *)
Definition kept (c : ascii) : bool :=
  let n := Z.of_N (N_of_ascii c) in
  ((48 <=? n) && (n <=? 57)) || (n =? 46) || (n =? 45).

Fixpoint cleaned (s : string) : string :=
  match s with
  | EmptyString => EmptyString
  | String c s' => if kept c then String c (cleaned s') else cleaned s'
  end.

(** [str !== 0] *)
Definition is_number_zero (v : value) : bool :=
  match v with VNum x => is_zero x | _ => false end.

(** [parseGrams]; its [catch] answers a [String(str)] that throws. *)
Definition parseGrams (str : value) : number :=
  if negb (truthy str) && negb (is_number_zero str) then of_Z 0
  else if negb (stringable str) then of_Z 0
  else
    let n := parseFloat (cleaned (to_string str)) in
    if isNaN n then of_Z 0 else n.

Record totals := { carbs : number; fat : number; fiber : number; protein : number }.

Definition zero_totals : totals :=
  {| carbs := of_Z 0; fat := of_Z 0; fiber := of_Z 0; protein := of_Z 0 |}.

(** The body of the [forEach]; [None] is the TypeError of reading a property
    of a food that is [null] or [undefined]. *)
Definition add_food (t : totals) (f : value) : option totals :=
  match get f "carbs", get f "fat", get f "fiber", get f "protein" with
  | Some c, Some a, Some i, Some p =>
      Some {| carbs := add (carbs t) (parseGrams c);
              fat := add (fat t) (parseGrams a);
              fiber := add (fiber t) (parseGrams i);
              protein := add (protein t) (parseGrams p) |}
  | _, _, _, _ => None
  end.

Fixpoint sum_foods (t : totals) (foods : list value) : option totals :=
  match foods with
  | [] => Some t
  | f :: rest =>
      match add_food t f with
      | Some t' => sum_foods t' rest
      | None => None
      end
  end.

Definition fmt (n : number) : string := toFixed 2 n +:+ "g".

Record shown := { carbs_ : string; fat_ : string; fiber_ : string; protein_ : string }.

Definition computeTotals (foods : list value) : option shown :=
  match sum_foods zero_totals foods with
  | Some t =>
      Some {| carbs_ := fmt (carbs t); fat_ := fmt (fat t);
              fiber_ := fmt (fiber t); protein_ := fmt (protein t) |}
  | None => None
  end.

Definition ANALYZE_URL : string := "https://models.samsarawellness.in/food/api/analyze".

(** [fileObjectFromUri]; [android] is [Platform.OS === "android"]. *)
Definition fileObjectFromUri (android : bool) (uri : string) : BarcodeScannerNative.file :=
  let last := BarcodeScannerNative.last_part uri in
  let name := if str_truthy last then last else "photo.jpg" in
  let ext := BarcodeScannerNative.extension name in
  let mime := if String.eqb ext "png" then "image/png" else "image/jpeg" in
  {| BarcodeScannerNative.file_uri :=
       if android then uri else BarcodeScannerNative.remove_first "file://" uri;
     BarcodeScannerNative.file_name := name;
     BarcodeScannerNative.file_type := mime |}.

(** The cells of the screen ([image] by its [uri]), the calls of
    [uploadToBackend] that wait for their answer, and the alerts shown and
    the requests made, in order. *)
Record screen := {
  image : option string;
  analyzing : bool;
  result : option value;
  errorMsg : option string;
  waiting : nat;
  alerts : list (string * string);
  requests : list request;
}.

Definition mount : screen :=
  {| image := None; analyzing := false; result := None; errorMsg := None;
     waiting := 0; alerts := []; requests := [] |}.

(** How the [fetch] goes, with what the reads of its body give: it rejects,
    or resolves without [ok], or resolves with [ok]. *)
Inductive answer :=
  | NetworkError (message : option string)
  | NotOk (code : Z) (text : settled string)
  | Ok (code : Z) (json : settled value) (text : settled string).

(** [await resp.text().catch(() => "")] *)
Definition text_or_empty (t : settled string) : string :=
  match t with
  | Resolved s => s
  | Rejected _ => ""
  end.

Definition analyze_request (f : BarcodeScannerNative.file) : request :=
  {| req_url := ANALYZE_URL; req_method := "POST"; req_field := "image";
     req_file := BarcodeScannerNative.file_uri f;
     req_name := Some (BarcodeScannerNative.file_name f);
     req_mime := Some (BarcodeScannerNative.file_type f); req_abort_after := None |}.

(** [uploadToBackend], up to its [await fetch]. *)
Definition uploadToBackend (android : bool) (w : screen) : screen :=
  let no_image :=
    {| image := image w; analyzing := analyzing w; result := result w;
       errorMsg := errorMsg w; waiting := waiting w;
       alerts := alerts w ++ [("No image", "Pick or take a photo first.")];
       requests := requests w |} in
  match image w with
  | None => no_image
  | Some uri =>
      if negb (str_truthy uri) then no_image
      else
        {| image := image w; analyzing := true; result := None; errorMsg := None;
           waiting := S (waiting w); alerts := alerts w;
           requests := requests w ++ [analyze_request (fileObjectFromUri android uri)] |}
  end.

(** [Array.isArray(v)] *)
Definition isArray (v : value) : bool :=
  match v with VArr _ => true | _ => false end.

(** What the [try] of [uploadToBackend] comes to once the answer is there:
    the parsed body, or the message of what is thrown, if it has one. *)
Definition outcome (a : answer) : value + option string :=
  match a with
  | NetworkError m => inr m
  | NotOk code text =>
      inr (Some ("Server returned " +:+ toString (of_Z code) +:+ ": " +:+ text_or_empty text))
  | Ok code json text =>
      match json with
      | Rejected _ =>
          inr (Some ("Server returned non-JSON response: " +:+ text_or_empty text))
      | Resolved parsed =>
          if negb (truthy parsed) then inr (Some "Unexpected response shape from server")
          else
            match get parsed "foods" with
            | Some foods =>
                if isArray foods then inl parsed
                else inr (Some "Unexpected response shape from server")
            | None => inr (Some "Unexpected response shape from server")
            end
      end
  end.

(** [err.message || fallback] *)
Definition message_or (m : option string) (fallback : string) : string :=
  match m with
  | Some t => if str_truthy t then t else fallback
  | None => fallback
  end.

(** [uploadToBackend], from the answer to its end. *)
Definition upload_settled (a : answer) (w : screen) : screen :=
  match outcome a with
  | inl parsed =>
      {| image := image w; analyzing := false; result := Some parsed;
         errorMsg := errorMsg w; waiting := Nat.pred (waiting w);
         alerts := alerts w; requests := requests w |}
  | inr m =>
      {| image := image w; analyzing := false; result := result w;
         errorMsg := Some (message_or m "Upload failed");
         waiting := Nat.pred (waiting w);
         alerts := alerts w ++ [("Upload failed", message_or m "Unknown error")];
         requests := requests w |}
  end.

(** The [onPress] of Reset. *)
Definition reset (w : screen) : screen :=
  {| image := None; analyzing := analyzing w; result := None; errorMsg := None;
     waiting := waiting w; alerts := alerts w; requests := requests w |}.

(** What [takePhoto] and [pickFromGallery] end with when they get an image. *)
Definition picked (uri : string) (w : screen) : screen :=
  {| image := Some uri; analyzing := analyzing w; result := None; errorMsg := None;
     waiting := waiting w; alerts := alerts w; requests := requests w |}.

(** The Analyze button is enabled. *)
Definition analyze_enabled (w : screen) : bool :=
  match image w with
  | Some _ => negb (analyzing w)
  | None => false
  end.

(** The foods that the render lists and totals: [result && result.foods]. *)
Definition foods_shown (w : screen) : option (list value) :=
  match result w with
  | Some r =>
      if truthy r then
        match get r "foods" with
        | Some (VArr fs) => Some fs
        | _ => None
        end
      else None
  | None => None
  end.

Inductive event :=
  | Picked (uri : string)
  | PressAnalyze
  | PressReset
  | AnswerSettles (a : answer).

(** Analyze is pressed only while enabled; Reset and the two pickers are
    there in every render. *)
Definition step (android : bool) (w : screen) (e : event) : option screen :=
  match e with
  | Picked uri => Some (picked uri w)
  | PressAnalyze => if analyze_enabled w then Some (uploadToBackend android w) else None
  | PressReset => Some (reset w)
  | AnswerSettles a =>
      match waiting w with
      | O => None
      | S _ => Some (upload_settled a w)
      end
  end.

Fixpoint run (android : bool) (w : screen) (es : list event) : option screen :=
  match es with
  | [] => Some w
  | e :: es' =>
      match step android w e with
      | Some w' => run android w' es'
      | None => None
      end
  end.

Inductive reachable (android : bool) : screen -> Prop :=
  | reach_mount : reachable android mount
  | reach_step w e w' :
      reachable android w -> step android w e = Some w' -> reachable android w'.

(** What holds in every reachable state. *)
Definition invariant (w : screen) : Prop :=
  waiting w = (if analyzing w then 1 else 0)%nat /\
  (analyzing w = true -> result w = None /\ errorMsg w = None) /\
  match result w with
  | Some r => foods_shown w <> None /\ errorMsg w = None
  | None => True
  end.

End FoodScannerScreen.

(** ** Predicates of the statements *)

(** No slash in a text. *)
Fixpoint slash_free (s : string) : bool :=
  match s with
  | EmptyString => true
  | String c s' => negb (Ascii.eqb c "/"%char) && slash_free s'
  end.

(** The sign in front of a text and what follows it, as [parseFloat] takes
    them apart. *)
Definition sign_split (s : string) : bool * string :=
  match s with
  | String "-"%char r => (true, r)
  | String "+"%char r => (false, r)
  | _ => (false, s)
  end.

(** A digit somewhere in a text. *)
Fixpoint has_digit (s : string) : bool :=
  match s with
  | EmptyString => false
  | String c s' =>
      match JSNumber.digit_of c with
      | Some _ => true
      | None => has_digit s'
      end
  end.

(** No character of a text survives the cleaning of [parseGrams]. *)
Fixpoint all_dropped (s : string) : bool :=
  match s with
  | EmptyString => true
  | String c s' => negb (FoodScannerScreen.kept c) && all_dropped s'
  end.

(** The four amounts of a food that [computeTotals] reads, when the food is
    not [null] or [undefined]. *)
Definition amounts (f : JSValue.value) : list JSNumber.number :=
  match JSValue.get f "carbs", JSValue.get f "fat", JSValue.get f "fiber",
        JSValue.get f "protein" with
  | Some c, Some a, Some i, Some p =>
      [FoodScannerScreen.parseGrams c; FoodScannerScreen.parseGrams a;
       FoodScannerScreen.parseGrams i; FoodScannerScreen.parseGrams p]
  | _, _, _, _ => []
  end.

(** [null] or [undefined]. *)
Definition nullish (v : JSValue.value) : bool :=
  match v with JSValue.VNull | JSValue.VUndefined => true | _ => false end.

(** The roles of [n] exchanges: a user message and its reply, [n] times. *)
Fixpoint exchanges (n : nat) : list string :=
  match n with
  | O => []
  | S n' => "user" :: "assistant" :: exchanges n'
  end.

(** The roles of the messages of the chat screen are full exchanges, then
    the user message of the call in progress, if any; the calls made are as
    many. *)
Definition paired (w : AyurvedaBotScreen.world) : Prop :=
  exists n,
    map AyurvedaBotScreen.role (AyurvedaBotScreen.messages (AyurvedaBotScreen.ui w))
    = exchanges n ++ (match AyurvedaBotScreen.pending w with [] => [] | _ => ["user"] end) /\
    length (AyurvedaBotScreen.calls w) = (n + length (AyurvedaBotScreen.pending w))%nat.

(** The peaks that [calculateBpm] counts in its samples. *)
Definition peaks (values : list JSNumber.number) : Z :=
  match values with
  | prev :: cur :: rest => PulseScreen.count_peaks prev cur rest
  | _ => 0
  end.

(** The rate that [calculateBpm] returns for a number of peaks up to 60:
    none below 10 peaks, three per peak from there on, one less for 41. *)
Definition rate_of_peaks (p : Z) : Z :=
  if p <? 10 then 70 else if p =? 41 then 122 else 3 * p.

(** The same finite number, fraction by fraction. *)
Definition same_number (x y : JSNumber.number) : bool :=
  match x, y with
  | JSNumber.Fin a, JSNumber.Fin b => (Qnum a =? Qnum b) && (Qden a =? Qden b)%positive
  | _, _ => false
  end.

(** What [calculateBpm] makes of a number of peaks. *)
Definition rate_from (p : Z) : JSNumber.number :=
  let b := PulseScreen.floor
             (JSNumber.mul (JSNumber.div (JSNumber.of_Z p) (JSNumber.of_Z 20))
                (JSNumber.of_Z 60)) in
  if JSNumber.gt (JSNumber.of_Z 30) b || JSNumber.gt b (JSNumber.of_Z 180)
  then JSNumber.of_Z 70 else b.

(** Every byte of the text is an ASCII character. *)
Fixpoint plain (s : string) : bool :=
  match s with
  | EmptyString => true
  | String c s' => (N_of_ascii c <? 128)%N && plain s'
  end.

(** ** Runs used as examples *)

(** A measurement on the screen of [src/unnamed/part_004]: Start, Stop, the
    recording resolves with a clip, the clip is there, and the upload is
    answered by [answer]. *)
Definition clip : string := "file:///clip.mp4".

Definition measurement (answer : settled PulseScanUpload.upload_result)
  : list PulseScanUpload.event :=
  [PulseScanUpload.PressStart;
   PulseScanUpload.PressStop;
   PulseScanUpload.RecordSettles 0 (Resolved (Some clip));
   PulseScanUpload.FileInfoSettles 0
     (Resolved {| PulseScanUpload.exists_ := true; PulseScanUpload.size := 400000 |});
   PulseScanUpload.UploadSettles 0 answer].

(** The same, up to the upload being in flight. *)
Definition until_upload : list PulseScanUpload.event :=
  [PulseScanUpload.PressStart;
   PulseScanUpload.PressStop;
   PulseScanUpload.RecordSettles 0 (Resolved (Some clip));
   PulseScanUpload.FileInfoSettles 0
     (Resolved {| PulseScanUpload.exists_ := true; PulseScanUpload.size := 400000 |})].

(** A 200 answer whose parsed body is the object with the given fields. *)
Definition ok_answer (fields : list (string * JSValue.value))
  : settled PulseScanUpload.upload_result :=
  Resolved {| PulseScanUpload.status := 200; PulseScanUpload.body := "";
              PulseScanUpload.parsed := Some (JSValue.VObj fields) |}.

(** The state with that upload in flight. *)
Definition world_uploading : PulseScanUpload.world :=
  default (PulseScanUpload.mount ∅)
    (PulseScanUpload.run (PulseScanUpload.mount ∅) until_upload).

(** The state with the recording of the example ended and the file
    information awaited. *)
Definition world_checking : PulseScanUpload.world :=
  default (PulseScanUpload.mount ∅)
    (PulseScanUpload.run (PulseScanUpload.mount ∅)
       [PulseScanUpload.PressStart;
        PulseScanUpload.RecordSettles 0 (Resolved (Some clip))]).

(** The chat screen with a message typed and not yet sent. *)
Definition chat_typed : AyurvedaBotScreen.world :=
  default AyurvedaBotScreen.mount
    (AyurvedaBotScreen.run AyurvedaBotScreen.mount [AyurvedaBotScreen.Type_ "hello"]).

(** The chat screen with one message sent and not yet answered. *)
Definition chat_waiting : AyurvedaBotScreen.world :=
  default AyurvedaBotScreen.mount
    (AyurvedaBotScreen.run AyurvedaBotScreen.mount
       [AyurvedaBotScreen.Type_ "hello"; AyurvedaBotScreen.Send]).

(** A measurement on the screen of [src/screens/PulseScanScreen.js] whose
    answer, with [ok], has the parsed body [data]. *)
Definition fetch_measurement (data : JSValue.value) : list PulseScanScreen.event :=
  [PulseScanScreen.PressStart;
   PulseScanScreen.RecordSettles 0 (Resolved (Some clip));
   PulseScanScreen.FetchSettles 0 (Resolved true);
   PulseScanScreen.JsonSettles 0 (Resolved data)].

(** A food whose [carbs] is the text [s]. *)
Definition food_with_carbs (s : string) : JSValue.value :=
  JSValue.VObj [("carbs", JSValue.VStr s)].

(** The digit one followed by 309 zeros: a text beyond the range of the
    finite numbers. *)
Definition huge : string := "1" +:+ JSNumber.zeros 309.

(** The timed screen with the camera permission granted before the mount. *)
Definition camera_allowed : option PulseScanTimed.permission_response :=
  Some {| PulseScanTimed.p_granted := true; PulseScanTimed.canAskAgain := true |}.

(** The timed screen waiting for the body of an answer whose [ok] is [ok]. *)
Definition timed_checking (ok : bool) : PulseScanTimed.world :=
  default (PulseScanTimed.mount camera_allowed)
    (PulseScanTimed.run (PulseScanTimed.mount camera_allowed)
       [PulseScanTimed.PressStart;
        PulseScanTimed.RecordSettles 0 (Resolved (Some clip));
        PulseScanTimed.FetchSettles 0 (Resolved ok)]).

(** The timed screen after a recording that was rejected without message. *)
Definition timed_failed : PulseScanTimed.world :=
  default (PulseScanTimed.mount camera_allowed)
    (PulseScanTimed.run (PulseScanTimed.mount camera_allowed)
       [PulseScanTimed.PressStart;
        PulseScanTimed.RecordSettles 0 (Rejected None)]).

(** The food screen with an image picked and its analysis under way. *)
Definition food_analyzing : FoodScannerScreen.screen :=
  default FoodScannerScreen.mount
    (FoodScannerScreen.run true FoodScannerScreen.mount
       [FoodScannerScreen.Picked "file:///cache/meal.png"; FoodScannerScreen.PressAnalyze]).


(** An object that has no text: its field [toString] is no function. *)
Definition textless : JSValue.value := JSValue.VObj [("toString", JSValue.VNull)].

(** * Properties *)

(** ** The pulse screen of [src/unnamed/part_004] *)
Section PulseScanUploadFacts.
Import JSNumber JSValue PulseScanUpload.

Lemma inv_mount st : invariant (mount st).
Proof. by split. Qed.

Lemma upload_catch_ui m w :
  isRecording (ui (upload_catch m w)) = isRecording (ui w) /\
  isProcessing (ui (upload_catch m w)) = false /\
  showCamera (ui (upload_catch m w)) = showCamera (ui w) /\
  bpm (ui (upload_catch m w)) = bpm (ui w) /\
  pending (upload_catch m w) = pending w.
Proof. by destruct m. Qed.

Lemma record_catch_ui m w :
  isRecording (ui (record_catch m w)) = isRecording (ui w) /\
  (isProcessing (ui w) = false -> isProcessing (ui (record_catch m w)) = false).
Proof.
  unfold record_catch. destruct m as [m|]; [|done].
  by destruct (_ && _).
Qed.

Lemma upload_on_result_ui r w :
  isProcessing (ui (upload_on_result r w)) = false /\
  isRecording (ui (upload_on_result r w)) = isRecording (ui w).
Proof.
  unfold upload_on_result.
  destruct r as [res|m]; [|by destruct (upload_catch_ui m w) as (?&?&?)].
  repeat match goal with
         | |- context [match ?x with _ => _ end] => destruct x
         | |- context [upload_catch ?m ?w] =>
             let H := fresh in pose proof (upload_catch_ui m w) as H;
             destruct H as (-> & -> & _); done
         end; done.
Qed.

Lemma inv_step w e w' : invariant w -> step w e = Some w' -> invariant w'.
Proof.
  unfold invariant. intros Hi Hs.
  destruct w as [s p al up cam sto]; simpl in *.
  destruct p as [|t [|t' p]]; [| |by destruct t].
  - (* nothing awaited *)
    destruct Hi as [Hr Hp].
    destruct e; simpl in Hs; try discriminate.
    + rewrite Hr, Hp in Hs. destruct (negb (is_null (bpm s))); [discriminate|].
      unfold startMeasurement, startMeasurement_made in Hs; simpl in Hs.
      unfold cameraRef in Hs. rewrite Hr in Hs.
      destruct (showCamera s); simpl in Hs; injection Hs as <-; simpl; auto.
    + rewrite Hr, Hp in Hs. by destruct (negb (is_null (bpm s))).
    + destruct (reset_offered s); [|discriminate].
      injection Hs as <-; simpl; auto.
  - (* one call suspended *)
    destruct e; simpl in Hs.
    + destruct t; destruct Hi as (Hr & Hc & Hx); rewrite Hr in Hs; discriminate.
    + unfold stopMeasurement in Hs; simpl in Hs. unfold cameraRef in Hs.
      destruct t; destruct Hi as (Hr & Hc & Hx); rewrite Hr, Hc in Hs;
        simpl in Hs; injection Hs as <-; simpl; auto.
    + assert (reset_offered s = false) as Ho.
      { unfold reset_offered, render; simpl.
        destruct t; destruct Hi as (-> & _); simpl;
          by rewrite andb_false_r. }
      by rewrite Ho in Hs.
    + destruct i; [|by destruct i]. simpl in Hs.
      destruct t; try discriminate. destruct Hi as (Hr & Hc & Hx).
      pose proof (fun m => record_catch_ui m
                      {| ui := s; pending := [AwaitRecord]; alerts := al;
                         uploads := up; camera := cam; storage := sto |}) as H.
      simpl in H.
      destruct r as [[uri|]|m]; simpl in Hs;
        [destruct (str_truthy uri)|..]; injection Hs as <-; simpl; auto;
        split; auto; by apply H.
    + destruct i; [|by destruct i]. simpl in Hs.
      destruct t; try discriminate. destruct Hi as (Hr & Hc & Hx).
      unfold upload_on_info in Hs.
      destruct r as [info|m].
      * destruct (negb (exists_ info)).
        -- injection Hs as <-; simpl; auto.
        -- injection Hs as <-; simpl; auto.
      * injection Hs as <-. by destruct m.
    + destruct i; [|by destruct i]. simpl in Hs.
      destruct t; try discriminate. destruct Hi as (Hr & Hc & Hx).
      injection Hs as <-; simpl; auto.
    + destruct i; [|by destruct i]. simpl in Hs.
      destruct t; try discriminate. destruct Hi as (Hr & Hc & Hx).
      injection Hs as <-; simpl.
      pose proof (upload_on_result_ui r
                    {| ui := s; pending := [AwaitUpload uri]; alerts := al;
                       uploads := up; camera := cam; storage := sto |}) as [H _].
      auto.
Qed.

Lemma reachable_inv st w : reachable st w -> invariant w.
Proof.
  induction 1 as [|w e w' _ IH Hs]; [apply inv_mount | exact (inv_step _ _ _ IH Hs)].
Qed.

Lemma reachable_storage st w : reachable st w -> storage w = st.
Proof.
  induction 1 as [|w e w' _ IH Hs]; [done|].
  rewrite <- IH. clear IH.
  destruct e; simpl in Hs;
    unfold startMeasurement, startMeasurement_made, stopMeasurement, record_settled, record_catch,
      upload_on_info, upload_on_result, upload_catch in Hs;
    repeat (case_match; simplify_eq/=); done.
Qed.

(** Every upload the screen starts is the one call of [uploadAsync]. *)
Lemma reachable_uploads st w :
  reachable st w -> Forall (fun r => exists uri, r = upload_request uri) (uploads w).
Proof.
  induction 1 as [|w e w' _ IH Hs]; [by constructor|].
  destruct e; simpl in Hs;
    unfold startMeasurement, startMeasurement_made, stopMeasurement, record_settled, record_catch,
      upload_on_info, upload_on_result, upload_catch in Hs;
    repeat (case_match; simplify_eq/=); try done.
  apply Forall_app; split; [done|]. constructor; [by eexists|constructor].
Qed.

Lemma run_reachable st w es w' :
  reachable st w -> run w es = Some w' -> reachable st w'.
Proof.
  revert w. induction es as [|e es IH]; intros w Hr Hrun; simpl in Hrun.
  - by injection Hrun as <-.
  - destruct (step w e) as [w1|] eqn:Hs; [|done].
    exact (IH w1 (reach_step st w e w1 Hr Hs) Hrun).
Qed.

(** In a reachable state the suspended call, if any, is the only one. *)
Lemma reachable_pending st w i t :
  reachable st w -> pending w !! i = Some t -> i = O /\ pending w = [t].
Proof.
  intros Hr Hl. apply reachable_inv in Hr. unfold invariant in Hr.
  destruct (pending w) as [|t0 [|t1 p]]; [done| |by destruct t0].
  destruct i; [|done]. by injection Hl as ->.
Qed.

End PulseScanUploadFacts.

(** ** Torch and recording *)
Section Torch.
Import JSNumber JSValue PulseScanUpload.




End Torch.







(** C7.  In the screen of [src/unnamed/part_004], from every reachable state
    in which nothing is awaited (after a result, after a failure, or before
    any measurement) [resetForNewMeasurement] leads to the state cells of the
    mount, with nothing awaited, and doing it again changes nothing.  In the
    timed screen of [src/unnamed/part_005] the Measure Again handler leads to
    the state cells of the mount from every state in which nothing is being
    recorded or uploaded, and doing it again changes nothing. *)
Theorem measure_again_resets st w :
  PulseScanUpload.reachable st w ->
  PulseScanUpload.terminal w ->
  PulseScanUpload.ui (PulseScanUpload.resetForNewMeasurement w) = PulseScanUpload.initial /\
  PulseScanUpload.pending (PulseScanUpload.resetForNewMeasurement w) = [] /\
  PulseScanUpload.resetForNewMeasurement (PulseScanUpload.resetForNewMeasurement w)
  = PulseScanUpload.resetForNewMeasurement w /\
  (forall s,
      PulseScanTimed.isRecording s = false ->
      PulseScanTimed.isUploading s = false ->
      PulseScanTimed.measureAgain s = PulseScanTimed.initial /\
      PulseScanTimed.measureAgain (PulseScanTimed.measureAgain s)
      = PulseScanTimed.measureAgain s).
Proof.
  intros Hr Ht. pose proof (reachable_inv _ _ Hr) as Hi. unfold PulseScanUpload.invariant in Hi.
  unfold PulseScanUpload.terminal in Ht. rewrite Ht in Hi. destruct Hi as [Hrec _].
  repeat split.
  - unfold PulseScanUpload.resetForNewMeasurement, PulseScanUpload.initial. simpl.
    destruct (PulseScanUpload.ui w) as [r p b e u c]. simpl in Hrec. by subst.
  - done.
  - destruct s as [r u b e]. simpl in *. by subst.
Qed.

(** The theorem at the state after a measurement that gave 72. *)
Lemma measure_again_resets_witness :
  exists w,
    PulseScanUpload.run (PulseScanUpload.mount ∅)
      (measurement (ok_answer [("bpm", JSValue.num 72)])) = Some w /\
    PulseScanUpload.ui (PulseScanUpload.resetForNewMeasurement w) = PulseScanUpload.initial.
Proof.
  eexists. split; [vm_compute; reflexivity|].
  refine (proj1 (measure_again_resets ∅ _ _ _)); [|vm_compute; reflexivity].
  apply (run_reachable ∅ (PulseScanUpload.mount ∅)
           (measurement (ok_answer [("bpm", JSValue.num 72)])));
    [apply PulseScanUpload.reach_mount|vm_compute; reflexivity].
Defined.

(** ** The answer of the backend *)
Section Answer.
Import JSNumber JSValue PulseScanUpload.

Lemma assoc_remove_field k fields : assoc k (remove_field k fields) = None.
Proof.
  induction fields as [|[k' v] rest IH]; [done|]. simpl.
  destruct (String.eqb k k') eqn:E; [done|]. simpl. by rewrite E.
Qed.

Lemma zero_not_truthy x : is_zero x = true -> truthy (VNum x) = false.
Proof. intros H. simpl. rewrite H. by rewrite orb_true_r. Qed.

(** In a reachable state with the upload in flight, no result and no error
    are held: [uploadVideoAndGetBpm] cleared both before its first [await]. *)
Lemma awaiting_upload st w i uri :
  reachable st w -> pending w !! i = Some (AwaitUpload uri) ->
  i = O /\ pending w = [AwaitUpload uri] /\ bpm (ui w) = VNull /\
  isRecording (ui w) = true.
Proof.
  intros Hr Hl. destruct (reachable_pending _ _ _ _ Hr Hl) as [-> Hp].
  apply reachable_inv in Hr. unfold invariant in Hr. rewrite Hp in Hr.
  by destruct Hr as (? & ? & ?).
Qed.

(** What the screen is after an answer without a usable [bpm]. *)
Lemma no_bpm_outcome w uri body fields :
  pending w = [AwaitUpload uri] ->
  truthy (default VUndefined (assoc "bpm" fields)) = false ->
  step w (UploadSettles 0 (Resolved {| status := 200; body := body;
                                       parsed := Some (VObj fields) |}))
  = Some (with_pending []
            (record_finally
               (upload_catch (Some "No BPM data in response")
                  (with_ui (setUploadProgress "Analyzing heart rate...") w)))).
Proof.
  intros Hp Hf. simpl. rewrite Hp. simpl.
  unfold upload_on_result. simpl. by rewrite Hf.
Qed.

End Answer.

(** C9.  In the screen of [src/unnamed/part_004], when the upload in flight is
    answered with status 200 and an object whose [bpm] is the number zero, the
    screen ends in the very state it ends in when the same object comes
    without [bpm]: the error is the no-BPM one, shown in an alert and below
    the Start button, no result is held and none is displayed. *)
Theorem zero_bpm_is_no_bpm st w i uri body fields x w' :
  PulseScanUpload.reachable st w ->
  PulseScanUpload.pending w !! i = Some (PulseScanUpload.AwaitUpload uri) ->
  JSValue.assoc "bpm" fields = Some (JSValue.VNum x) ->
  JSNumber.is_zero x = true ->
  PulseScanUpload.step w
    (PulseScanUpload.UploadSettles i
       (Resolved {| PulseScanUpload.status := 200; PulseScanUpload.body := body;
                    PulseScanUpload.parsed := Some (JSValue.VObj fields) |})) = Some w' ->
  PulseScanUpload.step w
    (PulseScanUpload.UploadSettles i
       (Resolved {| PulseScanUpload.status := 200; PulseScanUpload.body := body;
                    PulseScanUpload.parsed :=
                      Some (JSValue.VObj (JSValue.remove_field "bpm" fields)) |})) = Some w' /\
  PulseScanUpload.error (PulseScanUpload.ui w') = Some "No BPM data in response" /\
  last (PulseScanUpload.alerts w') = Some ("Error", "No BPM data in response") /\
  PulseScanUpload.bpm (PulseScanUpload.ui w') = JSValue.VNull /\
  PulseScanUpload.card_ (PulseScanUpload.render (PulseScanUpload.ui w'))
  = PulseScanUpload.CardStart /\
  PulseScanUpload.error_text (PulseScanUpload.render (PulseScanUpload.ui w'))
  = Some "Error: No BPM data in response".
Proof.
  intros Hr Hl Hf Hz Hs.
  destruct (awaiting_upload _ _ _ _ Hr Hl) as (-> & Hp & Hb & _).
  rewrite (no_bpm_outcome w uri body fields Hp) in Hs
    by (rewrite Hf; by apply zero_not_truthy).
  injection Hs as <-.
  split.
  { apply (no_bpm_outcome w uri); [done|]. by rewrite assoc_remove_field. }
  simpl. rewrite Hb. repeat split. by rewrite last_snoc.
Qed.

Lemma world_uploading_reachable :
  PulseScanUpload.reachable ∅ world_uploading.
Proof.
  apply (run_reachable ∅ (PulseScanUpload.mount ∅) until_upload);
    [apply PulseScanUpload.reach_mount|vm_compute; reflexivity].
Qed.

(** The theorem for the answer [{ bpm: 0 }] to the measurement of the
    examples. *)
Lemma zero_bpm_is_no_bpm_witness :
  PulseScanUpload.run (PulseScanUpload.mount ∅) until_upload = Some world_uploading /\
  exists w',
    PulseScanUpload.step world_uploading
      (PulseScanUpload.UploadSettles 0 (ok_answer [("bpm", JSValue.num 0)])) = Some w' /\
    PulseScanUpload.error (PulseScanUpload.ui w') = Some "No BPM data in response".
Proof.
  split; [vm_compute; reflexivity|]. eexists. split; [vm_compute; reflexivity|].
  refine (proj1 (proj2 (zero_bpm_is_no_bpm ∅ world_uploading 0%nat clip ""
                          [("bpm", JSValue.num 0)] (JSNumber.of_Z 0) _
                          world_uploading_reachable _ _ _ _)));
    vm_compute; reflexivity.
Defined.

(** ** A usable answer *)
Section Result.
Import JSNumber JSValue PulseScanUpload.

(** What the screen is after an answer with a usable [bpm]. *)
Lemma bpm_outcome w uri body fields b :
  pending w = [AwaitUpload uri] ->
  assoc "bpm" fields = Some b ->
  truthy b = true ->
  stringable b = true ->
  step w (UploadSettles 0 (Resolved {| status := 200; body := body;
                                       parsed := Some (VObj fields) |}))
  = Some (with_pending []
            (record_finally
               (alert "Success!" ("Your heart rate is " +:+ to_string b +:+ " BPM")
                  (with_ui (fun s => setIsProcessing false (setUploadProgress "" (setBpm b s)))
                     (with_ui (setUploadProgress "Analyzing heart rate...") w))))).
Proof.
  intros Hp Hf Ht Hx. simpl. rewrite Hp. simpl.
  unfold upload_on_result. simpl. rewrite Hf. simpl. by rewrite Ht, Hx.
Qed.

(** What is on screen, and what was said, after that answer. *)
Lemma bpm_outcome_view w uri body fields b w' :
  pending w = [AwaitUpload uri] ->
  assoc "bpm" fields = Some b ->
  truthy b = true ->
  stringable b = true ->
  is_null b = false ->
  step w (UploadSettles 0 (Resolved {| status := 200; body := body;
                                       parsed := Some (VObj fields) |})) = Some w' ->
  pending w' = [] /\
  bpm (ui w') = b /\
  card_ (render (ui w')) = CardResult (option_map (fun t => t +:+ " BPM") (render_child b)) /\
  last (alerts w') = Some ("Success!", "Your heart rate is " +:+ to_string b +:+ " BPM").
Proof.
  intros Hp Hf Ht Hx Hn Hs.
  rewrite (bpm_outcome w uri body fields b Hp Hf Ht Hx) in Hs. injection Hs as <-.
  split; [done|]. split; [done|]. split.
  - unfold render. cbn [ui with_pending record_finally alert with_ui
      isRecording isProcessing bpm setIsRecording setIsProcessing setUploadProgress
      setBpm card_]. by rewrite Hn.
  - cbn [alerts with_pending record_finally alert with_ui]. apply last_snoc.
Qed.

Lemma seventy_two :
  truthy (num 72) = true /\ to_string (num 72) = "72" /\
  render_child (num 72) = Some "72" /\ is_null (num 72) = false.
Proof. by vm_compute. Qed.

Lemma saveBpm_latest today b ok p :
  PulseScreen.latest (PulseScreen.history (PulseScreen.saveBpm today b ok p)) today = Some b.
Proof.
  unfold PulseScreen.latest, PulseScreen.saveBpm. simpl.
  rewrite lookup_insert_eq. apply last_snoc.
Qed.

End Result.

(** C2 as stated fails on the screen that receives the answer
    ([src/unnamed/part_004]): after the measurement answered by
    [{ bpm: 72 }] the card shows 72 BPM, and nothing is kept under the
    history key. *)
Lemma bpm_72_leaves_no_history :
  exists w,
    PulseScanUpload.run (PulseScanUpload.mount ∅)
      (measurement (ok_answer [("bpm", JSValue.num 72)])) = Some w /\
    PulseScanUpload.card_ (PulseScanUpload.render (PulseScanUpload.ui w))
    = PulseScanUpload.CardResult (Some "72 BPM") /\
    PulseScanUpload.storage w !! HISTORY_KEY = None.
Proof.
  eexists. split; [vm_compute; reflexivity|]. split; vm_compute; reflexivity.
Qed.

(** C2 (amended).  In the screen of [src/unnamed/part_004], when the upload in
    flight is answered with status 200 and an object whose [bpm] is 72, the
    measurement is over, the card shows exactly 72 BPM, the alert says so, and
    the storage is what it was at mount: the screen keeps no history.  The
    sampling screen of [src/unnamed/part_005] keeps one: [saveBpm] makes the
    new rate the latest entry of the current date, in the state and, when the
    write goes through, in the storage. *)
Theorem bpm_72_is_shown st w i uri body fields w' today b ok p :
  PulseScanUpload.reachable st w ->
  PulseScanUpload.pending w !! i = Some (PulseScanUpload.AwaitUpload uri) ->
  JSValue.assoc "bpm" fields = Some (JSValue.num 72) ->
  PulseScanUpload.step w
    (PulseScanUpload.UploadSettles i
       (Resolved {| PulseScanUpload.status := 200; PulseScanUpload.body := body;
                    PulseScanUpload.parsed := Some (JSValue.VObj fields) |})) = Some w' ->
  PulseScanUpload.terminal w' /\
  PulseScanUpload.card_ (PulseScanUpload.render (PulseScanUpload.ui w'))
  = PulseScanUpload.CardResult (Some "72 BPM") /\
  last (PulseScanUpload.alerts w') = Some ("Success!", "Your heart rate is 72 BPM") /\
  PulseScanUpload.storage w' = st /\
  PulseScreen.latest (PulseScreen.history (PulseScreen.saveBpm today b ok p)) today = Some b /\
  PulseScreen.stored (PulseScreen.saveBpm today b true p)
  = Some (PulseScreen.history (PulseScreen.saveBpm today b true p)).
Proof.
  intros Hr Hl Hf Hs.
  assert (PulseScanUpload.reachable st w') as Hr'
      by exact (PulseScanUpload.reach_step st w _ w' Hr Hs).
  destruct (awaiting_upload _ _ _ _ Hr Hl) as (-> & Hp & _ & _).
  destruct seventy_two as (Ht & Hstr & Hch & Hn).
  destruct (bpm_outcome_view w uri body fields _ w' Hp Hf Ht eq_refl Hn Hs)
    as (Hp' & _ & Hc & Ha).
  rewrite Hch in Hc. rewrite Hstr in Ha.
  split; [exact Hp'|]. split; [exact Hc|]. split; [exact Ha|].
  split; [exact (reachable_storage st w' Hr')|].
  split; [apply saveBpm_latest|done].
Qed.

(** The theorem for the answer [{ bpm: 72 }] to the measurement of the
    examples. *)
Lemma bpm_72_is_shown_witness :
  exists w',
    PulseScanUpload.step world_uploading
      (PulseScanUpload.UploadSettles 0 (ok_answer [("bpm", JSValue.num 72)])) = Some w' /\
    PulseScanUpload.card_ (PulseScanUpload.render (PulseScanUpload.ui w'))
    = PulseScanUpload.CardResult (Some "72 BPM").
Proof.
  eexists. split; [vm_compute; reflexivity|].
  refine (proj1 (proj2 (bpm_72_is_shown ∅ world_uploading 0%nat clip ""
                          [("bpm", JSValue.num 72)] _ "2024-01-01" (JSNumber.of_Z 72) true
                          (PulseScreen.mount None)
                          world_uploading_reachable _ _ _)));
    vm_compute; reflexivity.
Defined.

(** ** The chat screen *)
Section Chat.
Import JSValue AyurvedaBotScreen.

Lemma chat_inv_step w e w' : invariant w -> step w e = Some w' -> invariant w'.
Proof.
  unfold invariant. intros [Hi Hc] Hs.
  destruct w as [s p cs ts n]; simpl in *.
  destruct e; simpl in Hs.
  - injection Hs as <-. simpl. split; [|done].
    destruct p as [|[id|] [|t' p]]; done.
  - destruct (loading s) eqn:El; [done|].
    injection Hs as <-. unfold sendMessage. simpl. rewrite El.
    destruct (blank (input s) || false) eqn:E; simpl; [by rewrite El|].
    destruct p as [|[id|] [|t' p]]; try done;
      try (destruct Hi; congruence).
    simpl. split.
    + split; [done|]. exists (n + TIMEOUT_MS). split; [|lia].
      by rewrite lookup_app_r, Nat.sub_diag by done.
    + apply Forall_app. split; [done|]. by repeat constructor.
  - destruct (0 <=? ms) eqn:E; [|done]. apply Z.leb_le in E.
    injection Hs as <-. simpl. split; [|done].
    destruct p as [|[id|] [|t' p]]; try done.
    destruct Hi as (Hl & due & Ht & Hd). split; [done|]. exists due. split; [done|lia].
  - destruct (ts !! id) as [[due|]|] eqn:Et; try done.
    destruct (due <=? n); [|done]. simpl in Hs.
    destruct p as [|[id'|] [|t' p]]; try done; simpl in Hs.
    + by injection Hs as <-.
    + destruct (Nat.eqb id id') eqn:En.
      * by injection Hs as <-.
      * injection Hs as <-. simpl. split; [|done].
        destruct Hi as (Hl & due' & Ht & Hd). split; [done|]. exists due'. split; [|done].
        apply Nat.eqb_neq in En. by rewrite list_lookup_insert_ne.
    + by injection Hs as <-.
  - destruct p as [|t [|t' p]]; [done| |by destruct t].
    destruct i; [|by destruct i]. simpl in Hs.
    destruct t as [id|]; [|done]. destruct Hi as [Hl _].
    destruct r as [[[] st]|m]; injection Hs as <-; simpl; by split.
  - destruct p as [|t [|t' p]]; [done| |by destruct t].
    destruct i; [|by destruct i]. simpl in Hs.
    destruct t as [id|]; [done|].
    injection Hs as <-. simpl. split.
    + done.
    + unfold send_on_json. by repeat case_match.
Qed.

Lemma chat_reachable_inv w : reachable w -> invariant w.
Proof.
  induction 1 as [|w e w' _ IH Hs]; [by split | exact (chat_inv_step _ _ _ IH Hs)].
Qed.

Lemma chat_run_reachable w es w' : reachable w -> run w es = Some w' -> reachable w'.
Proof.
  revert w. induction es as [|e es IH]; intros w Hr Hrun; simpl in Hrun.
  - by injection Hrun as <-.
  - destruct (step w e) as [w1|] eqn:Hs; [|done].
    exact (IH w1 (reach_step w e w1 Hr Hs) Hrun).
Qed.

(** Once the timer of the awaited [fetch] is due, it fires and the call ends
    with the canned failure. *)
Lemma timer_ends_call w id due :
  pending w = [AwaitFetch id] ->
  timers w !! id = Some (Some due) ->
  due <= now w ->
  exists w', step w (TimerFires id) = Some w' /\
             pending w' = [] /\ loading (ui w') = false /\
             last (messages (ui w')) = Some (assistant (VStr FAILED)).
Proof.
  intros Hp Ht Hd. simpl. rewrite Ht.
  apply Z.leb_le in Hd. rewrite Hd. simpl. rewrite Hp. simpl.
  rewrite Nat.eqb_refl. eexists. split; [done|]. simpl.
  split; [done|]. split; [done|]. apply last_snoc.
Qed.

(** A timer keeps the time it was armed for until it is spent, and stays
    spent. *)
Lemma timer_kept_step w e w' id due :
  timers w !! id = Some (Some due) \/ timers w !! id = Some None ->
  step w e = Some w' ->
  timers w' !! id = Some (Some due) \/ timers w' !! id = Some None.
Proof.
  intros Ht Hs.
  assert (forall j, <[j := None]> (timers w) !! id = Some (Some due) \/
                    <[j := None]> (timers w) !! id = Some None) as Hclear.
  { intros j. destruct (decide (j = id)) as [->|Hne].
    - right. apply list_lookup_insert_eq. destruct Ht as [Ht|Ht]; by eapply lookup_lt_Some.
    - by rewrite list_lookup_insert_ne. }
  destruct e; simpl in Hs.
  - by injection Hs as <-.
  - destruct (loading (ui w)); [done|]. injection Hs as <-. unfold sendMessage.
    destruct (_ || _); [done|]. simpl.
    destruct Ht as [Ht|Ht]; [left|right]; by apply lookup_app_l_Some.
  - destruct (0 <=? ms); [|done]. by injection Hs as <-.
  - destruct (timers w !! id0) as [[due0|]|]; try done.
    destruct (due0 <=? now w); [|done].
    destruct (find_call _ _ _); injection Hs as <-; simpl; apply Hclear.
  - destruct (pending w !! i) as [[id'|]|]; try done.
    destruct r as [[[] st]|m]; injection Hs as <-; simpl; try done; apply Hclear.
  - destruct (pending w !! i) as [[id'|]|]; try done.
    injection Hs as <-. simpl. unfold send_on_json. by repeat case_match.
Qed.

Lemma timer_kept_run es w w' id due :
  timers w !! id = Some (Some due) \/ timers w !! id = Some None ->
  run w es = Some w' ->
  timers w' !! id = Some (Some due) \/ timers w' !! id = Some None.
Proof.
  revert w. induction es as [|e es IH]; intros w Ht Hrun; simpl in Hrun.
  - by injection Hrun as <-.
  - destruct (step w e) as [w1|] eqn:Hs; [|done].
    exact (IH w1 (timer_kept_step _ _ _ _ _ Ht Hs) Hrun).
Qed.

(** Time does not go back. *)
Lemma now_step w e w' : step w e = Some w' -> now w <= now w'.
Proof.
  intros Hs. destruct e; simpl in Hs.
  - injection Hs as <-. simpl. lia.
  - destruct (loading (ui w)); [done|]. injection Hs as <-. unfold sendMessage.
    destruct (_ || _); simpl; lia.
  - destruct (Z.leb_spec 0 ms); [|done]. injection Hs as <-. simpl. lia.
  - destruct (timers w !! id) as [[due0|]|]; try done.
    destruct (due0 <=? now w); [|done].
    destruct (find_call _ _ _); injection Hs as <-; simpl; lia.
  - destruct (pending w !! i) as [[id'|]|]; try done.
    destruct r as [[[] st]|m]; injection Hs as <-; simpl; lia.
  - destruct (pending w !! i) as [[id'|]|]; try done.
    injection Hs as <-. simpl. unfold send_on_json. repeat case_match; simpl; lia.
Qed.

Lemma now_run es w w' : run w es = Some w' -> now w <= now w'.
Proof.
  revert w. induction es as [|e es IH]; intros w Hrun; simpl in Hrun.
  - injection Hrun as <-. lia.
  - destruct (step w e) as [w1|] eqn:Hs; [|done].
    pose proof (now_step _ _ _ Hs). specialize (IH w1 Hrun). lia.
Qed.

End Chat.

(** C5 as stated fails on [src/unnamed/part_004]: a file that exists and is
    empty is uploaded, and the upload states no type for its part. *)
Lemma empty_file_is_uploaded :
  exists w',
    PulseScanUpload.step world_checking
      (PulseScanUpload.FileInfoSettles 0
         (Resolved {| PulseScanUpload.exists_ := true; PulseScanUpload.size := 0 |}))
    = Some w' /\
    PulseScanUpload.uploads w' = [PulseScanUpload.upload_request clip] /\
    req_mime (PulseScanUpload.upload_request clip) = None.
Proof.
  eexists. split; [vm_compute; reflexivity|]. split; vm_compute; reflexivity.
Qed.

(** C5 (amended).  In the screen of [src/unnamed/part_004], when the file
    information awaited arrives, the upload is started if and only if the file
    exists, whatever its size: then exactly one request is added, a POST to
    the analysis endpoint of the file as the part named file, with no type
    stated, and the call goes on to await it; for a file that does not exist
    nothing is sent, the measurement ends and the error says the file was not
    found; when the information cannot be had nothing is sent either.  The
    screen of [src/screens/PulseScanScreen.js] asks nothing about the file and
    adds exactly one request, a POST to the same endpoint of the part named
    file with type video/mp4. *)
Theorem upload_only_checks_existence st w i uri r w' :
  PulseScanUpload.reachable st w ->
  PulseScanUpload.pending w !! i = Some (PulseScanUpload.AwaitFileInfo uri) ->
  PulseScanUpload.step w (PulseScanUpload.FileInfoSettles i r) = Some w' ->
  match r with
  | Resolved info =>
      if PulseScanUpload.exists_ info
      then PulseScanUpload.uploads w'
           = PulseScanUpload.uploads w ++ [PulseScanUpload.upload_request uri] /\
           PulseScanUpload.pending w' = [PulseScanUpload.AwaitUpload uri]
      else PulseScanUpload.uploads w' = PulseScanUpload.uploads w /\
           PulseScanUpload.pending w' = [] /\
           PulseScanUpload.error (PulseScanUpload.ui w') = Some "Video file not found"
  | Rejected _ =>
      PulseScanUpload.uploads w' = PulseScanUpload.uploads w /\
      PulseScanUpload.pending w' = []
  end /\
  PulseScanUpload.upload_request uri
  = {| req_url := PulseScanUpload.API_URL; req_method := "POST"; req_field := "file";
       req_file := uri; req_name := None; req_mime := None; req_abort_after := None |} /\
  (forall p,
      PulseScanScreen.uploads (PulseScanScreen.upload_begin uri p)
      = PulseScanScreen.uploads p ++ [PulseScanScreen.upload_request uri]) /\
  req_url (PulseScanScreen.upload_request uri) = PulseScanUpload.API_URL /\
  req_method (PulseScanScreen.upload_request uri) = "POST" /\
  req_field (PulseScanScreen.upload_request uri) = "file" /\
  req_mime (PulseScanScreen.upload_request uri) = Some "video/mp4".
Proof.
  intros Hr Hl Hs.
  destruct (reachable_pending _ _ _ _ Hr Hl) as [-> Hp].
  simpl in Hs. rewrite Hp in Hs. simpl in Hs.
  split; [|by repeat split].
  unfold PulseScanUpload.upload_on_info in Hs.
  destruct r as [info|m].
  - destruct (PulseScanUpload.exists_ info); simpl in Hs; injection Hs as <-; by simpl.
  - injection Hs as <-. by destruct m.
Qed.

(** The theorem for the empty file of the example. *)
Lemma upload_only_checks_existence_witness :
  exists w',
    PulseScanUpload.step world_checking
      (PulseScanUpload.FileInfoSettles 0
         (Resolved {| PulseScanUpload.exists_ := true; PulseScanUpload.size := 0 |}))
    = Some w' /\
    PulseScanUpload.pending w' = [PulseScanUpload.AwaitUpload clip].
Proof.
  eexists. split; [vm_compute; reflexivity|].
  refine (proj2 (proj1 (upload_only_checks_existence ∅ world_checking 0%nat clip
                          (Resolved {| PulseScanUpload.exists_ := true;
                                       PulseScanUpload.size := 0 |}) _ _ _ _)));
    [|vm_compute; reflexivity|vm_compute; reflexivity].
  apply (run_reachable ∅ (PulseScanUpload.mount ∅)
           [PulseScanUpload.PressStart;
            PulseScanUpload.RecordSettles 0 (Resolved (Some clip))]);
    [apply PulseScanUpload.reach_mount|vm_compute; reflexivity].
Defined.

(** C6 as stated fails on the pulse screen ([src/unnamed/part_004]): its one
    network call, in flight, has no delay after which it is given up. *)
Lemma upload_has_no_timeout :
  PulseScanUpload.in_flight world_uploading = 1%nat /\
  ~ (forall r, In r (PulseScanUpload.uploads world_uploading) ->
               exists t, req_abort_after r = Some t /\ 50000 <= t).
Proof.
  split; [vm_compute; reflexivity|].
  intros H. destruct (H (PulseScanUpload.upload_request clip)) as (t & Ht & _).
  - vm_compute. by left.
  - discriminate Ht.
Qed.

(** C6 (amended).  Only the chat screen bounds its network call.  When
    [sendMessage] makes a call, at a time [t], it arms a timer for exactly
    [t + 50000] ms that aborts the [fetch], and the call is recorded with
    that delay.  Whatever happens afterwards, the timer does not fire
    before that time; as long as the [fetch] of the call is awaited the
    timer stays armed for that time, and once the time has come it fires:
    the call ends, the screen stops loading, and the reply shown is the
    canned failure, the same as for any other error.  On the pulse screen
    of [src/unnamed/part_004] no upload carries such a delay. *)
Theorem chat_call_times_out w :
  AyurvedaBotScreen.reachable w ->
  AyurvedaBotScreen.loading (AyurvedaBotScreen.ui w) = false ->
  AyurvedaBotScreen.blank (AyurvedaBotScreen.input (AyurvedaBotScreen.ui w)) = false ->
  let id := length (AyurvedaBotScreen.timers w) in
  let due := AyurvedaBotScreen.now w + 50000 in
  (exists w0,
      AyurvedaBotScreen.step w AyurvedaBotScreen.Send = Some w0 /\
      AyurvedaBotScreen.pending w0 = [AyurvedaBotScreen.AwaitFetch id] /\
      AyurvedaBotScreen.timers w0 !! id = Some (Some due) /\
      length (AyurvedaBotScreen.calls w0) = S (length (AyurvedaBotScreen.calls w)) /\
      Forall (fun c => AyurvedaBotScreen.chat_abort_after c = Some 50000)
        (AyurvedaBotScreen.calls w0) /\
      forall es w1,
        AyurvedaBotScreen.run w0 es = Some w1 ->
        AyurvedaBotScreen.now w <= AyurvedaBotScreen.now w1 /\
        (AyurvedaBotScreen.now w1 < due ->
         AyurvedaBotScreen.step w1 (AyurvedaBotScreen.TimerFires id) = None) /\
        (AyurvedaBotScreen.pending w1 = [AyurvedaBotScreen.AwaitFetch id] ->
         AyurvedaBotScreen.timers w1 !! id = Some (Some due) /\
         forall ms, 0 <= ms -> due <= AyurvedaBotScreen.now w1 + ms ->
           exists w2 w3,
             AyurvedaBotScreen.step w1 (AyurvedaBotScreen.Elapse ms) = Some w2 /\
             AyurvedaBotScreen.step w2 (AyurvedaBotScreen.TimerFires id) = Some w3 /\
             AyurvedaBotScreen.pending w3 = [] /\
             AyurvedaBotScreen.loading (AyurvedaBotScreen.ui w3) = false /\
             last (AyurvedaBotScreen.messages (AyurvedaBotScreen.ui w3))
             = Some (AyurvedaBotScreen.assistant
                       (JSValue.VStr AyurvedaBotScreen.FAILED)))) /\
  (forall st p, PulseScanUpload.reachable st p ->
                Forall (fun r => req_abort_after r = None) (PulseScanUpload.uploads p)).
Proof.
  intros Hr Hload Hblank id due.
  split; [|intros st p Hp; eapply Forall_impl; [exact (reachable_uploads st p Hp)|];
           by intros r [uri ->]].
  assert (AyurvedaBotScreen.pending w = []) as Hp.
  { pose proof (chat_reachable_inv _ Hr) as [Hi _].
    destruct (AyurvedaBotScreen.pending w) as [|t [|t' p]]; [done| |by destruct t].
    destruct t; [destruct Hi as [Hi _]|]; congruence. }
  assert (AyurvedaBotScreen.step w AyurvedaBotScreen.Send
          = Some (AyurvedaBotScreen.sendMessage w)) as Hs
    by (simpl; by rewrite Hload).
  pose proof (AyurvedaBotScreen.reach_step w _ _ Hr Hs) as Hr0.
  exists (AyurvedaBotScreen.sendMessage w). split; [exact Hs|].
  assert (AyurvedaBotScreen.timers (AyurvedaBotScreen.sendMessage w) !! id
          = Some (Some due)) as Ht0.
  { unfold AyurvedaBotScreen.sendMessage. rewrite Hblank, Hload. simpl.
    unfold id. by rewrite lookup_app_r, Nat.sub_diag by done. }
  split.
  { unfold AyurvedaBotScreen.sendMessage. rewrite Hblank, Hload. simpl. by rewrite Hp. }
  split; [exact Ht0|]. split.
  { unfold AyurvedaBotScreen.sendMessage. rewrite Hblank, Hload. simpl.
    rewrite length_app. simpl. lia. }
  split; [exact (proj2 (chat_reachable_inv _ Hr0))|].
  intros es w1 Hrun.
  pose proof (chat_run_reachable _ es _ Hr0 Hrun) as Hr1.
  pose proof (timer_kept_run es _ _ id due (or_introl Ht0) Hrun) as Ht1.
  pose proof (now_run es _ _ Hrun) as Hn.
  assert (AyurvedaBotScreen.now (AyurvedaBotScreen.sendMessage w) = AyurvedaBotScreen.now w)
    as Hn0 by (unfold AyurvedaBotScreen.sendMessage; by rewrite Hblank, Hload).
  rewrite Hn0 in Hn.
  split; [exact Hn|]. split.
  - intros Hlt. simpl. destruct Ht1 as [-> | ->]; [|done].
    by destruct (Z.leb_spec due (AyurvedaBotScreen.now w1)); [lia|].
  - intros Hp1.
    pose proof (chat_reachable_inv _ Hr1) as [Hi _]. rewrite Hp1 in Hi.
    destruct Hi as (_ & due' & Ht' & _).
    assert (due' = due) as -> by (destruct Ht1 as [Ht1|Ht1]; congruence).
    split; [exact Ht'|].
    intros ms Hms Hdue.
    destruct (timer_ends_call
                {| AyurvedaBotScreen.ui := AyurvedaBotScreen.ui w1;
                   AyurvedaBotScreen.pending := AyurvedaBotScreen.pending w1;
                   AyurvedaBotScreen.calls := AyurvedaBotScreen.calls w1;
                   AyurvedaBotScreen.timers := AyurvedaBotScreen.timers w1;
                   AyurvedaBotScreen.now := AyurvedaBotScreen.now w1 + ms |} id due)
      as (w3 & Hs3 & Hrest); [by rewrite Hp1|done|done|].
    eexists. exists w3. split; [|by split].
    simpl. apply Z.leb_le in Hms. by rewrite Hms.
Qed.

(** The theorem for the message of the example, typed on the fresh screen:
    sent at time 0, its timer is armed for 50000. *)
Lemma chat_call_times_out_witness :
  exists w0,
    AyurvedaBotScreen.step chat_typed AyurvedaBotScreen.Send = Some w0 /\
    AyurvedaBotScreen.timers w0 !! 0%nat = Some (Some 50000).
Proof.
  destruct (proj1 (chat_call_times_out chat_typed
                     (chat_run_reachable AyurvedaBotScreen.mount
                        [AyurvedaBotScreen.Type_ "hello"] chat_typed
                        AyurvedaBotScreen.reach_mount eq_refl)
                     eq_refl eq_refl))
    as (w0 & Hs & _ & Ht & _).
  exists w0. split; [exact Hs|exact Ht].
Defined.

(** C4, on [src/screens/PulseScanScreen.js]: a measurement answered with
    status 200 and the empty object ends without error and without alert;
    [bpm] is [undefined], and the screen shows a result whose number is
    missing. *)
Lemma missing_bpm_is_shown_as_result :
  exists w,
    PulseScanScreen.run (PulseScanScreen.mount ∅) (fetch_measurement (JSValue.VObj []))
    = Some w /\
    PulseScanScreen.pending w = [] /\
    PulseScanScreen.bpm (PulseScanScreen.ui w) = JSValue.VUndefined /\
    PulseScanScreen.error (PulseScanScreen.ui w) = None /\
    PulseScanScreen.alerts w = [] /\
    PulseScanScreen.result_text (PulseScanScreen.render (PulseScanScreen.ui w))
    = Some (Some " BPM").
Proof.
  eexists. split; [vm_compute; reflexivity|]. repeat split.
Qed.

(** C8.  Whatever was saved before, after [saveResult] the saved scans are
    the new one followed by the first 49 of the old ones, in their order: the
    new scan is first and there are at most 50; when the write goes through,
    this list is what is stored. *)
Theorem saved_scans_are_bounded item ok w :
  let w' := BarcodeScannerNative.saveResult item ok w in
  BarcodeScannerNative.savedFoods w'
  = item :: take 49 (BarcodeScannerNative.savedFoods w) /\
  head (BarcodeScannerNative.savedFoods w') = Some item /\
  (length (BarcodeScannerNative.savedFoods w') <= 50)%nat /\
  BarcodeScannerNative.stored (BarcodeScannerNative.saveResult item true w)
  = Some (BarcodeScannerNative.savedFoods w').
Proof.
  simpl. repeat split. rewrite length_take. lia.
Qed.

(** C10, on [src/unnamed/part_002]: a long enough run of digits is read as
    an infinity, and the totals of two foods whose [carbs] are such runs of
    opposite sign are not a number: the text shown is NaNg. *)
Lemma totals_can_be_not_a_number :
  FoodScannerScreen.parseGrams (JSValue.VStr huge) = JSNumber.Inf false /\
  FoodScannerScreen.computeTotals [food_with_carbs huge]
  = Some {| FoodScannerScreen.carbs_ := "Infinityg"; FoodScannerScreen.fat_ := "0.00g";
            FoodScannerScreen.fiber_ := "0.00g"; FoodScannerScreen.protein_ := "0.00g" |} /\
  FoodScannerScreen.computeTotals [food_with_carbs huge; food_with_carbs ("-" +:+ huge)]
  = Some {| FoodScannerScreen.carbs_ := "NaNg"; FoodScannerScreen.fat_ := "0.00g";
            FoodScannerScreen.fiber_ := "0.00g"; FoodScannerScreen.protein_ := "0.00g" |}.
Proof. repeat split; vm_compute; reflexivity. Qed.

(** ** More on the pulse screen of [src/unnamed/part_004] *)
Section PulseScanUploadMore.
Import JSNumber JSValue PulseScanUpload.

Lemma clean_step w e w' :
  invariant w -> clean_while_awaiting w -> step w e = Some w' -> clean_while_awaiting w'.
Proof.
  unfold invariant, clean_while_awaiting. intros Hi Hc Hs.
  destruct w as [s p al up cam sto]; simpl in *.
  destruct p as [|t [|t' p]]; [| |by destruct t].
  - destruct e; simpl in Hs; try done.
    + unfold startMeasurement, startMeasurement_made in Hs. simpl in Hs.
      repeat (case_match; simplify_eq/=); done.
    + unfold stopMeasurement in Hs. simpl in Hs.
      repeat (case_match; simplify_eq/=); done.
    + repeat (case_match; simplify_eq/=); done.
  - destruct Hc as [He Hb].
    destruct e; simpl in Hs.
    + destruct t; destruct Hi as (Hr & _); rewrite Hr in Hs; discriminate.
    + unfold stopMeasurement in Hs. simpl in Hs.
      repeat (case_match; simplify_eq/=); done.
    + assert (reset_offered s = false) as Ho.
      { unfold reset_offered, render; simpl.
        destruct t; destruct Hi as (-> & _); simpl; by rewrite andb_false_r. }
      by rewrite Ho in Hs.
    + destruct i; [|by destruct i]. simpl in Hs. destruct t; try done.
      unfold record_settled, record_catch in Hs.
      repeat (case_match; simplify_eq/=); done.
    + destruct i; [|by destruct i]. simpl in Hs. destruct t; try done.
      unfold upload_on_info, upload_catch in Hs.
      repeat (case_match; simplify_eq/=); done.
    + destruct i; [|by destruct i]. simpl in Hs. destruct t; try done.
      by injection Hs as <-.
    + destruct i; [|by destruct i]. simpl in Hs. destruct t; try done.
      by injection Hs as <-.
Qed.

Lemma reachable_clean st w : reachable st w -> clean_while_awaiting w.
Proof.
  induction 1 as [|w e w' Hr IH Hs]; [done|].
  exact (clean_step _ _ _ (reachable_inv _ _ Hr) IH Hs).
Qed.

(** The [catch] of [uploadVideoAndGetBpm] always has a message to show. *)
Lemma upload_catch_spec x w :
  exists m, str_truthy m = true /\
    upload_catch x w
    = alert "Error" m
        (with_ui (fun s => setIsProcessing false (setUploadProgress "" (setError (Some m) s))) w).
Proof.
  unfold upload_catch. destruct x as [m|]; [destruct (str_truthy m) eqn:E|].
  - by exists m.
  - by exists "Something went wrong".
  - by exists "Something went wrong".
Qed.

(** [uploadVideoAndGetBpm] ends in its [catch], or with a usable [bpm] whose
    text is announced, or, for a usable [bpm] that has no text, in its
    [catch] with that [bpm] set. *)
Lemma upload_on_result_cases r w :
  (exists x, upload_on_result r w = upload_catch x w \/
             upload_on_result r w
             = upload_catch x (with_ui (setUploadProgress "Analyzing heart rate...") w)) \/
  (exists b, truthy b = true /\ stringable b = true /\
     upload_on_result r w
     = alert "Success!" ("Your heart rate is " +:+ to_string b +:+ " BPM")
         (with_ui (fun s => setIsProcessing false (setUploadProgress "" (setBpm b s)))
            (with_ui (setUploadProgress "Analyzing heart rate...") w))) \/
  (exists b res data, truthy b = true /\ stringable b = false /\
     r = Resolved res /\ status res = 200 /\ parsed res = Some data /\
     get data "bpm" = Some b /\
     upload_on_result r w
     = upload_catch (Some to_primitive_error)
         (with_ui (fun s => setIsProcessing false (setUploadProgress "" (setBpm b s)))
            (with_ui (setUploadProgress "Analyzing heart rate...") w))).
Proof.
  unfold upload_on_result. destruct r as [res|m]; [|left; eexists; by left].
  destruct (parsed res) as [data|] eqn:Ep; [|left; eexists; by right].
  destruct (negb (status res =? 200)) eqn:Es.
  - destruct (server_error_message data (status res)); left; eexists; by right.
  - destruct (get data "bpm") as [b|] eqn:Eg; [|left; eexists; by right].
    destruct (truthy b) eqn:E; [|left; eexists; by right].
    cbv zeta. destruct (stringable b) eqn:Ex.
    + right. left. by exists b.
    + right. right. exists b, res, data.
      apply negb_false_iff, Z.eqb_eq in Es. by repeat split.
Qed.

End PulseScanUploadMore.

(** However the upload in flight settles: where the screen is then. *)
Lemma upload_outcome st w i uri r w' :
  PulseScanUpload.reachable st w ->
  PulseScanUpload.pending w !! i = Some (PulseScanUpload.AwaitUpload uri) ->
  PulseScanUpload.step w (PulseScanUpload.UploadSettles i r) = Some w' ->
  PulseScanUpload.showCamera (PulseScanUpload.ui w') = false /\
  PulseScanUpload.pending w' = [] /\
  PulseScanUpload.isRecording (PulseScanUpload.ui w') = false /\
  PulseScanUpload.isProcessing (PulseScanUpload.ui w') = false /\
  PulseScanUpload.uploadProgress (PulseScanUpload.ui w') = "" /\
  ((exists b,
       JSValue.truthy b = true /\ JSValue.stringable b = true /\
       PulseScanUpload.bpm (PulseScanUpload.ui w') = b /\
       PulseScanUpload.error (PulseScanUpload.ui w') = None /\
       PulseScanUpload.alerts w'
       = PulseScanUpload.alerts w
         ++ [("Success!", "Your heart rate is " +:+ JSValue.to_string b +:+ " BPM")]) \/
   (exists m,
       JSValue.str_truthy m = true /\
       PulseScanUpload.error (PulseScanUpload.ui w') = Some m /\
       PulseScanUpload.alerts w' = PulseScanUpload.alerts w ++ [("Error", m)] /\
       (PulseScanUpload.bpm (PulseScanUpload.ui w') = JSValue.VNull \/
        exists res data,
          r = Resolved res /\ PulseScanUpload.status res = 200 /\
          PulseScanUpload.parsed res = Some data /\
          JSValue.get data "bpm" = Some (PulseScanUpload.bpm (PulseScanUpload.ui w')) /\
          JSValue.truthy (PulseScanUpload.bpm (PulseScanUpload.ui w')) = true /\
          JSValue.stringable (PulseScanUpload.bpm (PulseScanUpload.ui w')) = false))).
Proof.
  intros Hr Hl Hs.
  destruct (awaiting_upload _ _ _ _ Hr Hl) as (-> & Hp & Hb & _).
  pose proof (reachable_inv _ _ Hr) as Hi.
  unfold PulseScanUpload.invariant in Hi. rewrite Hp in Hi. destruct Hi as (_ & Hcam & _).
  pose proof (reachable_clean _ _ Hr) as Hc.
  unfold PulseScanUpload.clean_while_awaiting in Hc. rewrite Hp in Hc.
  destruct Hc as [He _].
  simpl in Hs. rewrite Hp in Hs. simpl in Hs. injection Hs as <-.
  destruct (upload_on_result_cases r w)
    as [[x Hx]|[(b & Ht & Hx & ->)|(b & res & data & Ht & Hx & Hres & Hst & Hpa & Hg & ->)]].
  - destruct Hx as [-> | ->];
      match goal with
      | |- context [PulseScanUpload.upload_catch ?x ?w0] =>
          destruct (upload_catch_spec x w0) as (m & Hm & ->)
      end;
      (split; [done|]; split; [done|]; split; [done|]; split; [done|]; split; [done|];
       right; exists m; repeat split; try done; by left).
  - split; [done|]. split; [done|]. split; [done|]. split; [done|]. split; [done|].
    left. exists b. by repeat split.
  - match goal with
    | |- context [PulseScanUpload.upload_catch ?x ?w0] =>
        destruct (upload_catch_spec x w0) as (m & Hm & ->)
    end.
    split; [done|]. split; [done|]. split; [done|]. split; [done|]. split; [done|].
    right. exists m. repeat split; try done.
    right. exists res, data. by repeat split.
Qed.


(** X1.  In the screen of [src/unnamed/part_004], however the upload in
    flight settles, the measurement is over, nothing is marked in progress,
    the progress text is empty and exactly one alert is added.  Either a
    usable [bpm] that has a text is held, no error is, and the alert
    announces the rate; or a non-empty error message is held and shown in
    the alert.  Beside the error no result is held, except after an answer
    of status 200 whose [bpm] is usable but has no text (an object with a
    field [toString], or an array that holds one): making the text of the
    alert throws once [bpm] is set, and that value stays. *)
Theorem every_answer_ends_in_one_alert st w i uri r w' :
  PulseScanUpload.reachable st w ->
  PulseScanUpload.pending w !! i = Some (PulseScanUpload.AwaitUpload uri) ->
  PulseScanUpload.step w (PulseScanUpload.UploadSettles i r) = Some w' ->
  PulseScanUpload.pending w' = [] /\
  PulseScanUpload.isRecording (PulseScanUpload.ui w') = false /\
  PulseScanUpload.isProcessing (PulseScanUpload.ui w') = false /\
  PulseScanUpload.uploadProgress (PulseScanUpload.ui w') = "" /\
  ((exists b,
       JSValue.truthy b = true /\ JSValue.stringable b = true /\
       PulseScanUpload.bpm (PulseScanUpload.ui w') = b /\
       PulseScanUpload.error (PulseScanUpload.ui w') = None /\
       PulseScanUpload.alerts w'
       = PulseScanUpload.alerts w
         ++ [("Success!", "Your heart rate is " +:+ JSValue.to_string b +:+ " BPM")]) \/
   (exists m,
       JSValue.str_truthy m = true /\
       PulseScanUpload.error (PulseScanUpload.ui w') = Some m /\
       PulseScanUpload.alerts w' = PulseScanUpload.alerts w ++ [("Error", m)] /\
       (PulseScanUpload.bpm (PulseScanUpload.ui w') = JSValue.VNull \/
        exists res data,
          r = Resolved res /\ PulseScanUpload.status res = 200 /\
          PulseScanUpload.parsed res = Some data /\
          JSValue.get data "bpm" = Some (PulseScanUpload.bpm (PulseScanUpload.ui w')) /\
          JSValue.truthy (PulseScanUpload.bpm (PulseScanUpload.ui w')) = true /\
          JSValue.stringable (PulseScanUpload.bpm (PulseScanUpload.ui w')) = false))).
Proof.
  intros Hr Hl Hs. exact (proj2 (upload_outcome st w i uri r w' Hr Hl Hs)).
Qed.

(** The theorem for an answer whose [bpm] is an object with a field
    [toString]: the value is held beside the error. *)
Lemma every_answer_ends_in_one_alert_witness :
  exists w',
    PulseScanUpload.step world_uploading
      (PulseScanUpload.UploadSettles 0
         (ok_answer [("bpm", JSValue.VObj [("toString", JSValue.VNull)])])) = Some w' /\
    PulseScanUpload.pending w' = [] /\
    PulseScanUpload.bpm (PulseScanUpload.ui w') = JSValue.VObj [("toString", JSValue.VNull)] /\
    PulseScanUpload.error (PulseScanUpload.ui w') <> None.
Proof.
  eexists. split; [vm_compute; reflexivity|].
  split; [|split; [vm_compute; reflexivity|vm_compute; discriminate]].
  refine (proj1 (every_answer_ends_in_one_alert ∅ world_uploading 0%nat clip
                   (ok_answer [("bpm", JSValue.VObj [("toString", JSValue.VNull)])]) _
                   world_uploading_reachable _ _));
    vm_compute; reflexivity.
Defined.

Section PulseScanUploadErrors.
Import JSNumber JSValue PulseScanUpload.

Lemma lead_plain c : (N_of_ascii c <? 128)%N = true -> lead c = (1, 1)%nat.
Proof.
  intros H. unfold lead. cbv zeta.
  apply N.ltb_lt in H.
  by destruct (N.ltb_spec (N_of_ascii c) 192); [|lia].
Qed.

(** The units of a text that starts with ASCII characters. *)
Lemma units_plain_app p t :
  plain p = true -> units (p +:+ t) = (String.length p + units t)%nat.
Proof.
  unfold units. induction p as [|c p IH]; [done|]. simpl.
  intros [Hc Hp]%andb_true_iff. rewrite (lead_plain c Hc). simpl. by rewrite IH.
Qed.

(** [substring(0, n)] has at most [n] units. *)
Lemma units_take_le s n skip :
  (units_from skip (take_units_from n skip s) <= n)%nat.
Proof.
  revert n skip. induction s as [|c s IH]; intros n skip; simpl; [lia|].
  destruct skip as [|k]; simpl; [|apply IH].
  destruct (Nat.leb_spec (lead c).2 n) as [Hle|Hgt]; simpl.
  - specialize (IH (n - (lead c).2)%nat ((lead c).1 - 1)%nat). lia.
  - destruct n as [|n]; [simpl; lia|].
    unfold high_surrogate.
    destruct s as [|b1 [|b2 [|b3 s]]]; simpl; lia.
Qed.

(** A text of at most [n] units is its own [substring(0, n)]. *)
Lemma take_units_all s n skip :
  (units_from skip s <= n)%nat -> take_units_from n skip s = s.
Proof.
  revert n skip. induction s as [|c s IH]; intros n skip; simpl; [done|].
  destruct skip as [|k]; [|intros H; by rewrite IH].
  intros H. destruct (Nat.leb_spec (lead c).2 n) as [Hle|Hgt]; [|lia].
  rewrite IH; [done|lia].
Qed.

(** Of a body of 120 characters of two bytes each, the first 100 characters
    are kept, which are 200 bytes. *)
Example take_units_counts_units :
  let e_acute := String (ascii_of_nat 195) (String (ascii_of_nat 169) EmptyString) in
  take_units 100 (String.concat "" (repeat e_acute 120))
  = String.concat "" (repeat e_acute 100).
Proof. vm_compute. reflexivity. Qed.

(** On ASCII text the units are the bytes. *)
Lemma take_units_plain s n :
  plain s = true -> take_units_from n 0 s = String.substring 0 n s.
Proof.
  revert n. induction s as [|c s IH]; intros n; simpl; [by destruct n|].
  intros [Hc Hp]%andb_true_iff. rewrite (lead_plain c Hc). simpl.
  destruct n as [|n]; simpl; [done|]. by rewrite Nat.sub_0_r, IH.
Qed.

(** While the recording is awaited the state cells are those of the mount,
    but for [isRecording]. *)
Lemma recording_state st w :
  reachable st w -> pending w = [AwaitRecord] -> ui w = setIsRecording true initial.
Proof.
  induction 1 as [|w e w' Hr IH Hs]; [done|]. intros Hp.
  pose proof (reachable_inv _ _ Hr) as Hi. unfold invariant in Hi.
  destruct w as [s p al up cam sto]; simpl in *.
  destruct p as [|t [|t' p]]; [| |by destruct t].
  - destruct Hi as [Hrec Hproc].
    destruct e; simpl in Hs; try done.
    + rewrite Hrec, Hproc in Hs. destruct (negb (is_null (bpm s))); [discriminate|].
      unfold startMeasurement, startMeasurement_made, cameraRef in Hs. simpl in Hs.
      rewrite Hrec in Hs.
      destruct (showCamera s); simpl in Hs; injection Hs as <-; [|done].
      simpl in *. destruct s; simpl in *. by subst.
    + unfold stopMeasurement in Hs. simpl in Hs.
      repeat (case_match; simplify_eq/=); done.
    + repeat (case_match; simplify_eq/=); done.
  - destruct e; simpl in Hs.
    + destruct t; destruct Hi as (Hrec & _); rewrite Hrec in Hs; discriminate.
    + unfold stopMeasurement in Hs. simpl in Hs.
      repeat (case_match; simplify_eq/=); try done; by apply IH.
    + assert (reset_offered s = false) as Ho.
      { unfold reset_offered, render; simpl.
        destruct t; destruct Hi as (-> & _); simpl; by rewrite andb_false_r. }
      by rewrite Ho in Hs.
    + destruct i; [|by destruct i]. simpl in Hs. destruct t; try done.
      unfold record_settled in Hs.
      repeat (case_match; simplify_eq/=); done.
    + destruct i; [|by destruct i]. simpl in Hs. destruct t; try done.
      unfold upload_on_info in Hs.
      repeat (case_match; simplify_eq/=); done.
    + destruct i; [|by destruct i]. simpl in Hs. destruct t; try done.
      by injection Hs as <-.
    + destruct i; [|by destruct i]. simpl in Hs. destruct t; try done.
      by injection Hs as <-.
Qed.

Lemma Some_eq {A} (a b : A) : Some a = Some b -> a = b.
Proof. by intros [= ->]. Qed.

Lemma step_upload_settles w uri r :
  pending w = [AwaitUpload uri] ->
  step w (UploadSettles 0 r)
  = Some (with_pending [] (record_finally (upload_on_result r w))).
Proof. intros Hp. simpl. by rewrite Hp. Qed.

Lemma upload_on_result_detail w code body fields d :
  code <> 200 ->
  assoc "detail" fields = Some (VStr d) ->
  str_truthy d = true ->
  upload_on_result (Resolved {| status := code; body := body;
                                parsed := Some (VObj fields) |}) w
  = upload_catch (Some d) (with_ui (setUploadProgress "Analyzing heart rate...") w).
Proof.
  intros Hcode Hd Ht.
  assert (server_error_message (VObj fields) code = Some d) as Hm.
  { unfold server_error_message, get. rewrite Hd. by destruct d. }
  unfold upload_on_result. cbn [parsed status].
  apply Z.eqb_neq in Hcode. by rewrite Hcode, Hm.
Qed.

End PulseScanUploadErrors.

(** X2.  In the screen of [src/unnamed/part_004], an answer whose status is
    not 200 and whose parsed body is an object with a non-empty text as
    [detail] ends the measurement in failure, whatever else the object holds
    (a [bpm] included): the error held and the alert added are that text, and
    no result is held. *)
Theorem server_detail_is_the_error st w i uri code body fields d w' :
  PulseScanUpload.reachable st w ->
  PulseScanUpload.pending w !! i = Some (PulseScanUpload.AwaitUpload uri) ->
  code <> 200 ->
  JSValue.assoc "detail" fields = Some (JSValue.VStr d) ->
  JSValue.str_truthy d = true ->
  PulseScanUpload.step w
    (PulseScanUpload.UploadSettles i
       (Resolved {| PulseScanUpload.status := code; PulseScanUpload.body := body;
                    PulseScanUpload.parsed := Some (JSValue.VObj fields) |})) = Some w' ->
  PulseScanUpload.pending w' = [] /\
  PulseScanUpload.error (PulseScanUpload.ui w') = Some d /\
  PulseScanUpload.bpm (PulseScanUpload.ui w') = JSValue.VNull /\
  PulseScanUpload.alerts w' = PulseScanUpload.alerts w ++ [("Error", d)] /\
  PulseScanUpload.error_text (PulseScanUpload.render (PulseScanUpload.ui w'))
  = Some ("Error: " +:+ d).
Proof.
  intros Hr Hl Hcode Hd Ht Hs.
  destruct (awaiting_upload _ _ _ _ Hr Hl) as (-> & Hp & Hb & _).
  rewrite (step_upload_settles w uri _ Hp) in Hs. apply Some_eq in Hs. subst w'.
  rewrite (upload_on_result_detail w code body fields d Hcode Hd Ht).
  unfold PulseScanUpload.upload_catch. rewrite Ht.
  cbn. rewrite Hb. destruct d; [done|]. by repeat split.
Qed.

(** The theorem for a 500 answer with the detail of the specification. *)
Lemma server_detail_is_the_error_witness :
  exists w',
    PulseScanUpload.step world_uploading
      (PulseScanUpload.UploadSettles 0
         (Resolved {| PulseScanUpload.status := 500; PulseScanUpload.body := "";
                      PulseScanUpload.parsed :=
                        Some (JSValue.VObj [("detail", JSValue.VStr "decode error")]) |}))
    = Some w' /\
    PulseScanUpload.error (PulseScanUpload.ui w') = Some "decode error".
Proof.
  eexists. split; [vm_compute; reflexivity|].
  refine (proj1 (proj2 (server_detail_is_the_error ∅ world_uploading 0%nat clip 500 ""
                          [("detail", JSValue.VStr "decode error")] "decode error" _
                          world_uploading_reachable _ _ _ _ _)));
    try (vm_compute; reflexivity). done.
Defined.

(** X3.  In the screen of [src/unnamed/part_004], an answer whose body is not
    JSON ends the measurement in failure whatever its status, 200 included:
    the error held and shown is the fixed prefix followed by the first 100
    UTF-16 units of the body (a character outside the basic plane counts
    for two, and may be cut in its middle), so at most 134 units, and no
    result is held.  A body of at most 100 units is quoted whole, and for a
    body of ASCII characters the units quoted are its first 100
    characters. *)
Theorem unparsable_body_is_quoted st w i uri code body w' :
  PulseScanUpload.reachable st w ->
  PulseScanUpload.pending w !! i = Some (PulseScanUpload.AwaitUpload uri) ->
  PulseScanUpload.step w
    (PulseScanUpload.UploadSettles i
       (Resolved {| PulseScanUpload.status := code; PulseScanUpload.body := body;
                    PulseScanUpload.parsed := None |})) = Some w' ->
  let m := "Server returned invalid response: " +:+ JSValue.take_units 100 body in
  PulseScanUpload.pending w' = [] /\
  PulseScanUpload.error (PulseScanUpload.ui w') = Some m /\
  PulseScanUpload.bpm (PulseScanUpload.ui w') = JSValue.VNull /\
  PulseScanUpload.alerts w' = PulseScanUpload.alerts w ++ [("Error", m)] /\
  (JSValue.units (JSValue.take_units 100 body) <= 100)%nat /\
  (JSValue.units m <= 134)%nat /\
  ((JSValue.units body <= 100)%nat -> JSValue.take_units 100 body = body) /\
  (plain body = true -> JSValue.take_units 100 body = String.substring 0 100 body).
Proof.
  intros Hr Hl Hs m.
  destruct (awaiting_upload _ _ _ _ Hr Hl) as (-> & Hp & Hb & _).
  rewrite (step_upload_settles w uri _ Hp) in Hs. apply Some_eq in Hs. subst w'.
  unfold PulseScanUpload.upload_on_result.
  cbn [PulseScanUpload.parsed PulseScanUpload.body].
  fold m. unfold PulseScanUpload.upload_catch.
  assert (JSValue.str_truthy m = true) as -> by done.
  pose proof (units_take_le body 100 0) as Hu.
  cbn. rewrite Hb. repeat split; try done.
  - unfold m. rewrite units_plain_app by reflexivity. simpl.
    unfold JSValue.units, JSValue.take_units. lia.
  - intros Hle. by apply take_units_all.
  - intros Hpl. by apply take_units_plain.
Qed.

(** The theorem for an HTML error page as the answer. *)
Lemma unparsable_body_is_quoted_witness :
  exists w',
    PulseScanUpload.step world_uploading
      (PulseScanUpload.UploadSettles 0
         (Resolved {| PulseScanUpload.status := 502; PulseScanUpload.body := "<html>Bad Gateway</html>";
                      PulseScanUpload.parsed := None |}))
    = Some w' /\
    PulseScanUpload.error (PulseScanUpload.ui w')
    = Some "Server returned invalid response: <html>Bad Gateway</html>".
Proof.
  eexists. split; [vm_compute; reflexivity|].
  refine (proj1 (proj2 (unparsable_body_is_quoted ∅ world_uploading 0%nat clip 502
                          "<html>Bad Gateway</html>" _
                          world_uploading_reachable _ _)));
    vm_compute; reflexivity.
Defined.

Section PulseScanUploadRecording.
Import JSNumber JSValue PulseScanUpload.

Lemma step_record_rejected w m :
  pending w = [AwaitRecord] ->
  step w (RecordSettles 0 (Rejected m))
  = Some (with_pending [] (record_finally (record_catch m w))).
Proof. intros Hp. simpl. by rewrite Hp. Qed.

End PulseScanUploadRecording.

(** X4.  In the screen of [src/unnamed/part_004], when the recording awaited
    is rejected the measurement is over, and: for an error without message,
    with an empty one, with the message Aborted, or with a message that
    mentions stopRecording or says the recording was already stopped, nothing
    is shown and the state cells are those of the mount; for any other
    message, it becomes the error held, one alert shows it, and the other
    state cells are those of the mount. *)
Theorem stop_noise_is_silent st w i m w' :
  PulseScanUpload.reachable st w ->
  PulseScanUpload.pending w !! i = Some PulseScanUpload.AwaitRecord ->
  PulseScanUpload.step w (PulseScanUpload.RecordSettles i (Rejected m)) = Some w' ->
  PulseScanUpload.pending w' = [] /\
  (m = None \/ m = Some "" \/ m = Some "Aborted" \/
   (exists s, m = Some s /\
      (JSValue.includes "stopRecording" s = true \/
       JSValue.includes "Recording already stopped" s = true)) ->
   PulseScanUpload.ui w' = PulseScanUpload.initial /\
   PulseScanUpload.alerts w' = PulseScanUpload.alerts w) /\
  (forall s, m = Some s ->
     JSValue.str_truthy s = true -> s <> "Aborted" ->
     JSValue.includes "stopRecording" s = false ->
     JSValue.includes "Recording already stopped" s = false ->
     PulseScanUpload.ui w' = PulseScanUpload.setError (Some s) PulseScanUpload.initial /\
     PulseScanUpload.alerts w' = PulseScanUpload.alerts w ++ [("Error", s)]).
Proof.
  intros Hr Hl Hs.
  destruct (reachable_pending _ _ _ _ Hr Hl) as [-> Hp].
  pose proof (recording_state _ _ Hr Hp) as Hu.
  rewrite (step_record_rejected w m Hp) in Hs. apply Some_eq in Hs. subst w'.
  split; [done|]. split.
  - intros Hm.
    assert (PulseScanUpload.record_catch m w = w) as ->.
    { unfold PulseScanUpload.record_catch.
      destruct Hm as [->|[->|[->|(s & -> & [Hi|Hi])]]]; try done.
      - rewrite Hi. simpl. by rewrite andb_false_r.
      - rewrite Hi. simpl. by rewrite andb_false_r. }
    split; [|done]. simpl. by rewrite Hu.
  - intros s -> Ht Hne Hi1 Hi2.
    unfold PulseScanUpload.record_catch. rewrite Ht, Hi1, Hi2.
    apply String.eqb_neq in Hne. rewrite Hne. simpl. rewrite Hu. by split.
Qed.

(** The theorem for the message Aborted, on the screen that records. *)
Lemma stop_noise_is_silent_witness :
  exists w',
    PulseScanUpload.step (PulseScanUpload.startMeasurement (PulseScanUpload.mount ∅))
      (PulseScanUpload.RecordSettles 0 (Rejected (Some "Aborted"))) = Some w' /\
    PulseScanUpload.pending w' = [].
Proof.
  eexists. split; [vm_compute; reflexivity|].
  refine (proj1 (stop_noise_is_silent ∅
                   (PulseScanUpload.startMeasurement (PulseScanUpload.mount ∅))
                   0%nat (Some "Aborted") _ _ _ _));
    [|vm_compute; reflexivity|vm_compute; reflexivity].
  apply (run_reachable ∅ (PulseScanUpload.mount ∅) [PulseScanUpload.PressStart]);
    [apply PulseScanUpload.reach_mount|vm_compute; reflexivity].
Defined.

(** X5.  In the screen of [src/unnamed/part_004] the card with the progress
    text is on screen in no reachable state: while the file information or
    the upload is awaited [isRecording] still holds, so the card is the
    recording one, with the camera unmounted, the torch off, and a Stop
    button that does nothing. *)
Theorem progress_card_is_never_shown st w :
  PulseScanUpload.reachable st w ->
  (forall text hint,
      PulseScanUpload.card_ (PulseScanUpload.render (PulseScanUpload.ui w))
      <> PulseScanUpload.CardProcessing text hint) /\
  (forall i uri,
      PulseScanUpload.pending w !! i = Some (PulseScanUpload.AwaitFileInfo uri) \/
      PulseScanUpload.pending w !! i = Some (PulseScanUpload.AwaitUpload uri) ->
      PulseScanUpload.card_ (PulseScanUpload.render (PulseScanUpload.ui w))
      = PulseScanUpload.CardRecording /\
      PulseScanUpload.camera_mounted (PulseScanUpload.render (PulseScanUpload.ui w)) = false /\
      PulseScanUpload.torch (PulseScanUpload.render (PulseScanUpload.ui w)) = false /\
      PulseScanUpload.stopMeasurement w = w).
Proof.
  intros Hr. pose proof (reachable_inv _ _ Hr) as Hi.
  unfold PulseScanUpload.invariant in Hi.
  split.
  - intros text hint. unfold PulseScanUpload.render. simpl.
    destruct (PulseScanUpload.pending w) as [|t [|t' p]]; [| |by destruct t].
    + destruct Hi as [-> ->]. by destruct (negb _).
    + by destruct t; destruct Hi as (-> & _).
  - intros i uri Hl.
    assert (PulseScanUpload.isRecording (PulseScanUpload.ui w) = true /\
            PulseScanUpload.showCamera (PulseScanUpload.ui w) = false) as [Hrec Hcam].
    { destruct Hl as [Hl|Hl];
        destruct (reachable_pending _ _ _ _ Hr Hl) as [_ Hp]; rewrite Hp in Hi;
        by destruct Hi as (? & ? & _). }
    unfold PulseScanUpload.render, PulseScanUpload.stopMeasurement, PulseScanUpload.cameraRef.
    simpl. by rewrite Hrec, Hcam.
Qed.

(** The theorem at the state of the examples with the upload in flight. *)
Lemma progress_card_is_never_shown_witness :
  PulseScanUpload.card_ (PulseScanUpload.render (PulseScanUpload.ui world_uploading))
  = PulseScanUpload.CardRecording.
Proof.
  refine (proj1 (proj2 (progress_card_is_never_shown ∅ world_uploading
                          world_uploading_reachable) 0%nat clip _)).
  right. vm_compute. reflexivity.
Defined.

(** X6.  In the screen of [src/unnamed/part_004], however the upload in
    flight settles, the camera stays hidden: [startMeasurement] then only
    alerts that the camera is not ready and starts nothing, while the reset is
    on offer; after [resetForNewMeasurement], [startMeasurement] records
    again. *)
Theorem after_upload_start_needs_reset st w i uri r w' :
  PulseScanUpload.reachable st w ->
  PulseScanUpload.pending w !! i = Some (PulseScanUpload.AwaitUpload uri) ->
  PulseScanUpload.step w (PulseScanUpload.UploadSettles i r) = Some w' ->
  PulseScanUpload.camera_mounted (PulseScanUpload.render (PulseScanUpload.ui w')) = false /\
  PulseScanUpload.startMeasurement w'
  = PulseScanUpload.alert "Error" "Camera not ready yet" w' /\
  PulseScanUpload.reset_offered (PulseScanUpload.ui w') = true /\
  PulseScanUpload.pending
    (PulseScanUpload.startMeasurement (PulseScanUpload.resetForNewMeasurement w'))
  = [PulseScanUpload.AwaitRecord] /\
  PulseScanUpload.torch (PulseScanUpload.render (PulseScanUpload.ui
    (PulseScanUpload.startMeasurement (PulseScanUpload.resetForNewMeasurement w')))) = true.
Proof.
  intros Hr Hl Hs.
  destruct (upload_outcome st w i uri r w' Hr Hl Hs)
    as (Hcam & Hp & Hrec & Hproc & _ & Hres).
  split; [done|]. split.
  { unfold PulseScanUpload.startMeasurement, PulseScanUpload.startMeasurement_made,
      PulseScanUpload.cameraRef. by rewrite Hcam. }
  split.
  { unfold PulseScanUpload.reset_offered, PulseScanUpload.render. simpl.
    rewrite Hrec, Hproc. simpl.
    destruct Hres as [(b & Ht & _ & Hb & _)|(m & Ht & He & _)].
    - rewrite Hb. by destruct b.
    - rewrite He. simpl. rewrite Ht. by destruct (PulseScanUpload.is_null _). }
  unfold PulseScanUpload.startMeasurement, PulseScanUpload.startMeasurement_made,
    PulseScanUpload.resetForNewMeasurement, PulseScanUpload.cameraRef.
  simpl. rewrite Hrec. simpl. by rewrite Hp.
Qed.

(** The theorem for the answer [{ bpm: 72 }] to the measurement of the
    examples. *)
Lemma after_upload_start_needs_reset_witness :
  exists w',
    PulseScanUpload.step world_uploading
      (PulseScanUpload.UploadSettles 0 (ok_answer [("bpm", JSValue.num 72)])) = Some w' /\
    PulseScanUpload.startMeasurement w'
    = PulseScanUpload.alert "Error" "Camera not ready yet" w'.
Proof.
  eexists. split; [vm_compute; reflexivity|].
  refine (proj1 (proj2 (after_upload_start_needs_reset ∅ world_uploading 0%nat clip
                          (ok_answer [("bpm", JSValue.num 72)]) _
                          world_uploading_reachable _ _)));
    vm_compute; reflexivity.
Defined.

(** ** The file name of the clip ([src/screens/PulseScanScreen.js]) *)
Section FileName.
Import JSValue PulseScanScreen.

Lemma append_cons c (s t : string) : String c s +:+ t = String c (s +:+ t).
Proof. reflexivity. Qed.

Lemma append_empty_l (t : string) : EmptyString +:+ t = t.
Proof. reflexivity. Qed.

Lemma slash_free_app s t : slash_free (s +:+ t) = slash_free s && slash_free t.
Proof.
  induction s as [|c s IH]; [done|].
  rewrite append_cons. simpl. by rewrite IH, andb_assoc.
Qed.

Lemma last_segment_slash_free s acc :
  slash_free acc = true -> slash_free (last_segment s acc) = true.
Proof.
  revert acc. induction s as [|c s IH]; intros acc Ha; simpl; [done|].
  destruct (Ascii.eqb c "/"%char) eqn:E; [by apply IH|].
  apply IH. rewrite slash_free_app, Ha. simpl. by rewrite E.
Qed.

Lemma append_assoc (a b c : string) : (a +:+ b) +:+ c = a +:+ (b +:+ c).
Proof. induction a as [|x a IH]; [done|]. rewrite !append_cons. by f_equal. Qed.

Lemma append_empty_r (a : string) : a +:+ EmptyString = a.
Proof. induction a as [|x a IH]; [done|]. rewrite append_cons. by f_equal. Qed.

Lemma last_segment_name name acc :
  slash_free name = true -> last_segment name acc = acc +:+ name.
Proof.
  revert acc. induction name as [|c s IH]; intros acc Hn; simpl.
  - by rewrite append_empty_r.
  - simpl in Hn. apply andb_true_iff in Hn as [Hc Hs].
    apply negb_true_iff in Hc. rewrite Hc. rewrite IH by done.
    by rewrite append_assoc.
Qed.

Lemma last_segment_app dir rest acc :
  last_segment (dir +:+ rest) acc = last_segment rest (last_segment dir acc).
Proof.
  revert acc. induction dir as [|c s IH]; intros acc; [done|].
  rewrite append_cons. simpl. by destruct (Ascii.eqb c "/"%char).
Qed.

End FileName.

(** X7.  The name given to the uploaded part in
    [src/screens/PulseScanScreen.js] is never empty and never holds a slash;
    for a path that ends in a slash, or is empty, it is ppg_video.mp4, and for
    a path made of anything followed by a slash and a non-empty name without
    slash it is that name. *)
Theorem file_name_is_last_segment dir name :
  JSValue.str_truthy (PulseScanScreen.fileName (dir +:+ "/" +:+ name)) = true /\
  slash_free (PulseScanScreen.fileName (dir +:+ "/" +:+ name)) = true /\
  PulseScanScreen.fileName (dir +:+ "/") = "ppg_video.mp4" /\
  PulseScanScreen.fileName "" = "ppg_video.mp4" /\
  (slash_free name = true -> JSValue.str_truthy name = true ->
   PulseScanScreen.fileName (dir +:+ "/" +:+ name) = name).
Proof.
  assert (forall s, JSValue.str_truthy (PulseScanScreen.fileName s) = true /\
                    slash_free (PulseScanScreen.fileName s) = true) as Hall.
  { intros s. unfold PulseScanScreen.fileName.
    destruct (JSValue.str_truthy (PulseScanScreen.last_segment s "")) eqn:E; [|done].
    split; [done|]. by apply last_segment_slash_free. }
  split; [apply Hall|]. split; [apply Hall|].
  assert (forall acc, PulseScanScreen.last_segment (dir +:+ "/") acc = "") as Hdir.
  { intros acc. by rewrite last_segment_app. }
  split.
  { unfold PulseScanScreen.fileName. by rewrite Hdir. }
  split; [done|].
  intros Hn Ht. unfold PulseScanScreen.fileName.
  rewrite <- append_assoc, last_segment_app, Hdir, last_segment_name by done.
  rewrite append_empty_l. by rewrite Ht.
Qed.

(** The theorem for the path of a clip in a cache directory. *)
Lemma file_name_is_last_segment_witness :
  PulseScanScreen.fileName ("file:///cache/Camera" +:+ "/" +:+ "clip.mp4") = "clip.mp4".
Proof.
  apply (proj2 (proj2 (proj2 (proj2
           (file_name_is_last_segment "file:///cache/Camera" "clip.mp4")))));
    reflexivity.
Defined.

(** ** The pulse screen of [src/screens/PulseScanScreen.js] *)
Section PulseScanScreenFacts.
Import JSValue PulseScanScreen.

Lemma fetch_inv_step w e w' : invariant w -> step w e = Some w' -> invariant w'.
Proof.
  unfold invariant. intros Hi Hs.
  destruct w as [s p al up cam sto]; simpl in *.
  destruct p as [|t [|t' p]]; [| |done].
  - destruct e; simpl in Hs; try done.
    unfold render in Hs. simpl in Hs. rewrite Hi in Hs. simpl in Hs.
    by injection Hs as <-.
  - destruct Hi as (Hr & He & Hb).
    destruct e; simpl in Hs.
    + unfold render in Hs. simpl in Hs. by rewrite Hr in Hs.
    + destruct i; [|by destruct i]. simpl in Hs. destruct t; try done.
      unfold record_settled, record_catch, upload_begin in Hs.
      repeat (case_match; simplify_eq/=); done.
    + destruct i; [|by destruct i]. simpl in Hs. destruct t; try done.
      repeat (case_match; simplify_eq/=); done.
    + destruct i; [|by destruct i]. simpl in Hs. destruct t; try done.
      by injection Hs as <-.
Qed.

Lemma fetch_reachable_inv st w : reachable st w -> invariant w.
Proof.
  induction 1 as [|w e w' _ IH Hs]; [done | exact (fetch_inv_step _ _ _ IH Hs)].
Qed.

Lemma fetch_run_reachable st w es w' :
  reachable st w -> run w es = Some w' -> reachable st w'.
Proof.
  revert w. induction es as [|e es IH]; intros w Hr Hrun; simpl in Hrun.
  - by apply Some_eq in Hrun as <-.
  - destruct (step w e) as [w1|] eqn:Hs; [|done].
    exact (IH w1 (reach_step st w e w1 Hr Hs) Hrun).
Qed.

End PulseScanScreenFacts.



(** X9.  In the screen of [src/screens/PulseScanScreen.js], when the
    recording awaited fails or gives no video the measurement is over and
    the failure is shown by an alert at most, never held as the error of the
    screen: for a message that mentions another recording in progress the
    alert is the camera-busy one, for the message Aborted, an empty one or
    none there is no alert, and otherwise the alert shows the message; a
    recording that resolves without video is alerted as no video captured. *)
Theorem recording_failures_are_only_alerted st w i r w' :
  PulseScanScreen.reachable st w ->
  PulseScanScreen.pending w !! i = Some PulseScanScreen.AwaitRecord ->
  (r = Resolved None \/ exists m, r = Rejected m) ->
  PulseScanScreen.step w (PulseScanScreen.RecordSettles i r) = Some w' ->
  PulseScanScreen.pending w' = [] /\
  PulseScanScreen.error (PulseScanScreen.ui w') = None /\
  PulseScanScreen.uploads w' = PulseScanScreen.uploads w /\
  PulseScanScreen.alerts w'
  = PulseScanScreen.alerts w ++
    match r with
    | Resolved _ => [("Error", "No video captured")]
    | Rejected None => []
    | Rejected (Some m) =>
        if JSValue.includes "Another recording in progress" m
        then [("Camera Busy", "Please try again.")]
        else if JSValue.str_truthy m && negb (String.eqb m "Aborted")
             then [("Error", m)] else []
    end.
Proof.
  intros Hr Hl Hcase Hs.
  pose proof (fetch_reachable_inv _ _ Hr) as Hi.
  unfold PulseScanScreen.invariant in Hi.
  destruct (PulseScanScreen.pending w) as [|t [|t' p]] eqn:Hp; [done| |done].
  destruct i; [|done]. apply Some_eq in Hl. subst t.
  destruct Hi as (_ & He & _).
  simpl in Hs. rewrite Hp in Hs. simpl in Hs.
  destruct Hcase as [->|[m ->]]; simpl in Hs; apply Some_eq in Hs; subst w'.
  - by rewrite app_nil_r || (simpl; repeat split; done).
  - unfold PulseScanScreen.record_catch.
    destruct m as [m|]; [|simpl; by rewrite app_nil_r].
    destruct (JSValue.includes _ m); [done|].
    destruct (_ && _); simpl; [done|by rewrite app_nil_r].
Qed.

(** The theorem for a recording rejected because the camera is busy. *)
Lemma recording_failures_are_only_alerted_witness :
  exists w',
    PulseScanScreen.step (PulseScanScreen.startMeasurement (PulseScanScreen.mount ∅))
      (PulseScanScreen.RecordSettles 0 (Rejected (Some "Another recording in progress")))
    = Some w' /\
    PulseScanScreen.error (PulseScanScreen.ui w') = None.
Proof.
  eexists. split; [vm_compute; reflexivity|].
  refine (proj1 (proj2 (recording_failures_are_only_alerted ∅
                          (PulseScanScreen.startMeasurement (PulseScanScreen.mount ∅))
                          0%nat (Rejected (Some "Another recording in progress")) _ _ _ _ _)));
    [|vm_compute; reflexivity|right; by eexists|vm_compute; reflexivity].
  apply (fetch_run_reachable ∅ (PulseScanScreen.mount ∅) [PulseScanScreen.PressStart]);
    [apply PulseScanScreen.reach_mount|vm_compute; reflexivity].
Defined.

(** ** The sampling screen of [src/unnamed/part_005] *)
Section PulseScreenFacts.
Import JSNumber PulseScreen.

Lemma round64_cases q : (exists v, round64 q = Fin v) \/ (exists s, round64 q = Inf s).
Proof.
  unfold round64. destruct (Qeq_bool q 0); [left; by eexists|]. cbv zeta.
  destruct (Qle_bool _ _); [right|left]; by eexists.
Qed.

Lemma small_numbers :
  of_Z 20 = Fin (20 # 1) /\ of_Z 60 = Fin (60 # 1) /\ of_Z 30 = Fin (30 # 1) /\
  of_Z 180 = Fin (180 # 1) /\ of_Z 70 = Fin (inject_Z 70).
Proof. repeat split; vm_compute; reflexivity. Qed.

(** The rate before the range test: a whole number or an infinity. *)
Lemma raw_rate_cases p :
  (exists z, floor (mul (div (of_Z p) (Fin (20 # 1))) (Fin (60 # 1))) = Fin (inject_Z z)) \/
  (exists s, floor (mul (div (of_Z p) (Fin (20 # 1))) (Fin (60 # 1))) = Inf s).
Proof.
  assert (forall y, y <> NaN ->
            (exists z, floor (mul y (Fin (60 # 1))) = Fin (inject_Z z)) \/
            (exists s, floor (mul y (Fin (60 # 1))) = Inf s)) as Hmul.
  { intros [|s|a] Hy; [done|right; by eexists|].
    unfold mul. destruct (round64_cases (a * (60 # 1))) as [[v ->]|[s ->]].
    - left. by eexists.
    - right. by eexists. }
  apply Hmul. unfold of_Z.
  destruct (round64_cases (inject_Z p)) as [[v ->]|[s ->]]; [|done].
  unfold div. change (Qeq_bool (20 # 1) 0) with false. cbv iota.
  by destruct (round64_cases (v / (20 # 1))) as [[u ->]|[s ->]].
Qed.

Lemma calculateBpm_range values :
  exists z, 30 <= z <= 180 /\ calculateBpm values = Fin (inject_Z z).
Proof.
  unfold calculateBpm. cbv zeta.
  destruct small_numbers as (-> & -> & -> & -> & ->).
  generalize (match values with
              | prev :: cur :: rest => count_peaks prev cur rest
              | _ => 0
              end). intros p.
  destruct (raw_rate_cases p) as [[z ->]|[s ->]].
  - unfold gt, Qlt_bool.
    destruct (Qle_bool (inject_Z z) (30 # 1)) eqn:E1; simpl.
    + destruct (Qle_bool (30 # 1) (inject_Z z)) eqn:E0; simpl.
      * destruct (Qle_bool (inject_Z z) (180 # 1)) eqn:E2; simpl; [|exists 70; by split].
        exists z. split; [|done].
        apply Qle_bool_iff in E0, E2.
        change (30 # 1) with (inject_Z 30) in E0. change (180 # 1) with (inject_Z 180) in E2.
        rewrite <- Zle_Qle in E0, E2. lia.
      * exists 70. by split.
    + destruct (Qle_bool (30 # 1) (inject_Z z)) eqn:E0; simpl; [|exists 70; by split].
      destruct (Qle_bool (inject_Z z) (180 # 1)) eqn:E2; simpl; [|exists 70; by split].
      exists z. split; [|done].
      apply Qle_bool_iff in E0, E2.
      change (30 # 1) with (inject_Z 30) in E0. change (180 # 1) with (inject_Z 180) in E2.
      rewrite <- Zle_Qle in E0, E2. lia.
  - exists 70. split; [lia|]. by destruct s.
Qed.

(** [calculateBpm] looks at its samples through the number of peaks only. *)
Lemma calculateBpm_peaks values : calculateBpm values = rate_from (peaks values).
Proof. reflexivity. Qed.

Lemma gt_asym x y : gt x y = true -> gt y x = false.
Proof.
  destruct x as [|a|a], y as [|b|b]; simpl; try done.
  - by destruct a, b.
  - by destruct a.
  - by destruct b.
  - unfold Qlt_bool. intros H. apply negb_true_iff in H. apply negb_false_iff.
    apply Qle_bool_iff. apply Qnot_lt_le. intros Hlt.
    apply Qlt_le_weak in Hlt. apply Qle_bool_iff in Hlt. congruence.
Qed.

(** Two neighbours are never both peaks: of the samples between the first
    and the last at most every other one is counted. *)
Lemma count_peaks_bound rest prev cur :
  0 <= count_peaks prev cur rest /\
  2 * count_peaks prev cur rest
  <= Z.of_nat (length rest) + (if gt cur prev then 1 else 0).
Proof.
  revert prev cur. induction rest as [|next rest IH]; intros prev cur; simpl count_peaks.
  - simpl. destruct (gt cur prev); lia.
  - destruct (IH cur next) as [H0 H1].
    rewrite length_cons, Nat2Z.inj_succ.
    destruct (gt cur prev) eqn:E1; simpl.
    + destruct (gt cur next) eqn:E2; simpl.
      * rewrite (gt_asym _ _ E2) in H1. destruct (gt cur (of_Z 200)); lia.
      * destruct (gt next cur); lia.
    + destruct (gt next cur); lia.
Qed.

Lemma peaks_bound values :
  0 <= peaks values /\ 2 * peaks values <= Z.of_nat (length values).
Proof.
  destruct values as [|prev [|cur rest]]; simpl; try lia.
  destruct (count_peaks_bound rest prev cur) as [H0 H1].
  split; [done|]. destruct (gt cur prev); lia.
Qed.

(** The rates for up to 60 peaks, each one computed. *)
Lemma rate_table :
  forallb (fun n => same_number (rate_from (Z.of_nat n))
                      (Fin (inject_Z (rate_of_peaks (Z.of_nat n)))))
    (seq 0 61) = true.
Proof. vm_compute. reflexivity. Qed.

Lemma same_number_eq x y : same_number x y = true -> x = y.
Proof.
  destruct x as [| |[a b]], y as [| |[c d]]; try done. simpl.
  intros [H1 H2]%andb_true_iff.
  apply Z.eqb_eq in H1. apply Pos.eqb_eq in H2. by subst.
Qed.

Lemma rate_from_table p :
  0 <= p <= 60 -> rate_from p = Fin (inject_Z (rate_of_peaks p)).
Proof.
  intros Hp. pose proof rate_table as H.
  rewrite forallb_forall in H.
  specialize (H (Z.to_nat p)). rewrite Z2Nat.id in H by lia.
  apply same_number_eq, H, in_seq. lia.
Qed.

Lemma pow2_pos e : (0 < pow2 e)%Q.
Proof. apply Qpower_0_lt. reflexivity. Qed.

Lemma pow2_of_Z e : 0 <= e -> (pow2 e == inject_Z (2 ^ e))%Q.
Proof. intros He. unfold pow2. by rewrite Zpower_Qpower. Qed.

Lemma pow2_add a b : (pow2 (a + b) == pow2 a * pow2 b)%Q.
Proof. unfold pow2. apply Qpower_plus. discriminate. Qed.

Lemma pow2_le a b : a <= b -> (pow2 a <= pow2 b)%Q.
Proof. intros H. unfold pow2. apply Qpower_le_compat_l; [done|]. discriminate. Qed.

Lemma Qdiv_pow2_r x e : (x / pow2 e * pow2 e == x)%Q.
Proof. field. pose proof (pow2_pos e) as H. intros E. rewrite E in H. discriminate. Qed.

Lemma Qdiv_le_pow2 x y e : (x <= y)%Q -> (x / pow2 e <= y / pow2 e)%Q.
Proof.
  intros H. unfold Qdiv. apply Qmult_le_compat_r; [done|].
  apply Qlt_le_weak, Qinv_lt_0_compat, pow2_pos.
Qed.

Lemma floor_log2_le a : (0 < a)%Q -> (pow2 (floor_log2 a) <= a)%Q.
Proof.
  intros Ha. unfold floor_log2. cbv zeta.
  destruct (Qle_bool _ a) eqn:E; [by apply Qle_bool_iff|].
  destruct a as [n d]. simpl Qnum. simpl Qden.
  assert (0 < n) as Hn by (unfold Qlt in Ha; simpl in Ha; lia).
  pose proof (Z.log2_spec n Hn) as [H1 _].
  pose proof (Z.log2_spec (Z.pos d) (Pos2Z.is_pos d)) as [_ H2].
  pose proof (Z.log2_nonneg n) as L1. pose proof (Z.log2_nonneg (Z.pos d)) as L2.
  set (l1 := Z.log2 n) in *. set (l2 := Z.log2 (Z.pos d)) in *.
  replace (l1 - l2 - 1) with (l1 + - (l2 + 1)) by lia.
  rewrite pow2_add. unfold pow2 at 2. rewrite Qpower_opp. fold (pow2 (l2 + 1)).
  rewrite !pow2_of_Z by lia.
  rewrite (Qmake_Qdiv n d).
  fold (Qdiv (inject_Z (2 ^ l1)) (inject_Z (2 ^ (l2 + 1)))).
  assert (0 < inject_Z (2 ^ (l2 + 1)))%Q as Hp.
  { rewrite <- pow2_of_Z by lia. apply pow2_pos. }
  assert (0 < inject_Z (Z.pos d))%Q as Hd by (unfold Qlt; simpl; lia).
  apply Qle_shift_div_r; [done|].
  apply Qle_trans with (inject_Z n); [rewrite <- Zle_Qle; lia|].
  assert (inject_Z n / inject_Z (Z.pos d) * inject_Z (2 ^ (l2 + 1))
          == inject_Z n * inject_Z (2 ^ (l2 + 1)) / inject_Z (Z.pos d))%Q as ->.
  { field. intros E0. rewrite E0 in Hd. discriminate. }
  apply Qle_shift_div_l; [done|].
  rewrite <- !inject_Z_mult, <- Zle_Qle. unfold Z.succ in H2. nia.
Qed.

Lemma round_half_even_ge t : Qfloor t <= round_half_even t.
Proof. unfold round_half_even. cbv zeta. destruct (_ ?= _)%Q; [destruct (Z.even _)|..]; lia. Qed.

(** Rounding does not go below a dyadic number of at most 53 bits that the
    real is not below. *)
Lemma round64_ge n k q :
  0 < n <= 2 ^ 53 -> 0 <= k <= 1074 ->
  (inject_Z n * pow2 (- k) <= q)%Q ->
  round64 q = Inf false \/
  exists v, round64 q = Fin v /\ (inject_Z n * pow2 (- k) <= v)%Q.
Proof.
  intros Hn Hk Hq. set (c := (inject_Z n * pow2 (- k))%Q) in *.
  assert (0 < c)%Q as Hc.
  { unfold c. apply Qmult_lt_0_compat; [|apply pow2_pos]. unfold Qlt; simpl; lia. }
  assert (0 < q)%Q as Hq0 by (eapply Qlt_le_trans; eassumption).
  unfold round64.
  assert (Qeq_bool q 0 = false) as ->.
  { apply not_true_is_false. intros E. apply Qeq_bool_iff in E. rewrite E in Hq0. discriminate. }
  assert (Qlt_bool q 0 = false) as ->.
  { unfold Qlt_bool. apply negb_false_iff, Qle_bool_iff. by apply Qlt_le_weak. }
  cbv zeta.
  assert (Qabs q == q)%Q as Ha by (apply Qabs_pos; by apply Qlt_le_weak).
  assert (0 < Qabs q)%Q as Ha0 by (by rewrite Ha).
  set (a := Qabs q) in *.
  set (p := Z.max (floor_log2 a - 52) (-1074)).
  set (r := round_half_even (a / pow2 p)).
  assert (c <= inject_Z r * pow2 p)%Q as Hv.
  { destruct (Z.le_gt_cases p (- k)) as [Hp|Hp].
    - (* the spacing divides c *)
      assert (c / pow2 p == inject_Z (n * 2 ^ (- k - p)))%Q as Hint.
      { unfold c. rewrite inject_Z_mult, <- (pow2_of_Z (- k - p)) by lia.
        replace (- k - p) with (- k + - p) by lia. rewrite pow2_add.
        unfold pow2 at 4. rewrite Qpower_opp. fold (pow2 p). field.
        pose proof (pow2_pos p) as H. intros E. rewrite E in H. discriminate. }
      assert (n * 2 ^ (- k - p) <= r) as Hr.
      { etransitivity; [|apply round_half_even_ge].
        rewrite <- (Qfloor_Z (n * 2 ^ (- k - p))). apply Qfloor_resp_le.
        rewrite <- Hint. apply Qdiv_le_pow2. by rewrite Ha. }
      rewrite <- (Qdiv_pow2_r c p), Hint.
      apply Qmult_le_compat_r; [by rewrite <- Zle_Qle|apply Qlt_le_weak, pow2_pos].
    - (* the real is beyond 53 bits at this spacing *)
      assert (p = floor_log2 a - 52) as Ep by (unfold p in *; lia).
      pose proof (floor_log2_le a Ha0) as Hfl.
      assert (2 ^ 52 <= r) as Hr.
      { etransitivity; [|apply round_half_even_ge].
        rewrite <- (Qfloor_Z (2 ^ 52)). apply Qfloor_resp_le.
        rewrite <- (pow2_of_Z 52) by lia.
        apply Qle_shift_div_l; [apply pow2_pos|].
        rewrite <- pow2_add. replace (52 + p) with (floor_log2 a) by lia. done. }
      apply Qle_trans with (pow2 (53 - k)).
      + unfold c. replace (53 - k) with (53 + - k) by lia. rewrite pow2_add.
        apply Qmult_le_compat_r; [|apply Qlt_le_weak, pow2_pos].
        rewrite (pow2_of_Z 53) by lia. rewrite <- Zle_Qle. lia.
      + apply Qle_trans with (pow2 (52 + p)); [apply pow2_le; lia|].
        rewrite pow2_add, (pow2_of_Z 52) by lia.
        apply Qmult_le_compat_r; [by rewrite <- Zle_Qle|apply Qlt_le_weak, pow2_pos]. }
  destruct (Qle_bool (pow2 1024) _); [by left|].
  right. eexists. split; [reflexivity|]. by rewrite Qred_correct.
Qed.

Lemma round64_above c n k q :
  0 < n <= 2 ^ 53 -> 0 <= k <= 1074 ->
  (c == inject_Z n * pow2 (- k))%Q -> (c <= q)%Q ->
  round64 q = Inf false \/ exists v, round64 q = Fin v /\ (c <= v)%Q.
Proof.
  intros Hn Hk Hc Hq. rewrite Hc in Hq.
  destruct (round64_ge n k q Hn Hk Hq) as [H|(v & H & Hv)]; [by left|].
  right. exists v. split; [done|]. by rewrite Hc.
Qed.

(** More than 60 peaks give a rate above 180, or beyond the finite numbers. *)
Lemma rate_from_many p : 61 <= p -> rate_from p = Fin (inject_Z 70).
Proof.
  intros Hp. unfold rate_from.
  assert (of_Z 20 = Fin (20 # 1) /\ of_Z 60 = Fin (60 # 1) /\ of_Z 30 = Fin (30 # 1) /\
          of_Z 180 = Fin (180 # 1) /\ of_Z 70 = Fin (inject_Z 70))
    as (-> & -> & -> & -> & ->) by (repeat split; vm_compute; reflexivity).
  assert (PulseScreen.floor (mul (div (of_Z p) (Fin (20 # 1))) (Fin (60 # 1))) = Inf false \/
          exists z, 181 <= z /\
            PulseScreen.floor (mul (div (of_Z p) (Fin (20 # 1))) (Fin (60 # 1)))
            = Fin (inject_Z z)) as [-> | (z & Hz & ->)].
  { unfold of_Z.
    destruct (round64_above (inject_Z 61) 61 0 (inject_Z p)) as [-> |(v0 & -> & H0)];
      [lia|lia|reflexivity|by rewrite <- Zle_Qle|by left|].
    unfold div. change (Qeq_bool (20 # 1) 0) with false. cbv iota.
    destruct (round64_above (97 # 32) 97 5 (v0 / (20 # 1))) as [-> |(v1 & -> & H1)];
      [lia|lia|reflexivity| |by left|].
    { apply Qle_shift_div_l; [reflexivity|].
      eapply Qle_trans; [|exact H0]. by unfold Qle. }
    unfold mul.
    destruct (round64_above (inject_Z 181) 181 0 (v1 * (60 # 1))) as [-> |(v2 & -> & H2)];
      [lia|lia|reflexivity| |by left|].
    { apply Qle_trans with ((97 # 32) * (60 # 1))%Q; [by unfold Qle|].
      by apply Qmult_le_compat_r. }
    right. exists (Qfloor v2). split; [|done].
    rewrite <- (Qfloor_Z 181). by apply Qfloor_resp_le. }
  - done.
  - unfold gt, Qlt_bool.
    assert (Qle_bool (inject_Z z) (180 # 1) = false) as ->; [|by rewrite orb_true_r].
    apply not_true_is_false. intros E. apply Qle_bool_iff in E.
    change (180 # 1) with (inject_Z 180) in E. rewrite <- Zle_Qle in E. lia.
Qed.

End PulseScreenFacts.

(** X10.  [calculateBpm] of [src/unnamed/part_005] depends on its samples
    through the number of peaks it counts, which is at most half the number
    of samples.  Whatever the samples, it returns a whole number between 30
    and 180.  For up to 9 peaks the rate computed is below 30 and 70 is
    returned in its place; for 10 to 60 peaks the rate is returned: three
    times the number of peaks, except for 41 peaks, where the division
    rounds and the rate is 122; for 61 peaks or more the rate computed is
    above 180 and 70 is returned again.  So for fewer than 20 samples the
    result is 70. *)
Theorem calculated_rate_is_in_range values :
  (exists z, 30 <= z <= 180 /\
             PulseScreen.calculateBpm values = JSNumber.Fin (inject_Z z)) /\
  0 <= peaks values /\ 2 * peaks values <= Z.of_nat (length values) /\
  (peaks values <= 9 ->
   PulseScreen.calculateBpm values = JSNumber.Fin (inject_Z 70)) /\
  (10 <= peaks values <= 60 ->
   PulseScreen.calculateBpm values
   = JSNumber.Fin (inject_Z (if peaks values =? 41 then 122 else 3 * peaks values))) /\
  (61 <= peaks values ->
   PulseScreen.calculateBpm values = JSNumber.Fin (inject_Z 70)) /\
  ((length values < 20)%nat ->
   PulseScreen.calculateBpm values = JSNumber.Fin (inject_Z 70)).
Proof.
  split; [apply calculateBpm_range|].
  destruct (peaks_bound values) as [H0 H1].
  split; [done|]. split; [done|].
  rewrite calculateBpm_peaks.
  assert (peaks values <= 9 -> rate_from (peaks values) = JSNumber.Fin (inject_Z 70)) as Hlow.
  { intros Hp. rewrite rate_from_table by lia. unfold rate_of_peaks.
    by destruct (Z.ltb_spec (peaks values) 10); [|lia]. }
  split; [exact Hlow|]. split; [|split].
  - intros Hp. rewrite rate_from_table by lia. unfold rate_of_peaks.
    by destruct (Z.ltb_spec (peaks values) 10); [lia|].
  - apply rate_from_many.
  - intros Hn. apply Hlow. lia.
Qed.

(** The theorem for ten peaks, the least number that gives a rate. *)
Lemma calculated_rate_is_in_range_witness :
  PulseScreen.calculateBpm
    (JSNumber.of_Z 0
       :: concat (replicate 10 [JSNumber.of_Z 201; JSNumber.of_Z 0]))
  = JSNumber.Fin (inject_Z 30).
Proof.
  refine (eq_trans (proj1 (proj2 (proj2 (proj2 (proj2
            (calculated_rate_is_in_range
               (JSNumber.of_Z 0
                  :: concat (replicate 10 [JSNumber.of_Z 201; JSNumber.of_Z 0])))))))
            _) _).
  - vm_compute. split; discriminate.
  - reflexivity.
Defined.

Section PulseScreenHistory.
Import JSNumber PulseScreen.

Lemma ticks_before_end samples today ok w :
  Forall (fun p => p.1 <= 20000) samples ->
  ticks samples today ok w
  = {| scanning := scanning w; bpm := bpm w; history := history w;
       redValues := redValues w ++ map snd samples; torch := torch w;
       interval := interval w; stored := stored w; captured := captured w |}.
Proof.
  intros He. revert w. induction He as [|[elapsed s] rest He _ IH]; intros w; simpl.
  - rewrite app_nil_r. by destruct w.
  - rewrite IH. unfold tick. simpl in He. destruct (Z.ltb_spec 20000 elapsed); [lia|].
    simpl. by rewrite <- app_assoc.
Qed.


End PulseScreenHistory.



(** X12.  On the sampling screen of [src/unnamed/part_005], after
    [startPPGScan] the torch is on and the screen is scanning, and they stay
    so through any number of samples taken within the first 20 seconds, which
    are all kept in order; the first sample taken later ends the scan: the torch is
    off, the interval is cleared, the screen no longer scans, and the rate
    shown is the one computed from all the samples, which is also the latest
    entry of the date in the history. *)
Theorem scan_ends_after_twenty_seconds samples late last_sample today ok p :
  Forall (fun s => s.1 <= 20000) samples ->
  20000 < late ->
  let during := PulseScreen.ticks samples today ok (PulseScreen.startPPGScan p) in
  let after := PulseScreen.tick late last_sample today ok during in
  (PulseScreen.torch during = true /\ PulseScreen.scanning during = true /\
   PulseScreen.interval during = true /\
   PulseScreen.redValues during = map snd samples /\
   PulseScreen.history during = PulseScreen.history p) /\
  (PulseScreen.torch after = false /\ PulseScreen.scanning after = false /\
   PulseScreen.interval after = false /\
   PulseScreen.bpm after
   = Some (PulseScreen.calculateBpm (map snd samples ++ [last_sample])) /\
   PulseScreen.latest (PulseScreen.history after) today = PulseScreen.bpm after).
Proof.
  intros He Hl. cbv zeta. rewrite ticks_before_end by done. simpl.
  split; [done|].
  unfold PulseScreen.tick. destruct (Z.ltb_spec 20000 late); [|lia]. simpl.
  repeat split.
  unfold PulseScreen.latest. rewrite lookup_insert_eq. apply last_snoc.
Qed.

(** The theorem for three samples and a fourth after 20.1 seconds. *)
Lemma scan_ends_after_twenty_seconds_witness :
  PulseScreen.torch
    (PulseScreen.tick 20100 (JSNumber.of_Z 120) "2024-01-01" true
       (PulseScreen.ticks
          [(100, JSNumber.of_Z 100); (10000, JSNumber.of_Z 220); (19900, JSNumber.of_Z 90)]
          "2024-01-01" true (PulseScreen.startPPGScan (PulseScreen.mount None)))) = false.
Proof.
  refine (proj1 (proj2 (scan_ends_after_twenty_seconds
                          [(100, JSNumber.of_Z 100); (10000, JSNumber.of_Z 220);
                           (19900, JSNumber.of_Z 90)]
                          20100 (JSNumber.of_Z 120) "2024-01-01" true
                          (PulseScreen.mount None) _ _)));
    [|lia].
  repeat constructor; simpl; lia.
Defined.

(** ** The conversation of the chat screen *)
Section Conversation.
Import JSValue AyurvedaBotScreen.

Lemma exchanges_snoc n : exchanges n ++ ["user"; "assistant"] = exchanges (S n).
Proof. induction n as [|n IH]; [done|]. simpl in *. by rewrite IH. Qed.

Lemma paired_reply (s : state) p cs ts n0 c k :
  paired {| ui := s; pending := [k]; calls := cs; timers := ts; now := n0 |} ->
  paired {| ui := setLoading false (setMessages (fun prev => prev ++ [assistant c]) s);
            pending := []; calls := cs; timers := p; now := n0 |}.
Proof.
  intros (n & Hm & Hc). simpl in *. exists (S n). simpl.
  rewrite map_app, Hm. simpl. rewrite <- app_assoc. simpl.
  rewrite exchanges_snoc. simpl. rewrite app_nil_r. split; [done|lia].
Qed.

Lemma paired_step w e w' : invariant w -> paired w -> step w e = Some w' -> paired w'.
Proof.
  intros [Hi _] Hp Hs. unfold invariant in Hi.
  destruct w as [s p cs ts n0]; simpl in *.
  destruct e; simpl in Hs.
  - apply Some_eq in Hs. by subst w'.
  - destruct (loading s) eqn:El; [done|].
    apply Some_eq in Hs. subst w'. unfold sendMessage. simpl. rewrite El.
    destruct (blank (input s) || false) eqn:E; [done|].
    destruct p as [|[id|] [|t' p]]; try done;
      try (destruct Hi; congruence).
    destruct Hp as (n & Hm & Hc). simpl in *. exists n. simpl.
    rewrite map_app, Hm, app_nil_r. simpl. rewrite length_app. simpl. split; [done|lia].
  - destruct (0 <=? ms); [|done]. apply Some_eq in Hs. by subst w'.
  - destruct (ts !! id) as [[due|]|]; try done.
    destruct (due <=? n0); [|done]. simpl in Hs.
    destruct p as [|[id'|] [|t' p]]; try done; simpl in Hs.
    + apply Some_eq in Hs. by subst w'.
    + destruct (Nat.eqb id id').
      * apply Some_eq in Hs. subst w'. by eapply paired_reply.
      * apply Some_eq in Hs. by subst w'.
    + apply Some_eq in Hs. by subst w'.
  - destruct p as [|t [|t' p]]; [done| |by destruct t].
    destruct i; [|by destruct i]. simpl in Hs.
    destruct t as [id|]; [|done].
    destruct r as [[[] st]|m]; apply Some_eq in Hs; subst w'.
    + destruct Hp as (n & Hm & Hc). by exists n.
    + by eapply paired_reply.
    + by eapply paired_reply.
  - destruct p as [|t [|t' p]]; [done| |by destruct t].
    destruct i; [|by destruct i]. simpl in Hs.
    destruct t as [id|]; [done|].
    apply Some_eq in Hs. subst w'. unfold send_on_json.
    repeat case_match; by eapply paired_reply.
Qed.

Lemma reachable_paired w : reachable w -> paired w.
Proof.
  induction 1 as [|w e w' Hr IH Hs]; [by exists O|].
  exact (paired_step _ _ _ (chat_reachable_inv _ Hr) IH Hs).
Qed.

(** A timer that was cleared, or has fired, stays so. *)
Lemma spent_timer_step w e w' id :
  timers w !! id = Some None -> step w e = Some w' -> timers w' !! id = Some None.
Proof.
  intros Ht Hs.
  assert (forall j, <[j := None]> (timers w) !! id = Some None) as Hclear.
  { intros j. destruct (decide (j = id)) as [->|Hne].
    - apply list_lookup_insert_eq. by eapply lookup_lt_Some.
    - by rewrite list_lookup_insert_ne. }
  destruct e; simpl in Hs.
  - apply Some_eq in Hs. by subst w'.
  - destruct (loading (ui w)); [done|].
    apply Some_eq in Hs. subst w'. unfold sendMessage.
    destruct (_ || _); [done|]. simpl. by apply lookup_app_l_Some.
  - destruct (0 <=? ms); [|done]. apply Some_eq in Hs. by subst w'.
  - destruct (timers w !! id0) as [[due|]|]; try done.
    destruct (due <=? now w); [|done].
    destruct (find_call _ _ _); apply Some_eq in Hs; subst w'; simpl; apply Hclear.
  - destruct (pending w !! i) as [[id'|]|]; try done.
    destruct r as [[[] st]|m]; apply Some_eq in Hs; subst w'; simpl; try done; apply Hclear.
  - destruct (pending w !! i) as [[id'|]|]; try done.
    apply Some_eq in Hs. subst w'. simpl. unfold send_on_json. by repeat case_match.
Qed.

Lemma spent_timer_run es w w' id :
  timers w !! id = Some None -> run w es = Some w' -> timers w' !! id = Some None.
Proof.
  revert w. induction es as [|e es IH]; intros w Ht Hrun; simpl in Hrun.
  - apply Some_eq in Hrun. by subst w'.
  - destruct (step w e) as [w1|] eqn:Hs; [|done].
    exact (IH w1 (spent_timer_step _ _ _ _ Ht Hs) Hrun).
Qed.

End Conversation.

(** X13.  On the chat screen, in every reachable state at most one call is in
    progress, the screen is loading exactly while one is, and the messages
    are exchanges of one user message and one assistant message, followed by
    the user message of the call in progress if there is one.  A message is
    sent only while no call is in progress (Send is disabled while
    loading): a blank input changes nothing, any other becomes the next user
    message, and the call carries all the messages, that one included.  The
    call is answered exactly once: when the body of the answer is read, the
    assistant message added is its [reply] if that is truthy, the no-reply
    text if it is falsy or missing, and the failure text if the body is
    [null] or cannot be read; when the [fetch] is rejected, answered
    without [ok] or aborted by its timer, it is the failure text; an answer
    with [ok] adds nothing before its body is read, and a timer that is not
    the one of the call awaited adds nothing. *)
Theorem every_message_gets_one_reply w :
  AyurvedaBotScreen.reachable w ->
  (length (AyurvedaBotScreen.pending w) <= 1)%nat /\
  (AyurvedaBotScreen.loading (AyurvedaBotScreen.ui w) = true
   <-> AyurvedaBotScreen.pending w <> []) /\
  paired w /\
  (AyurvedaBotScreen.loading (AyurvedaBotScreen.ui w) = true ->
   AyurvedaBotScreen.step w AyurvedaBotScreen.Send = None) /\
  (AyurvedaBotScreen.loading (AyurvedaBotScreen.ui w) = false ->
   if AyurvedaBotScreen.blank (AyurvedaBotScreen.input (AyurvedaBotScreen.ui w))
   then AyurvedaBotScreen.step w AyurvedaBotScreen.Send = Some w
   else exists w',
       AyurvedaBotScreen.step w AyurvedaBotScreen.Send = Some w' /\
       AyurvedaBotScreen.messages (AyurvedaBotScreen.ui w')
       = AyurvedaBotScreen.messages (AyurvedaBotScreen.ui w)
         ++ [{| AyurvedaBotScreen.role := "user";
                AyurvedaBotScreen.content :=
                  JSValue.VStr (AyurvedaBotScreen.input (AyurvedaBotScreen.ui w)) |}] /\
       AyurvedaBotScreen.input (AyurvedaBotScreen.ui w') = "" /\
       AyurvedaBotScreen.loading (AyurvedaBotScreen.ui w') = true /\
       option_map AyurvedaBotScreen.chat_messages (last (AyurvedaBotScreen.calls w'))
       = Some (AyurvedaBotScreen.messages (AyurvedaBotScreen.ui w'))) /\
  (forall i r w',
      AyurvedaBotScreen.step w (AyurvedaBotScreen.JsonSettles i r) = Some w' ->
      AyurvedaBotScreen.pending w' = [] /\
      AyurvedaBotScreen.loading (AyurvedaBotScreen.ui w') = false /\
      AyurvedaBotScreen.messages (AyurvedaBotScreen.ui w')
      = AyurvedaBotScreen.messages (AyurvedaBotScreen.ui w)
        ++ [AyurvedaBotScreen.assistant
              match r with
              | Resolved data =>
                  match JSValue.get data "reply" with
                  | Some reply =>
                      if JSValue.truthy reply then reply
                      else JSValue.VStr AyurvedaBotScreen.NO_REPLY
                  | None => JSValue.VStr AyurvedaBotScreen.FAILED
                  end
              | Rejected _ => JSValue.VStr AyurvedaBotScreen.FAILED
              end]) /\
  (forall i r w',
      AyurvedaBotScreen.step w (AyurvedaBotScreen.FetchSettles i r) = Some w' ->
      match r with
      | Resolved (true, _) =>
          AyurvedaBotScreen.pending w' = [AyurvedaBotScreen.AwaitJson] /\
          AyurvedaBotScreen.ui w' = AyurvedaBotScreen.ui w
      | _ =>
          AyurvedaBotScreen.pending w' = [] /\
          AyurvedaBotScreen.loading (AyurvedaBotScreen.ui w') = false /\
          AyurvedaBotScreen.messages (AyurvedaBotScreen.ui w')
          = AyurvedaBotScreen.messages (AyurvedaBotScreen.ui w)
            ++ [AyurvedaBotScreen.assistant (JSValue.VStr AyurvedaBotScreen.FAILED)]
      end) /\
  (forall id w',
      AyurvedaBotScreen.step w (AyurvedaBotScreen.TimerFires id) = Some w' ->
      (AyurvedaBotScreen.pending w = [AyurvedaBotScreen.AwaitFetch id] ->
       AyurvedaBotScreen.pending w' = [] /\
       AyurvedaBotScreen.loading (AyurvedaBotScreen.ui w') = false /\
       AyurvedaBotScreen.messages (AyurvedaBotScreen.ui w')
       = AyurvedaBotScreen.messages (AyurvedaBotScreen.ui w)
         ++ [AyurvedaBotScreen.assistant (JSValue.VStr AyurvedaBotScreen.FAILED)]) /\
      (AyurvedaBotScreen.pending w <> [AyurvedaBotScreen.AwaitFetch id] ->
       AyurvedaBotScreen.pending w' = AyurvedaBotScreen.pending w /\
       AyurvedaBotScreen.ui w' = AyurvedaBotScreen.ui w)).
Proof.
  intros Hr. pose proof (chat_reachable_inv _ Hr) as [Hi _].
  split.
  { destruct (AyurvedaBotScreen.pending w) as [|t [|t' p]]; simpl; [lia|lia|by destruct t]. }
  split.
  { destruct (AyurvedaBotScreen.pending w) as [|t [|t' p]]; [| |by destruct t].
    - rewrite Hi. by split.
    - destruct t; [destruct Hi as [-> _]|rewrite Hi]; by split. }
  split; [by apply reachable_paired|].
  split; [intros Hl; simpl; by rewrite Hl|].
  split.
  { intros Hl. simpl. rewrite Hl. unfold AyurvedaBotScreen.sendMessage. rewrite Hl.
    destruct (AyurvedaBotScreen.blank _); simpl; [done|].
    eexists. split; [reflexivity|]. simpl. by rewrite last_snoc. }
  split.
  { intros i r w' Hs. simpl in Hs.
    destruct (AyurvedaBotScreen.pending w) as [|t [|t' p]] eqn:Hp;
      [done| |by destruct t].
    destruct i; [|by destruct i]. simpl in Hs. destruct t; [done|].
    apply Some_eq in Hs. subst w'. unfold AyurvedaBotScreen.send_on_json.
    destruct r as [data|m]; [|done].
    destruct (JSValue.get data "reply") as [reply|]; [|done].
    by destruct (JSValue.truthy reply). }
  split.
  { intros i r w' Hs. simpl in Hs.
    destruct (AyurvedaBotScreen.pending w) as [|t [|t' p]] eqn:Hp;
      [done| |by destruct t].
    destruct i; [|by destruct i]. simpl in Hs. destruct t as [id|]; [|done].
    destruct r as [[[] code]|m]; apply Some_eq in Hs; subst w'; simpl; by rewrite ?Hp. }
  intros id w' Hs. simpl in Hs.
  destruct (AyurvedaBotScreen.timers w !! id) as [[due|]|]; try done.
  destruct (due <=? AyurvedaBotScreen.now w); [|done]. simpl in Hs.
  destruct (AyurvedaBotScreen.pending w) as [|t [|t' p]] eqn:Hp; [| |by destruct t].
  - simpl in Hs. apply Some_eq in Hs. subst w'. simpl. by rewrite Hp.
  - destruct t as [id'|]; simpl in Hs.
    + destruct (Nat.eqb_spec id id') as [->|Hne].
      * apply Some_eq in Hs. subst w'. by split.
      * apply Some_eq in Hs. subst w'. simpl. rewrite Hp.
        split; [intros [= ?]; congruence|done].
    + apply Some_eq in Hs. subst w'. simpl. by rewrite Hp.
Qed.

(** The theorem at the state of the example, a message sent and not yet
    answered: Send cannot be pressed. *)
Lemma every_message_gets_one_reply_witness :
  AyurvedaBotScreen.step chat_waiting AyurvedaBotScreen.Send = None.
Proof.
  refine (proj1 (proj2 (proj2 (proj2 (every_message_gets_one_reply chat_waiting _)))) _).
  - apply (chat_run_reachable AyurvedaBotScreen.mount
             [AyurvedaBotScreen.Type_ "hello"; AyurvedaBotScreen.Send]);
      [apply AyurvedaBotScreen.reach_mount|vm_compute; reflexivity].
  - vm_compute. reflexivity.
Defined.

(** X14.  On the chat screen, once the awaited [fetch] has resolved its timer
    is cleared for good: whatever happens afterwards and however much time
    passes, that timer cannot fire, so an answer that has arrived is never
    turned into a failure by the timeout. *)
Theorem answered_call_cannot_time_out w i id ok code w1 es w2 :
  AyurvedaBotScreen.reachable w ->
  AyurvedaBotScreen.pending w !! i = Some (AyurvedaBotScreen.AwaitFetch id) ->
  AyurvedaBotScreen.step w (AyurvedaBotScreen.FetchSettles i (Resolved (ok, code))) = Some w1 ->
  AyurvedaBotScreen.run w1 es = Some w2 ->
  AyurvedaBotScreen.timers w2 !! id = Some None /\
  AyurvedaBotScreen.step w2 (AyurvedaBotScreen.TimerFires id) = None.
Proof.
  intros Hr Hl Hs Hrun.
  assert (id < length (AyurvedaBotScreen.timers w))%nat as Hid.
  { pose proof (chat_reachable_inv _ Hr) as [Hi _].
    destruct (AyurvedaBotScreen.pending w) as [|t [|t' p]]; [done| |by destruct t].
    destruct i; [|done]. apply Some_eq in Hl. subst t.
    destruct Hi as (_ & due & Ht & _). by eapply lookup_lt_Some. }
  assert (AyurvedaBotScreen.timers w1 !! id = Some None) as H1.
  { simpl in Hs. rewrite Hl in Hs.
    destruct ok; apply Some_eq in Hs; subst w1; simpl; by apply list_lookup_insert_eq. }
  pose proof (spent_timer_run es w1 w2 id H1 Hrun) as H2.
  split; [done|]. simpl. by rewrite H2.
Qed.

(** The theorem for the message of the example, answered, with a minute
    passing before the body is read. *)
Lemma answered_call_cannot_time_out_witness :
  exists w1 w2,
    AyurvedaBotScreen.step chat_waiting
      (AyurvedaBotScreen.FetchSettles 0 (Resolved (true, 200))) = Some w1 /\
    AyurvedaBotScreen.run w1 [AyurvedaBotScreen.Elapse 60000] = Some w2 /\
    AyurvedaBotScreen.step w2 (AyurvedaBotScreen.TimerFires 0) = None.
Proof.
  eexists. eexists. split; [vm_compute; reflexivity|]. split; [vm_compute; reflexivity|].
  refine (proj2 (answered_call_cannot_time_out chat_waiting 0%nat 0%nat true 200 _
                   [AyurvedaBotScreen.Elapse 60000] _ _ _ _ _));
    [|vm_compute; reflexivity..].
  apply (chat_run_reachable AyurvedaBotScreen.mount
           [AyurvedaBotScreen.Type_ "hello"; AyurvedaBotScreen.Send]);
    [apply AyurvedaBotScreen.reach_mount|vm_compute; reflexivity].
Defined.

(** ** The amounts of the food scanner ([src/unnamed/part_002]) *)
Section Grams.
Import JSNumber JSValue FoodScannerScreen.

Lemma zero_is_zero : of_Z 0 = Fin 0.
Proof. reflexivity. Qed.

Lemma round64_not_nan q : isNaN (round64 q) = false.
Proof. by destruct (round64_cases q) as [[v ->]|[s ->]]. Qed.

Lemma parseGrams_not_nan v : isNaN (parseGrams v) = false.
Proof.
  unfold parseGrams. destruct (_ && _); [done|].
  destruct (negb _); [done|].
  by destruct (isNaN (parseFloat _)) eqn:E.
Qed.

Lemma take_digits_no_digit s acc cnt :
  has_digit s = false -> take_digits s acc cnt = (acc, cnt, s).
Proof.
  destruct s as [|c s]; [done|]. simpl. by destruct (digit_of c).
Qed.

Lemma has_digit_tail c s : has_digit (String c s) = false -> has_digit s = false.
Proof. simpl. by destruct (digit_of c). Qed.

Lemma sign_split_no_digit s :
  has_digit s = false -> has_digit (sign_split s).2 = false.
Proof.
  destruct s as [|c s]; [done|]. intros Hd.
  destruct c as [[] [] [] [] [] [] [] []]; try done; by apply has_digit_tail in Hd.
Qed.

Lemma parseFloat_sign_split s :
  parseFloat s
  = let '(neg, s1) := sign_split s in
    let '(i, ni, s2) := take_digits s1 0 0%nat in
    let signed (q : Q) := round64 (if neg then (- q)%Q else q) in
    match s2 with
    | String "."%char s3 =>
        let '(f, nf, _) := take_digits s3 0 0%nat in
        match ni, nf with
        | O, O => NaN
        | _, _ => signed (inject_Z (i * 10 ^ Z.of_nat nf + f) / inject_Z (10 ^ Z.of_nat nf))%Q
        end
    | _ =>
        match ni with
        | O => NaN
        | _ => signed (inject_Z i)
        end
    end.
Proof. reflexivity. Qed.

Lemma parseFloat_no_digit s : has_digit s = false -> parseFloat s = NaN.
Proof.
  intros Hd. rewrite parseFloat_sign_split.
  pose proof (sign_split_no_digit s Hd) as Hd'.
  destruct (sign_split s) as [neg s1]. simpl in Hd'.
  rewrite take_digits_no_digit by done.
  destruct s1 as [|c t]; [done|].
  destruct c as [[] [] [] [] [] [] [] []]; try done.
  rewrite take_digits_no_digit by (by eapply has_digit_tail). done.
Qed.

End Grams.

Section GramsMore.
Import JSNumber JSValue FoodScannerScreen.

Lemma has_digit_cleaned s : has_digit (cleaned s) = has_digit s.
Proof.
  induction s as [|c s IH]; [done|]. simpl.
  destruct (digit_of c) eqn:Ed.
  - assert (kept c = true) as ->.
    { unfold kept. unfold digit_of in Ed. cbv zeta in *.
      destruct ((48 <=? Z.of_N (N_of_ascii c)) && (Z.of_N (N_of_ascii c) <=? 57));
        [done|discriminate Ed]. }
    simpl. by rewrite Ed.
  - destruct (kept c); [|done]. simpl. by rewrite Ed.
Qed.

Lemma cleaned_app s t : cleaned (s +:+ t) = cleaned s +:+ cleaned t.
Proof.
  induction s as [|c s IH]; [done|]. rewrite append_cons. simpl.
  destruct (kept c); [|done]. by rewrite append_cons, IH.
Qed.

Lemma cleaned_dropped t : all_dropped t = true -> cleaned t = EmptyString.
Proof.
  induction t as [|c t IH]; [done|]. simpl. intros H.
  apply andb_true_iff in H as [Hc Ht]. apply negb_true_iff in Hc. rewrite Hc. by apply IH.
Qed.

(** The amount read from a text depends on the cleaned text only. *)
Lemma parseGrams_text s :
  parseGrams (VStr s)
  = let n := parseFloat (cleaned s) in if isNaN n then of_Z 0 else n.
Proof. unfold parseGrams. by destruct s. Qed.

Lemma add_not_nan x y : isNaN x = false -> isFinite y = true -> isNaN (add x y) = false.
Proof.
  destruct x as [|a|a]; [done| |]; destruct y as [|b|b]; try done.
  intros _ _. apply round64_not_nan.
Qed.

Lemma get_none v k : get v k = None <-> nullish v = true.
Proof. by destruct v. Qed.

Lemma add_food_none t f : add_food t f = None <-> nullish f = true.
Proof. by destruct f. Qed.

Lemma sum_foods_none foods t :
  sum_foods t foods = None <-> Exists (fun f => nullish f = true) foods.
Proof.
  revert t. induction foods as [|f foods IH]; intros t; simpl.
  - split; [done|]. by intros H; inversion H.
  - destruct (add_food t f) as [t'|] eqn:E.
    + rewrite IH. split; [by right|].
      intros H. inversion H as [? ? Hn|]; [|done].
      apply add_food_none with (t := t) in Hn. congruence.
    + split; [|done]. intros _. left. by eapply add_food_none.
Qed.

Lemma sum_foods_not_nan foods t t' :
  sum_foods t foods = Some t' ->
  Forall (fun f => Forall (fun x => isFinite x = true) (amounts f)) foods ->
  isNaN (carbs t) = false /\ isNaN (fat t) = false /\
  isNaN (fiber t) = false /\ isNaN (protein t) = false ->
  isNaN (carbs t') = false /\ isNaN (fat t') = false /\
  isNaN (fiber t') = false /\ isNaN (protein t') = false.
Proof.
  revert t. induction foods as [|f foods IH]; intros t Hs Hf Ht; simpl in Hs.
  - apply Some_eq in Hs. by subst t'.
  - inversion Hf as [|? ? Hf1 Hf2]; subst.
    destruct (add_food t f) as [t1|] eqn:E; [|done].
    apply (IH t1 Hs Hf2).
    unfold add_food in E. unfold amounts in Hf1.
    destruct (get f "carbs"), (get f "fat"), (get f "fiber"), (get f "protein"); try done.
    apply Some_eq in E. subst t1. simpl.
    inversion Hf1 as [|? ? H1 Hr1]; subst. inversion Hr1 as [|? ? H2 Hr2]; subst.
    inversion Hr2 as [|? ? H3 Hr3]; subst. inversion Hr3 as [|? ? H4 _]; subst.
    destruct Ht as (T1 & T2 & T3 & T4).
    repeat split; by apply add_not_nan.
Qed.

End GramsMore.

(** X15.  [parseGrams] of [src/unnamed/part_002] never returns NaN, whatever
    value it is given, and returns zero for every value whose text holds no
    digit. *)
Theorem amount_is_never_nan v :
  JSNumber.isNaN (FoodScannerScreen.parseGrams v) = false /\
  (has_digit (JSValue.to_string v) = false ->
   FoodScannerScreen.parseGrams v = JSNumber.Fin 0).
Proof.
  split; [apply parseGrams_not_nan|]. intros Hd.
  unfold FoodScannerScreen.parseGrams. destruct (_ && _); [done|].
  destruct (negb _); [done|].
  rewrite parseFloat_no_digit; [done|]. by rewrite has_digit_cleaned.
Qed.

(** X16.  For [parseGrams], characters other than digits, dots and minus
    signs do not count, wherever they stand in a text: the amount read with
    them is the amount read without them. *)
Theorem units_do_not_change_the_amount s t u :
  all_dropped t = true ->
  FoodScannerScreen.parseGrams (JSValue.VStr (s +:+ t +:+ u))
  = FoodScannerScreen.parseGrams (JSValue.VStr (s +:+ u)).
Proof.
  intros Ht. rewrite !parseGrams_text, !cleaned_app, (cleaned_dropped t Ht).
  by rewrite append_empty_l.
Qed.

(** The theorem for 12.5 followed by a space and the letter g. *)
Lemma units_do_not_change_the_amount_witness :
  FoodScannerScreen.parseGrams (JSValue.VStr ("12.5" +:+ " g" +:+ ""))
  = FoodScannerScreen.parseGrams (JSValue.VStr ("12.5" +:+ "")).
Proof. apply (units_do_not_change_the_amount "12.5" " g" ""). reflexivity. Defined.

(** X17.  The sums that [computeTotals] formats are not a number only when
    some amount read is infinite: if every amount of every food is finite, no
    total is NaN. *)
Theorem totals_are_nan_only_with_infinite_amounts foods t :
  FoodScannerScreen.sum_foods FoodScannerScreen.zero_totals foods = Some t ->
  Forall (fun f => Forall (fun x => JSNumber.isFinite x = true) (amounts f)) foods ->
  JSNumber.isNaN (FoodScannerScreen.carbs t) = false /\
  JSNumber.isNaN (FoodScannerScreen.fat t) = false /\
  JSNumber.isNaN (FoodScannerScreen.fiber t) = false /\
  JSNumber.isNaN (FoodScannerScreen.protein t) = false.
Proof.
  intros Hs Hf. by apply (sum_foods_not_nan foods FoodScannerScreen.zero_totals t Hs Hf).
Qed.

(** The theorem for two foods with amounts as texts and numbers. *)
Lemma totals_are_nan_only_with_infinite_amounts_witness :
  exists t,
    FoodScannerScreen.sum_foods FoodScannerScreen.zero_totals
      [JSValue.VObj [("carbs", JSValue.VStr "12.5g"); ("fat", JSValue.num 3)];
       JSValue.VObj [("protein", JSValue.VStr "-4")]] = Some t /\
    JSNumber.isNaN (FoodScannerScreen.carbs t) = false.
Proof.
  eexists. split; [vm_compute; reflexivity|].
  refine (proj1 (totals_are_nan_only_with_infinite_amounts
                   [JSValue.VObj [("carbs", JSValue.VStr "12.5g"); ("fat", JSValue.num 3)];
                    JSValue.VObj [("protein", JSValue.VStr "-4")]] _ _ _));
    [vm_compute; reflexivity|].
  repeat constructor; vm_compute; reflexivity.
Defined.

(** X18.  [computeTotals] throws exactly when one of the foods is [null] or
    [undefined]; for every other array, whatever its foods hold, it returns
    its four texts. *)
Theorem totals_fail_only_on_null_food foods :
  FoodScannerScreen.computeTotals foods = None
  <-> Exists (fun f => nullish f = true) foods.
Proof.
  rewrite <- (sum_foods_none foods FoodScannerScreen.zero_totals).
  unfold FoodScannerScreen.computeTotals.
  by destruct (FoodScannerScreen.sum_foods _ _).
Qed.

(** ** The barcode screen *)
Section Barcode.
Import JSValue BarcodeScannerNative.

Lemma take_app_take {A} n (a b : list A) : take n (a ++ take n b) = take n (a ++ b).
Proof. rewrite !take_app, take_take. f_equal. f_equal. lia. Qed.

Lemma save_all_saved item items ok w :
  savedFoods (save_all (item :: items) ok w)
  = take 50 (rev (item :: items) ++ savedFoods w) /\
  stored (save_all (item :: items) true w)
  = Some (take 50 (rev (item :: items) ++ savedFoods w)).
Proof.
  revert item w. induction items as [|j rest IH]; intros item w.
  - by simpl.
  - destruct (IH j (saveResult item ok w)) as [H1 _].
    destruct (IH j (saveResult item true w)) as [_ H2].
    change (save_all (item :: j :: rest) ok w)
      with (save_all (j :: rest) ok (saveResult item ok w)).
    change (save_all (item :: j :: rest) true w)
      with (save_all (j :: rest) true (saveResult item true w)).
    rewrite H1, H2.
    assert (forall b, savedFoods (saveResult item b w) = take 50 ([item] ++ savedFoods w))
      as Hs by done.
    rewrite !Hs, !take_app_take.
    change (rev (item :: j :: rest)) with (rev (j :: rest) ++ [item]).
    by rewrite <- !app_assoc.
Qed.

Lemma build_file android now img :
  str_truthy (uri img) = true ->
  exists f, buildFileForUpload android now (Some img) = Some f /\
            str_truthy (file_name f) = true /\ str_truthy (file_type f) = true /\
            (android = true -> file_uri f = uri img) /\
            (forall t, type img = Some t -> str_truthy t = true -> file_type f = t) /\
            (type img = None ->
             file_type f = if String.eqb (extension (file_name f)) "png"
                           then "image/png" else "image/jpeg").
Proof.
  intros Hu. unfold buildFileForUpload. rewrite Hu. cbv zeta. simpl negb. cbv iota.
  eexists. split; [reflexivity|]. simpl.
  set (u := if android then uri img else remove_first "file://" (uri img)).
  set (seg := if str_truthy u then last_part u else u).
  split.
  { destruct (fileName img) as [n|]; [destruct (str_truthy n) eqn:E; [exact E|]|];
      destruct (str_truthy seg) eqn:E'; done. }
  split.
  { destruct (type img) as [t|]; [destruct (str_truthy t) eqn:E; [exact E|]|];
      by destruct (String.eqb _ _). }
  split; [intros ->; by unfold u|]. split.
  - intros t -> Ht. by rewrite Ht.
  - by intros ->.
Qed.

End Barcode.

(** X19.  On the barcode screen, after any number of scans saved one after
    the other, the saved scans are the scans just saved, newest first,
    followed by the ones saved before, cut at 50; when the writes go through
    this is also what is stored. *)
Theorem saved_scans_are_the_latest_fifty item items ok w :
  BarcodeScannerNative.savedFoods (BarcodeScannerNative.save_all (item :: items) ok w)
  = take 50 (rev (item :: items) ++ BarcodeScannerNative.savedFoods w) /\
  BarcodeScannerNative.stored (BarcodeScannerNative.save_all (item :: items) true w)
  = Some (take 50 (rev (item :: items) ++ BarcodeScannerNative.savedFoods w)) /\
  (length (BarcodeScannerNative.savedFoods
             (BarcodeScannerNative.save_all (item :: items) ok w)) <= 50)%nat.
Proof.
  destruct (save_all_saved item items ok w) as [H1 H2].
  split; [done|]. split; [done|]. rewrite H1, length_take. lia.
Qed.

(** X20.  The file that the barcode screen uploads, built from an image with
    a non-empty uri, always has a non-empty name and a non-empty type; on
    Android its uri is the image's; its type is the image's own when the
    image has a non-empty one, and without one it is image/png exactly when
    the extension of the name is png, in any letter case, and image/jpeg
    otherwise. *)
Theorem built_file_has_name_and_type android now img :
  JSValue.str_truthy (BarcodeScannerNative.uri img) = true ->
  exists f,
    BarcodeScannerNative.buildFileForUpload android now (Some img) = Some f /\
    JSValue.str_truthy (BarcodeScannerNative.file_name f) = true /\
    JSValue.str_truthy (BarcodeScannerNative.file_type f) = true /\
    (android = true -> BarcodeScannerNative.file_uri f = BarcodeScannerNative.uri img) /\
    (forall t, BarcodeScannerNative.type img = Some t -> JSValue.str_truthy t = true ->
               BarcodeScannerNative.file_type f = t) /\
    (BarcodeScannerNative.type img = None ->
     BarcodeScannerNative.file_type f
     = if String.eqb (BarcodeScannerNative.extension (BarcodeScannerNative.file_name f)) "png"
       then "image/png" else "image/jpeg").
Proof. apply build_file. Qed.

(** The theorem for a picture of the camera roll on iOS. *)
Lemma built_file_has_name_and_type_witness :
  exists f,
    BarcodeScannerNative.buildFileForUpload false 1700000000000
      (Some {| BarcodeScannerNative.uri := "file:///var/mobile/IMG_0001.PNG";
               BarcodeScannerNative.fileName := None;
               BarcodeScannerNative.type := None |}) = Some f /\
    BarcodeScannerNative.file_type f = "image/png" /\
    BarcodeScannerNative.file_name f = "IMG_0001.PNG" /\
    BarcodeScannerNative.file_uri f = "/var/mobile/IMG_0001.PNG".
Proof.
  destruct (built_file_has_name_and_type false 1700000000000
              {| BarcodeScannerNative.uri := "file:///var/mobile/IMG_0001.PNG";
                 BarcodeScannerNative.fileName := None;
                 BarcodeScannerNative.type := None |} eq_refl) as (f & Hf & _).
  exists f. split; [exact Hf|].
  vm_compute in Hf. injection Hf as <-. repeat split.
Defined.

Section BarcodeUpload.
Import JSValue BarcodeScannerNative.

Lemma uploadImage_tries android now when_ answer ok w img f :
  picked w = Some img ->
  str_truthy (uri img) = true ->
  buildFileForUpload android now (Some img) = Some f ->
  uploadImage android now when_ answer ok w
  = try_fields ["file"; "image"] f when_ answer ok None
      {| picked := picked w; loading := true; serverResult := None;
         saved := saved w; alerts := alerts w; requests := requests w |}.
Proof.
  intros Hp Hu Hf. unfold uploadImage. rewrite Hp, Hu. cbv zeta. simpl negb. cbv iota.
  by rewrite Hf.
Qed.

End BarcodeUpload.

(** X21.  On the barcode screen, [uploadImage] of an image with a non-empty
    uri tries the field name file and, only if that request is rejected or
    answered with a status that is not ok, the field name image; the first
    answer that is ok ends it: the result shown and saved first among the
    scans records the field name that worked, and nothing is alerted.  When
    both fail, two requests were made, nothing is shown or saved, and one
    alert tells the last failure: its message, the status and text of the
    answer, or that the error is unknown.  In every case the screen stops
    loading. *)
Theorem upload_tries_file_then_image android now when_ answer ok w img :
  BarcodeScannerNative.picked w = Some img ->
  JSValue.str_truthy (BarcodeScannerNative.uri img) = true ->
  exists f,
    BarcodeScannerNative.buildFileForUpload android now (Some img) = Some f /\
    let w' := BarcodeScannerNative.uploadImage android now when_ answer ok w in
    let by_file := BarcodeScannerNative.upload_request "file" f in
    let by_image := BarcodeScannerNative.upload_request "image" f in
    let shown field_ code :=
      BarcodeScannerNative.requests w'
      = BarcodeScannerNative.requests w
        ++ (if String.eqb field_ "file" then [by_file] else [by_file; by_image]) /\
      BarcodeScannerNative.alerts w' = BarcodeScannerNative.alerts w /\
      exists out,
        BarcodeScannerNative.serverResult w' = Some out /\
        BarcodeScannerNative.field out = field_ /\
        BarcodeScannerNative.status out = code /\
        head (BarcodeScannerNative.savedFoods (BarcodeScannerNative.saved w')) = Some out in
    let failed text :=
      BarcodeScannerNative.requests w'
      = BarcodeScannerNative.requests w ++ [by_file; by_image] /\
      BarcodeScannerNative.serverResult w' = None /\
      BarcodeScannerNative.saved w' = BarcodeScannerNative.saved w /\
      BarcodeScannerNative.alerts w'
      = BarcodeScannerNative.alerts w ++ [("Upload failed", text)] in
    BarcodeScannerNative.loading w' = false /\
    match answer "file", answer "image" with
    | BarcodeScannerNative.Ok code _ _, _ => shown "file" code
    | _, BarcodeScannerNative.Ok code _ _ => shown "image" code
    | _, BarcodeScannerNative.NetworkError (Some m) =>
        failed (if JSValue.str_truthy m then m else "Unknown error")
    | _, BarcodeScannerNative.NetworkError None => failed "Unknown error"
    | _, BarcodeScannerNative.NotOk code txt =>
        failed ("status " +:+ JSNumber.toString (JSNumber.of_Z code) +:+ ": " +:+ txt)
    end.
Proof.
  intros Hp Hu.
  destruct (build_file android now img Hu) as (f & Hf & _).
  exists f. split; [exact Hf|]. cbv zeta.
  rewrite (uploadImage_tries android now when_ answer ok w img f Hp Hu Hf).
  unfold BarcodeScannerNative.try_fields.
  destruct (answer "file") as [m1|c1 j1 r1|c1 t1];
    destruct (answer "image") as [m2|c2 j2 r2|c2 t2];
    cbn [BarcodeScannerNative.loading BarcodeScannerNative.requests
         BarcodeScannerNative.alerts BarcodeScannerNative.serverResult
         BarcodeScannerNative.saved BarcodeScannerNative.field
         BarcodeScannerNative.status BarcodeScannerNative.savedFoods
         BarcodeScannerNative.saveResult String.eqb Ascii.eqb Bool.eqb];
    rewrite <- ?app_assoc;
    try (split; [done|]; split; [done|]; split; [done|]; eexists; by repeat split);
    try (destruct m2 as [m2|]); by repeat split.
Qed.

(** The theorem for a backend that only accepts the field name image. *)
Lemma upload_tries_file_then_image_witness :
  BarcodeScannerNative.loading
    (BarcodeScannerNative.uploadImage true 0 "2024-01-01T00:00:00.000Z"
       (fun field_ => if String.eqb field_ "image"
                      then BarcodeScannerNative.Ok 200 (Some (JSValue.VObj [])) ""
                      else BarcodeScannerNative.NotOk 422 "missing image")
       true
       {| BarcodeScannerNative.picked :=
            Some {| BarcodeScannerNative.uri := "file:///a/code.jpg";
                    BarcodeScannerNative.fileName := None;
                    BarcodeScannerNative.type := None |};
          BarcodeScannerNative.loading := false;
          BarcodeScannerNative.serverResult := None;
          BarcodeScannerNative.saved :=
            {| BarcodeScannerNative.savedFoods := []; BarcodeScannerNative.stored := None |};
          BarcodeScannerNative.alerts := [];
          BarcodeScannerNative.requests := [] |}) = false.
Proof.
  destruct (upload_tries_file_then_image true 0 "2024-01-01T00:00:00.000Z"
              (fun field_ => if String.eqb field_ "image"
                             then BarcodeScannerNative.Ok 200 (Some (JSValue.VObj [])) ""
                             else BarcodeScannerNative.NotOk 422 "missing image")
              true
              {| BarcodeScannerNative.picked :=
                   Some {| BarcodeScannerNative.uri := "file:///a/code.jpg";
                           BarcodeScannerNative.fileName := None;
                           BarcodeScannerNative.type := None |};
                 BarcodeScannerNative.loading := false;
                 BarcodeScannerNative.serverResult := None;
                 BarcodeScannerNative.saved :=
                   {| BarcodeScannerNative.savedFoods := [];
                      BarcodeScannerNative.stored := None |};
                 BarcodeScannerNative.alerts := [];
                 BarcodeScannerNative.requests := [] |}
              _ eq_refl eq_refl) as (f & _ & Hl & _).
  exact Hl.
Defined.

(** ** The timed screen of [src/unnamed/part_005] *)
Section PulseScanTimedFacts.
Import JSValue PulseScanTimed.

(** A value that has no text is one React throws on. *)
Lemma no_text_no_child : forall v, stringable v = false -> render_child v = None.
Proof.
  fix IH 1. intros [| | | | |items|fields]; simpl; try discriminate; [|done].
  induction items as [|x r IHr]; [discriminate|].
  intros [H|H]%andb_false_iff.
  - by rewrite (IH x H).
  - rewrite (IHr H). by destruct (render_child x).
Qed.

Lemma message_or_truthy m fallback :
  str_truthy fallback = true -> str_truthy (message_or m fallback) = true.
Proof.
  intros Hf. unfold message_or. destruct m as [t|]; [|done].
  by destruct (str_truthy t) eqn:Ht.
Qed.

(** The cells after one of the two [catch] blocks. *)
Local Ltac caught :=
  rewrite last_snoc, ?forallb_app;
  repeat match goal with H : forallb outcome_alert _ = true |- _ => rewrite H; clear H end;
  repeat split; try done;
  try (by apply message_or_truthy);
  try (by left); try (by right);
  exact (message_or_truthy (Some _) "Failed to analyze video" eq_refl).

Lemma timed_inv_mount p : invariant (mount p).
Proof. by repeat split. Qed.

Lemma timed_inv_step w e w' : invariant w -> step w e = Some w' -> invariant w'.
Proof.
  unfold invariant, cells_follow, error_is_alerted.
  intros (Hc & He & Hcam & Hal) Hs.
  destruct w as [s pm n p al up cam]; simpl in *.
  destruct e; simpl in Hs.
  - destruct pm; [done|]. by apply Some_eq in Hs as <-.
  - destruct (grant_offered _); [|done]. by apply Some_eq in Hs as <-.
  - destruct n; [done|]. destruct r; by apply Some_eq in Hs as <-.
  - unfold start_offered, granted in Hs. simpl in Hs.
    destruct pm as [[g c]|]; [|done]. simpl in Hs.
    destruct g; [|done]. simpl in Hs.
    destruct p as [|t [|t' p]]; [| |by destruct t].
    + destruct Hc as (Hr & Hu). rewrite Hr, Hu in Hs. simpl in Hs.
      destruct (bpm s); try done.
      apply Some_eq in Hs as <-. simpl.
      repeat split; try done.
      apply Forall_app. split; [done|]. by constructor.
    + destruct t; try done; destruct Hc as (Hr & Hu & _);
        rewrite Hr, Hu in Hs; simpl in Hs; done.
  - unfold result_offered, measure_again_offered in Hs.
    destruct (granted _); [|done]. simpl in Hs.
    destruct p as [|t [|t' p]]; [| |by destruct t].
    + destruct Hc as (Hr & Hu). rewrite Hr, Hu in Hs. simpl in Hs.
      destruct (bpm s); try done; apply Some_eq in Hs as <-; done.
    + destruct t; try done; destruct Hc as (Hr & Hu & _);
        rewrite Hr, Hu in Hs; simpl in Hs; done.
  - destruct p as [|t [|t' p]]; [done| |by destruct t].
    destruct i; [|by destruct i]. simpl in Hs. by destruct t.
  - destruct p as [|t [|t' p]]; [done| |by destruct t].
    destruct i; [|by destruct i]. simpl in Hs. destruct t; try done.
    destruct Hc as (Hr & Hu & Hb & Herr).
    unfold record_settled, scan_catch in Hs.
    destruct r as [[uri|]|m]; simpl in Hs.
    + destruct (str_truthy uri) eqn:Huri; apply Some_eq in Hs as <-; simpl.
      * rewrite Herr, ?forallb_app, ?Hal. by repeat split.
      * caught.
    + apply Some_eq in Hs as <-; simpl. caught.
    + apply Some_eq in Hs as <-; simpl. caught.
  - destruct p as [|t [|t' p]]; [done| |by destruct t].
    destruct i; [|by destruct i]. simpl in Hs. destruct t; try done.
    destruct Hc as (Hr & Hu & Hb & Herr).
    destruct r as [ok|m]; apply Some_eq in Hs as <-; simpl.
    + rewrite Herr, ?forallb_app, ?Hal. by repeat split.
    + caught.
  - destruct p as [|t [|t' p]]; [done| |by destruct t].
    destruct i; [|by destruct i]. simpl in Hs. destruct t; try done.
    destruct Hc as (Hr & Hu & Hb & Herr).
    apply Some_eq in Hs as <-.
    unfold upload_on_json, upload_catch.
    destruct r as [data|m]; simpl.
    + destruct ok; simpl.
      * destruct (get data "bpm") as [b|]; simpl.
        -- destruct (stringable b) eqn:Ex; simpl.
           ++ rewrite Herr, ?forallb_app, ?Hal. by repeat split.
           ++ caught.
        -- caught.
      * destruct (get data "detail"); simpl; caught.
    + caught.
Qed.

Lemma timed_reachable_inv p w : reachable p w -> invariant w.
Proof.
  induction 1 as [|w e w' _ IH Hs]; [apply timed_inv_mount | exact (timed_inv_step _ _ _ IH Hs)].
Qed.

Lemma timed_run_reachable p w es w' :
  reachable p w -> run w es = Some w' -> reachable p w'.
Proof.
  revert w. induction es as [|e es IH]; intros w Hr Hrun; simpl in Hrun.
  - by apply Some_eq in Hrun as <-.
  - destruct (step w e) as [w1|] eqn:Hs; [|done].
    exact (IH w1 (reach_step p w e w1 Hr Hs) Hrun).
Qed.

End PulseScanTimedFacts.

(** X22.  On the timed screen of [src/unnamed/part_005] the torch prop of
    the camera is on exactly while a [recordAsync] is awaited, at most one
    call of [handleStartScan] is in progress, every recording was asked with
    a limit of eight seconds, muted, at 480p, and however the recording
    awaited settles, the torch prop is off afterwards. *)
Theorem timed_torch_follows_recording p w :
  PulseScanTimed.reachable p w ->
  (PulseScanTimed.torch (PulseScanTimed.ui w) = true <-> PulseScanTimed.recording w = true) /\
  (length (PulseScanTimed.pending w) <= 1)%nat /\
  Forall (fun c => c = RecordAsync {| opt_maxDuration := Some 8; opt_mute := true;
                                      opt_quality := "480p" |})
    (PulseScanTimed.camera w) /\
  (forall i r w', PulseScanTimed.step w (PulseScanTimed.RecordSettles i r) = Some w' ->
                  PulseScanTimed.torch (PulseScanTimed.ui w') = false /\
                  PulseScanTimed.recording w' = false).
Proof.
  intros Hr. destruct (timed_reachable_inv _ _ Hr) as (Hc & _ & Hcam & _).
  unfold PulseScanTimed.cells_follow in Hc.
  unfold PulseScanTimed.torch, PulseScanTimed.recording.
  split; [|split; [|split; [exact Hcam|]]].
  - destruct (PulseScanTimed.pending w) as [|t [|t' l]]; [| |by destruct t].
    + destruct Hc as (-> & _). done.
    + destruct t; try done; destruct Hc as (-> & _); done.
  - destruct (PulseScanTimed.pending w) as [|t [|t' l]]; [simpl; lia|simpl; lia|by destruct t].
  - intros i r w' Hs. simpl in Hs.
    destruct (PulseScanTimed.pending w) as [|t [|t' l]] eqn:Hp; [done| |by destruct t].
    destruct i; [|by destruct i]. simpl in Hs. destruct t; try done.
    destruct r as [[uri|]|m]; simpl in Hs.
    + destruct (JSValue.str_truthy uri); apply Some_eq in Hs as <-; done.
    + by apply Some_eq in Hs as <-.
    + by apply Some_eq in Hs as <-.
Qed.

(** The theorem at the state after one press of Start with the permission
    granted: the torch prop is on. *)
Lemma timed_torch_follows_recording_witness :
  PulseScanTimed.torch
    (PulseScanTimed.ui (PulseScanTimed.handleStartScan (PulseScanTimed.mount camera_allowed)))
  = true.
Proof.
  refine (proj2 (proj1 (timed_torch_follows_recording camera_allowed
                          (PulseScanTimed.handleStartScan (PulseScanTimed.mount camera_allowed))
                          _)) _); [|vm_compute; reflexivity].
  apply (timed_run_reachable camera_allowed (PulseScanTimed.mount camera_allowed)
           [PulseScanTimed.PressStart]);
    [apply PulseScanTimed.reach_mount|vm_compute; reflexivity].
Defined.

(** X23.  On the timed screen, an answer with [ok] whose parsed body is
    neither [null] nor [undefined] always sets the rate to the [bpm] of the
    body, whatever it is, a missing one included, and ends the call.  When
    the value has a text, no error is set and the alert Measurement
    complete quotes it; the result card is then on screen unless the value
    is [null], in which case the Start button is back instead; the card
    shows the value followed by BPM, and React throws on it if the value is
    an object.  When the value has no text (an object with a field
    [toString], or an array that holds one), making the alert throws once
    the rate is set: an error is set and alerted, and the render takes the
    result card with it, on whose value React throws. *)
Theorem timed_ok_answer_is_a_measurement p w i data b w' :
  PulseScanTimed.reachable p w ->
  PulseScanTimed.pending w !! i = Some (PulseScanTimed.AwaitJson true) ->
  JSValue.get data "bpm" = Some b ->
  PulseScanTimed.step w (PulseScanTimed.JsonSettles i (Resolved data)) = Some w' ->
  PulseScanTimed.pending w' = [] /\
  PulseScanTimed.bpm (PulseScanTimed.ui w') = b /\
  PulseScanTimed.isUploading (PulseScanTimed.ui w') = false /\
  (JSValue.stringable b = true ->
   PulseScanTimed.error (PulseScanTimed.ui w') = None /\
   PulseScanTimed.alerts w'
   = PulseScanTimed.alerts w ++
     [("Measurement complete", "Your heart rate is " +:+ JSValue.to_string b +:+ " BPM")] /\
   PulseScanTimed.result_offered w'
   = PulseScanTimed.granted w && negb (match b with JSValue.VNull => true | _ => false end) /\
   PulseScanTimed.result_text w'
   = (if PulseScanTimed.result_offered w'
      then Some (option_map (fun t => t +:+ " BPM") (JSValue.render_child b))
      else None) /\
   PulseScanTimed.start_offered w'
   = PulseScanTimed.granted w && (match b with JSValue.VNull => true | _ => false end)) /\
  (JSValue.stringable b = false ->
   exists m,
     JSValue.str_truthy m = true /\
     PulseScanTimed.error (PulseScanTimed.ui w') = Some m /\
     PulseScanTimed.alerts w' = PulseScanTimed.alerts w ++ [("Error", m)] /\
     PulseScanTimed.result_offered w' = PulseScanTimed.granted w /\
     PulseScanTimed.result_text w'
     = (if PulseScanTimed.granted w then Some None else None) /\
     PulseScanTimed.start_offered w' = false).
Proof.
  intros Hr Hl Hb Hs.
  destruct (timed_reachable_inv _ _ Hr) as (Hc & _).
  unfold PulseScanTimed.cells_follow in Hc.
  simpl in Hs.
  destruct (PulseScanTimed.pending w) as [|t [|t' l]] eqn:Hp; [done| |by destruct t].
  destruct i; [|by destruct i]. simpl in Hl, Hs. apply Some_eq in Hl. subst t.
  destruct Hc as (Hrec & Hu & Hn & He).
  apply Some_eq in Hs as <-.
  unfold PulseScanTimed.upload_on_json. simpl. rewrite Hb. cbv zeta.
  unfold PulseScanTimed.result_text, PulseScanTimed.result_offered,
    PulseScanTimed.start_offered, PulseScanTimed.measure_again_offered,
    PulseScanTimed.granted.
  destruct (JSValue.stringable b) eqn:Ex; simpl; rewrite Hrec, ?He; simpl.
  - split; [done|]. split; [done|]. split; [done|]. split; [|done].
    intros _. repeat split; try done.
    destruct (match PulseScanTimed.permission w with Some q => _ | None => _ end); done.
  - split; [done|]. split; [done|]. split; [done|]. split; [done|].
    intros _. eexists. split; [|split; [reflexivity|split; [reflexivity|]]]; [done|].
    rewrite (no_text_no_child b Ex).
    destruct b; try done;
      destruct (match PulseScanTimed.permission w with Some q => _ | None => _ end); done.
Qed.

(** The theorem for an answer whose [bpm] has no text: the result card is
    on screen and an error is set. *)
Lemma timed_ok_answer_is_a_measurement_witness :
  exists w',
    PulseScanTimed.step (timed_checking true)
      (PulseScanTimed.JsonSettles 0 (Resolved (JSValue.VObj [("bpm", textless)])))
    = Some w' /\
    PulseScanTimed.bpm (PulseScanTimed.ui w') = textless /\
    PulseScanTimed.error (PulseScanTimed.ui w') <> None.
Proof.
  eexists. split; [vm_compute; reflexivity|].
  split; [|vm_compute; discriminate].
  refine (proj1 (proj2
    (timed_ok_answer_is_a_measurement camera_allowed (timed_checking true) 0%nat
       (JSValue.VObj [("bpm", textless)]) textless _ _ _ _ _)));
    [|vm_compute; reflexivity|vm_compute; reflexivity|vm_compute; reflexivity].
  apply (timed_run_reachable camera_allowed (PulseScanTimed.mount camera_allowed)
           [PulseScanTimed.PressStart;
            PulseScanTimed.RecordSettles 0 (Resolved (Some clip));
            PulseScanTimed.FetchSettles 0 (Resolved true)]);
    [apply PulseScanTimed.reach_mount|vm_compute; reflexivity].
Defined.

(** X24.  On the timed screen, whenever the error cell holds a text, the
    text is not empty, it is the message of the last alert, no call is in
    progress, and the error line is on screen whenever the screen proper
    is.  The rate beside it is [null], or a value that has no text.  With
    [null] there is no result card, the Start button is on screen whenever
    the screen proper is, and the next press of Start clears the error;
    with a value, the render takes the result card in place of the Start
    button, React throws on the value of the card, and Measure Again, where
    it can be pressed, clears the error and the value. *)
Theorem timed_error_stays_until_cleared p w m :
  PulseScanTimed.reachable p w ->
  PulseScanTimed.error (PulseScanTimed.ui w) = Some m ->
  JSValue.str_truthy m = true /\
  last (PulseScanTimed.alerts w) = Some ("Error", m) /\
  PulseScanTimed.pending w = [] /\
  PulseScanTimed.error_shown w = (if PulseScanTimed.granted w then Some m else None) /\
  (PulseScanTimed.bpm (PulseScanTimed.ui w) = JSValue.VNull \/
   JSValue.stringable (PulseScanTimed.bpm (PulseScanTimed.ui w)) = false) /\
  (PulseScanTimed.bpm (PulseScanTimed.ui w) = JSValue.VNull ->
   PulseScanTimed.result_offered w = false /\
   PulseScanTimed.start_offered w = PulseScanTimed.granted w /\
   forall w', PulseScanTimed.step w PulseScanTimed.PressStart = Some w' ->
              PulseScanTimed.error (PulseScanTimed.ui w') = None) /\
  (PulseScanTimed.bpm (PulseScanTimed.ui w) <> JSValue.VNull ->
   PulseScanTimed.start_offered w = false /\
   PulseScanTimed.result_offered w = PulseScanTimed.granted w /\
   PulseScanTimed.result_text w
   = (if PulseScanTimed.granted w then Some None else None) /\
   forall w', PulseScanTimed.step w PulseScanTimed.PressMeasureAgain = Some w' ->
              PulseScanTimed.error (PulseScanTimed.ui w') = None /\
              PulseScanTimed.bpm (PulseScanTimed.ui w') = JSValue.VNull).
Proof.
  intros Hr He.
  destruct (timed_reachable_inv _ _ Hr) as (Hc & Hea & _).
  unfold PulseScanTimed.cells_follow in Hc.
  unfold PulseScanTimed.error_is_alerted in Hea. rewrite He in Hea.
  destruct Hea as (Hm & Hl & Hb).
  destruct (PulseScanTimed.pending w) as [|t [|t' l]] eqn:Hp; [| |by destruct t].
  - destruct Hc as (Hrec & Hu).
    split; [done|]. split; [done|]. split; [done|]. split.
    { unfold PulseScanTimed.error_shown. rewrite He, Hrec, Hu, Hm.
      by destruct (PulseScanTimed.granted w). }
    split; [done|].
    unfold PulseScanTimed.result_offered, PulseScanTimed.start_offered,
      PulseScanTimed.measure_again_offered.
    rewrite Hrec, Hu. simpl. split.
    + intros Hn. rewrite Hn. simpl.
      split; [by destruct (PulseScanTimed.granted w)|].
      split; [by destruct (PulseScanTimed.granted w)|].
      intros w' Hs.
      unfold PulseScanTimed.start_offered in Hs.
      destruct (PulseScanTimed.granted w) eqn:Hg; [|done].
      rewrite Hrec, Hu, Hn in Hs. simpl in Hs. apply Some_eq in Hs as <-.
      unfold PulseScanTimed.handleStartScan. rewrite Hg. done.
    + intros Hn.
      assert ((match PulseScanTimed.bpm (PulseScanTimed.ui w) with
               | JSValue.VNull => true
               | _ => false
               end) = false) as Hnull
        by (by destruct (PulseScanTimed.bpm (PulseScanTimed.ui w))).
      rewrite Hnull. simpl.
      split; [by destruct (PulseScanTimed.granted w)|].
      split; [by destruct (PulseScanTimed.granted w)|].
      split.
      { unfold PulseScanTimed.result_text, PulseScanTimed.result_offered,
          PulseScanTimed.measure_again_offered.
        rewrite Hrec, Hu, Hnull. simpl.
        destruct Hb as [Hb|Hb]; [done|]. rewrite (no_text_no_child _ Hb).
        by destruct (PulseScanTimed.granted w). }
      intros w' Hs.
      unfold PulseScanTimed.result_offered in Hs.
      destruct (_ && _); [|done]. by apply Some_eq in Hs as <-.
  - destruct t; try done; destruct Hc as (_ & _ & _ & Hn); congruence.
Qed.

(** The theorem after a recording rejected without message: the error on
    screen is the fallback text. *)
Lemma timed_error_stays_until_cleared_witness :
  PulseScanTimed.error_shown timed_failed = Some "Recording failed".
Proof.
  refine (eq_trans (proj1 (proj2 (proj2 (proj2
    (timed_error_stays_until_cleared camera_allowed timed_failed "Recording failed"
       _ _))))) _);
    [|vm_compute; reflexivity|vm_compute; reflexivity].
  apply (timed_run_reachable camera_allowed (PulseScanTimed.mount camera_allowed)
           [PulseScanTimed.PressStart; PulseScanTimed.RecordSettles 0 (Rejected None)]);
    [apply PulseScanTimed.reach_mount|vm_compute; reflexivity].
Defined.

(** X25.  On the timed screen, an answer without [ok] whose parsed body is
    neither [null] nor [undefined] ends the call with a non-empty error
    that is set and alerted, and without a rate.  The error is the
    heart-rate fallback if [detail] is falsy or missing; for a truthy
    [detail] that has a text, it is that text, or the analysis fallback if
    the text is empty (as for the empty array); for a truthy [detail] that
    has no text, it is the message of the error thrown in making one. *)
Theorem timed_refusal_shows_detail p w i data d w' :
  PulseScanTimed.reachable p w ->
  PulseScanTimed.pending w !! i = Some (PulseScanTimed.AwaitJson false) ->
  JSValue.get data "detail" = Some d ->
  PulseScanTimed.step w (PulseScanTimed.JsonSettles i (Resolved data)) = Some w' ->
  exists msg,
    PulseScanTimed.pending w' = [] /\
    PulseScanTimed.error (PulseScanTimed.ui w') = Some msg /\
    JSValue.str_truthy msg = true /\
    PulseScanTimed.bpm (PulseScanTimed.ui w') = JSValue.VNull /\
    PulseScanTimed.isUploading (PulseScanTimed.ui w') = false /\
    PulseScanTimed.alerts w' = PulseScanTimed.alerts w ++ [("Error", msg)] /\
    (JSValue.truthy d = false -> msg = "Unable to calculate heart rate") /\
    (JSValue.truthy d = true -> JSValue.stringable d = true ->
     msg = if JSValue.str_truthy (JSValue.to_string d) then JSValue.to_string d
           else "Failed to analyze video") /\
    (JSValue.truthy d = true -> JSValue.stringable d = false ->
     msg = JSValue.to_primitive_error).
Proof.
  intros Hr Hl Hd Hs.
  destruct (timed_reachable_inv _ _ Hr) as (Hc & _).
  unfold PulseScanTimed.cells_follow in Hc.
  simpl in Hs.
  destruct (PulseScanTimed.pending w) as [|t [|t' l]] eqn:Hp; [done| |by destruct t].
  destruct i; [|by destruct i]. simpl in Hl, Hs. apply Some_eq in Hl. subst t.
  destruct Hc as (Hrec & Hu & Hn & He).
  apply Some_eq in Hs as <-.
  unfold PulseScanTimed.upload_on_json. simpl. rewrite Hd.
  unfold PulseScanTimed.upload_catch. cbv zeta.
  eexists. split; [reflexivity|]. split; [reflexivity|].
  split; [by apply message_or_truthy|]. simpl. rewrite Hn.
  split; [done|]. split; [done|]. split; [done|].
  unfold JSValue.or_else.
  destruct (JSValue.truthy d) eqn:Et.
  - split; [done|]. unfold JSValue.error_message.
    assert (d <> JSValue.VUndefined) as Hund by (by intros ->).
    split; intros _ Hx; rewrite Hx; by destruct d.
  - split; [done|]. split; done.
Qed.

(** The theorem for a body whose [detail] is the empty array, which is
    truthy and has the empty text. *)
Lemma timed_refusal_shows_detail_witness :
  exists w',
    PulseScanTimed.step (timed_checking false)
      (PulseScanTimed.JsonSettles 0 (Resolved (JSValue.VObj [("detail", JSValue.VArr [])])))
    = Some w' /\
    PulseScanTimed.error (PulseScanTimed.ui w') = Some "Failed to analyze video".
Proof.
  eexists. split; [vm_compute; reflexivity|].
  destruct (timed_refusal_shows_detail camera_allowed (timed_checking false) 0%nat
              (JSValue.VObj [("detail", JSValue.VArr [])]) (JSValue.VArr []) _
              (timed_run_reachable camera_allowed (PulseScanTimed.mount camera_allowed)
                 [PulseScanTimed.PressStart;
                  PulseScanTimed.RecordSettles 0 (Resolved (Some clip));
                  PulseScanTimed.FetchSettles 0 (Resolved false)] _
                 (PulseScanTimed.reach_mount camera_allowed) eq_refl)
              eq_refl eq_refl eq_refl)
    as (msg & _ & He & _ & _ & _ & _ & _ & Hm & _).
  exact (eq_trans He (f_equal Some (Hm eq_refl eq_refl))).
Defined.

(** X26.  On the timed screen the Start button is rendered only with the
    permission granted and the camera mounted, so [handleStartScan] never
    asks for the permission itself and never finds the camera missing: no
    call ever waits for [requestPermission], and every alert raised is
    either an Error or a Measurement complete. *)
Theorem timed_permission_branch_is_dead p w :
  PulseScanTimed.reachable p w ->
  ~ In PulseScanTimed.AwaitPermission (PulseScanTimed.pending w) /\
  Forall (fun a => fst a = "Error" \/ fst a = "Measurement complete")
    (PulseScanTimed.alerts w).
Proof.
  intros Hr. destruct (timed_reachable_inv _ _ Hr) as (Hc & _ & _ & Hal).
  unfold PulseScanTimed.cells_follow in Hc.
  split.
  - destruct (PulseScanTimed.pending w) as [|t [|t' l]]; [| |by destruct t].
    + by intros [].
    + intros [->|[]]. done.
  - apply Forall_forall. intros a Ha.
    rewrite forallb_forall in Hal.
    apply list_elem_of_In in Ha. specialize (Hal a Ha).
    unfold PulseScanTimed.outcome_alert in Hal.
    apply orb_true_iff in Hal as [H|H]; apply String.eqb_eq in H; tauto.
Qed.

(** The theorem at the state after one press of Start with the permission
    granted. *)
Lemma timed_permission_branch_is_dead_witness :
  ~ In PulseScanTimed.AwaitPermission
      (PulseScanTimed.pending
         (PulseScanTimed.handleStartScan (PulseScanTimed.mount camera_allowed))).
Proof.
  refine (proj1 (timed_permission_branch_is_dead camera_allowed
                   (PulseScanTimed.handleStartScan (PulseScanTimed.mount camera_allowed)) _)).
  apply (timed_run_reachable camera_allowed (PulseScanTimed.mount camera_allowed)
           [PulseScanTimed.PressStart]);
    [apply PulseScanTimed.reach_mount|vm_compute; reflexivity].
Defined.

(** ** The upload of the food screen *)
Section FoodUpload.
Import JSValue FoodScannerScreen.

Lemma food_message_or_truthy m fallback :
  str_truthy fallback = true -> str_truthy (message_or m fallback) = true.
Proof.
  intros Hf. unfold message_or. destruct m as [t|]; [|done].
  by destruct (str_truthy t) eqn:Ht.
Qed.

Lemma outcome_parsed a parsed :
  outcome a = inl parsed ->
  exists code t fs,
    a = Ok code (Resolved parsed) t /\ truthy parsed = true /\
    get parsed "foods" = Some (VArr fs).
Proof.
  destruct a as [m|code t|code [v|m] t]; simpl; try done.
  destruct (truthy v) eqn:Ht; simpl; [|done].
  destruct (get v "foods") as [[]|] eqn:Hg; simpl; try done.
  intros [= <-]. by eexists _, _, _.
Qed.

Lemma outcome_thrown a m :
  outcome a = inr m ->
  (exists t, m = Some t /\ str_truthy t = true) \/ a = NetworkError m.
Proof.
  destruct a as [m'|code t'|code [v|m'] t']; simpl; intros Ha.
  - right. congruence.
  - left. injection Ha as <-. by eexists.
  - left. destruct (truthy v); simpl in Ha.
    + destruct (get v "foods") as [[]|]; simpl in Ha; try done;
        injection Ha as <-; by eexists.
    + injection Ha as <-; by eexists.
  - left. injection Ha as <-. by eexists.
Qed.

Lemma food_inv_step android w e w' :
  invariant w -> step android w e = Some w' -> invariant w'.
Proof.
  unfold invariant. intros (Hw & Ha & Hr) Hs.
  destruct w as [im an re er wa al rq]; simpl in *.
  destruct e; simpl in Hs.
  - by apply Some_eq in Hs as <-.
  - unfold analyze_enabled in Hs. simpl in Hs.
    destruct im as [uri|]; [|done]. destruct an; [done|]. simpl in Hs.
    apply Some_eq in Hs as <-. unfold uploadToBackend. simpl.
    destruct (str_truthy uri); simpl; [|done].
    subst wa. by repeat split.
  - apply Some_eq in Hs as <-. simpl. by repeat split.
  - destruct wa as [|n]; [done|]. apply Some_eq in Hs as <-.
    destruct an; [|done]. destruct (Ha eq_refl) as (-> & ->).
    injection Hw as ->.
    unfold upload_settled. simpl.
    destruct (outcome a) as [parsed|m] eqn:Ho; simpl; [|by repeat split].
    destruct (outcome_parsed _ _ Ho) as (code & t & fs & _ & Ht & Hg).
    unfold foods_shown. simpl. rewrite Ht, Hg. by repeat split.
Qed.

Lemma food_reachable_inv android w : reachable android w -> invariant w.
Proof.
  induction 1 as [|w e w' _ IH Hs]; [by repeat split|exact (food_inv_step _ _ _ _ IH Hs)].
Qed.

Lemma food_run_reachable android w es w' :
  reachable android w -> run android w es = Some w' -> reachable android w'.
Proof.
  revert w. induction es as [|e es IH]; intros w Hr Hrun; simpl in Hrun.
  - by apply Some_eq in Hrun as <-.
  - destruct (step android w e) as [w1|] eqn:Hs; [|done].
    exact (IH w1 (reach_step android w e w1 Hr Hs) Hrun).
Qed.

Lemma food_analyzing_reachable : reachable true food_analyzing.
Proof.
  apply (food_run_reachable true mount [Picked "file:///cache/meal.png"; PressAnalyze]);
    [apply reach_mount|vm_compute; reflexivity].
Qed.

End FoodUpload.

(** X27.  On Android, for a uri whose last segment is not empty,
    [fileObjectFromUri] of the food screen builds the file that
    [buildFileForUpload] of the barcode screen builds for an image with that
    uri and neither [fileName] nor [type]. *)
Theorem food_file_is_the_barcode_file now uri :
  JSValue.str_truthy (BarcodeScannerNative.last_part uri) = true ->
  BarcodeScannerNative.buildFileForUpload true now
    (Some {| BarcodeScannerNative.uri := uri; BarcodeScannerNative.fileName := None;
             BarcodeScannerNative.type := None |})
  = Some (FoodScannerScreen.fileObjectFromUri true uri).
Proof.
  intros Hl.
  assert (JSValue.str_truthy uri = true) as Hu by (by destruct uri).
  unfold BarcodeScannerNative.buildFileForUpload, FoodScannerScreen.fileObjectFromUri.
  cbn [BarcodeScannerNative.uri BarcodeScannerNative.fileName BarcodeScannerNative.type].
  rewrite Hu. cbv zeta. cbn [negb]. cbv iota. rewrite Hl. reflexivity.
Qed.

(** The theorem for a picture in the cache directory. *)
Lemma food_file_is_the_barcode_file_witness :
  BarcodeScannerNative.buildFileForUpload true 0
    (Some {| BarcodeScannerNative.uri := "file:///cache/meal.PNG";
             BarcodeScannerNative.fileName := None;
             BarcodeScannerNative.type := None |})
  = Some (FoodScannerScreen.fileObjectFromUri true "file:///cache/meal.PNG").
Proof.
  apply (food_file_is_the_barcode_file 0 "file:///cache/meal.PNG").
  vm_compute; reflexivity.
Defined.

(** X28.  On the food screen, when the answer to an analysis comes, the
    analysis is over.  An answer with [ok] whose parsed body is truthy and
    has an array as [foods] always becomes the result, and only such an
    answer does: either the parsed body of such an answer is the result, its
    array is what the render lists and totals, and there is neither error
    nor alert; or there is no result and no list,
    the error cell holds a non-empty text and one alert titled Upload failed
    is added.  The alert shows the text of the cell, except when the
    [fetch] itself was rejected without a message or with an empty one:
    then the cell says Upload failed and the alert says Unknown error. *)
Theorem analysis_ends_with_result_or_error android w a w' :
  FoodScannerScreen.reachable android w ->
  FoodScannerScreen.analyzing w = true ->
  FoodScannerScreen.step android w (FoodScannerScreen.AnswerSettles a) = Some w' ->
  FoodScannerScreen.analyzing w' = false /\
  FoodScannerScreen.waiting w' = 0%nat /\
  (forall code parsed t fs,
      a = FoodScannerScreen.Ok code (Resolved parsed) t ->
      JSValue.truthy parsed = true ->
      JSValue.get parsed "foods" = Some (JSValue.VArr fs) ->
      FoodScannerScreen.result w' = Some parsed) /\
  ((exists code parsed t fs,
      a = FoodScannerScreen.Ok code (Resolved parsed) t /\
      JSValue.truthy parsed = true /\
      JSValue.get parsed "foods" = Some (JSValue.VArr fs) /\
      FoodScannerScreen.result w' = Some parsed /\
      FoodScannerScreen.foods_shown w' = Some fs /\
      FoodScannerScreen.errorMsg w' = None /\
      FoodScannerScreen.alerts w' = FoodScannerScreen.alerts w)
   \/
   (exists shown alerted,
      FoodScannerScreen.result w' = None /\
      FoodScannerScreen.foods_shown w' = None /\
      FoodScannerScreen.errorMsg w' = Some shown /\
      JSValue.str_truthy shown = true /\
      FoodScannerScreen.alerts w'
      = FoodScannerScreen.alerts w ++ [("Upload failed", alerted)] /\
      (alerted = shown \/
       (shown = "Upload failed" /\ alerted = "Unknown error" /\
        (a = FoodScannerScreen.NetworkError None
         \/ a = FoodScannerScreen.NetworkError (Some ""))))) ).
Proof.
  intros Hr Han Hs.
  destruct (food_reachable_inv _ _ Hr) as (Hw & Ha & _).
  rewrite Han in Hw. destruct (Ha Han) as (Hre & Her).
  simpl in Hs. rewrite Hw in Hs. apply Some_eq in Hs as <-.
  unfold FoodScannerScreen.upload_settled.
  assert (forall code parsed t fs,
             a = FoodScannerScreen.Ok code (Resolved parsed) t ->
             JSValue.truthy parsed = true ->
             JSValue.get parsed "foods" = Some (JSValue.VArr fs) ->
             FoodScannerScreen.outcome a = inl parsed) as Hgood.
  { intros code parsed t fs -> Ht Hg. simpl. by rewrite Ht, Hg. }
  destruct (FoodScannerScreen.outcome a) as [parsed|m] eqn:Ho; simpl.
  - rewrite Hw. split; [done|]. split; [done|].
    split; [intros code p t fs Ha' Ht Hg; by specialize (Hgood code p t fs Ha' Ht Hg) as [= ->]|].
    left.
    destruct (outcome_parsed _ _ Ho) as (code & t & fs & -> & Ht & Hg).
    exists code, parsed, t, fs.
    unfold FoodScannerScreen.foods_shown. simpl. by rewrite Ht, Hg.
  - rewrite Hw. split; [done|]. split; [done|].
    split; [intros code p t fs Ha' Ht Hg; by specialize (Hgood code p t fs Ha' Ht Hg)|].
    right.
    exists (FoodScannerScreen.message_or m "Upload failed"),
           (FoodScannerScreen.message_or m "Unknown error").
    unfold FoodScannerScreen.foods_shown. simpl. rewrite Hre.
    split; [done|]. split; [done|]. split; [done|].
    split; [by apply food_message_or_truthy|]. split; [done|].
    destruct (outcome_thrown _ _ Ho) as [(t & -> & Ht)| ->].
    + left. unfold FoodScannerScreen.message_or. by rewrite Ht.
    + destruct m as [[|c t]|]; [right|left|right]; by repeat split; auto.
Qed.

(** The theorem for a rejected [fetch] without message: the cell and the
    alert differ. *)
Lemma analysis_ends_with_result_or_error_witness :
  exists w',
    FoodScannerScreen.step true food_analyzing
      (FoodScannerScreen.AnswerSettles (FoodScannerScreen.NetworkError None)) = Some w' /\
    FoodScannerScreen.analyzing w' = false.
Proof.
  eexists. split; [vm_compute; reflexivity|].
  refine (proj1 (analysis_ends_with_result_or_error true food_analyzing
                   (FoodScannerScreen.NetworkError None) _ food_analyzing_reachable _ _));
    vm_compute; reflexivity.
Defined.

(** X29.  On the food screen a press of Reset during an analysis does not
    cancel it: the image is gone, but the answer still settles the call, and
    the result, the error and the alerts are then those of the same answer
    without the reset. *)
Theorem reset_does_not_cancel_analysis android w a :
  FoodScannerScreen.reachable android w ->
  FoodScannerScreen.analyzing w = true ->
  exists w1 w2 w',
    FoodScannerScreen.step android w FoodScannerScreen.PressReset = Some w1 /\
    FoodScannerScreen.step android w1 (FoodScannerScreen.AnswerSettles a) = Some w2 /\
    FoodScannerScreen.step android w (FoodScannerScreen.AnswerSettles a) = Some w' /\
    FoodScannerScreen.image w2 = None /\
    FoodScannerScreen.analyzing w2 = false /\
    FoodScannerScreen.result w2 = FoodScannerScreen.result w' /\
    FoodScannerScreen.errorMsg w2 = FoodScannerScreen.errorMsg w' /\
    FoodScannerScreen.alerts w2 = FoodScannerScreen.alerts w'.
Proof.
  intros Hr Han.
  destruct (food_reachable_inv _ _ Hr) as (Hw & Ha & _).
  rewrite Han in Hw. destruct (Ha Han) as (Hre & Her).
  exists (FoodScannerScreen.reset w),
         (FoodScannerScreen.upload_settled a (FoodScannerScreen.reset w)),
         (FoodScannerScreen.upload_settled a w).
  simpl. rewrite Hw.
  split; [reflexivity|]. split; [reflexivity|]. split; [reflexivity|].
  unfold FoodScannerScreen.upload_settled.
  destruct (FoodScannerScreen.outcome a); simpl; by rewrite ?Hre, ?Her.
Qed.

(** The theorem at the state of the example with the analysis under way. *)
Lemma reset_does_not_cancel_analysis_witness :
  exists w1 w2,
    FoodScannerScreen.step true food_analyzing FoodScannerScreen.PressReset = Some w1 /\
    FoodScannerScreen.step true w1
      (FoodScannerScreen.AnswerSettles
         (FoodScannerScreen.Ok 200 (Resolved (JSValue.VObj [("foods", JSValue.VArr [])]))
            (Rejected None)))
    = Some w2 /\
    FoodScannerScreen.image w2 = None /\ FoodScannerScreen.result w2 <> None.
Proof.
  destruct (reset_does_not_cancel_analysis true food_analyzing
              (FoodScannerScreen.Ok 200 (Resolved (JSValue.VObj [("foods", JSValue.VArr [])]))
                 (Rejected None))
              food_analyzing_reachable eq_refl)
    as (w1 & w2 & w' & H1 & H2 & H' & Hi & _ & Hres & _).
  exists w1, w2. split; [exact H1|]. split; [exact H2|]. split; [exact Hi|].
  rewrite Hres. vm_compute in H'. apply Some_eq in H'. subst w'. done.
Defined.

(** X30.  On the food screen at most one analysis is in progress, the
    screen is analyzing exactly while one is, Analyze cannot be pressed
    meanwhile, and a result and an error are never held together; while an
    analysis is in progress neither is held. *)
Theorem one_analysis_at_a_time android w :
  FoodScannerScreen.reachable android w ->
  (FoodScannerScreen.waiting w <= 1)%nat /\
  (FoodScannerScreen.analyzing w = true <-> FoodScannerScreen.waiting w = 1%nat) /\
  (FoodScannerScreen.waiting w = 1%nat ->
   FoodScannerScreen.step android w FoodScannerScreen.PressAnalyze = None) /\
  (FoodScannerScreen.analyzing w = true ->
   FoodScannerScreen.result w = None /\ FoodScannerScreen.errorMsg w = None) /\
  (FoodScannerScreen.result w = None \/ FoodScannerScreen.errorMsg w = None).
Proof.
  intros Hr. destruct (food_reachable_inv _ _ Hr) as (Hw & Ha & Hre).
  split; [rewrite Hw; destruct (FoodScannerScreen.analyzing w); lia|].
  split; [rewrite Hw; by destruct (FoodScannerScreen.analyzing w)|].
  split.
  - intros H1. simpl. unfold FoodScannerScreen.analyze_enabled.
    destruct (FoodScannerScreen.analyzing w); [|by rewrite Hw in H1].
    by destruct (FoodScannerScreen.image w).
  - split; [exact Ha|].
    destruct (FoodScannerScreen.result w); [right; by destruct Hre|by left].
Qed.

(** The theorem at the state of the example with the analysis under way:
    Analyze cannot be pressed. *)
Lemma one_analysis_at_a_time_witness :
  FoodScannerScreen.step true food_analyzing FoodScannerScreen.PressAnalyze = None.
Proof.
  refine (proj1 (proj2 (proj2 (one_analysis_at_a_time true food_analyzing
                                 food_analyzing_reachable))) _).
  vm_compute; reflexivity.
Defined.
